(** * httpBinaryClient: streaming upload client and receiving handler

    A shallow embedding of [client/client.go] (the retrying, concurrency
    limited upload client) and of [server/server.go] (the receiving
    handler), together with the properties of the specification that are
    stated about them.

    Conventions.
    - Go [int] and [int64] are [Z]; where the source does arithmetic that can
      leave the 64-bit range the wrap-around is written with [wrap64].
    - Go [string] is [string] (a sequence of bytes: a Cyrillic letter of the
      source occupies two characters here, exactly as in Go), so
      [strings.Contains] is byte-wise substring search.
    - A Go [error] is the message it prints together with the error it
      wraps, as in the [fmt] and [errors] packages.
    - Results of library and system calls (opening and reading the file, the
      HTTP round trip, which branch of a [select] fires) are supplied by an
      explicit environment script; the functions below are the control flow
      of the source over that script.
    - A finite [float64] is the rational it denotes ([Q]); conversion from an
      integer, division and multiplication round to nearest, ties to even,
      with a 53-bit significand, as in IEEE 754 binary64. *)

From Stdlib Require Import ZArith QArith List String Ascii Bool Lia.
From Stdlib Require Import Numbers.DecimalString.
From stdpp Require Import base option gmap strings.
Import ListNotations.

#[local] Open Scope Z_scope.

(* ===================================================================== *)
(** ** Go runtime: integers, strings, errors *)
(* ===================================================================== *)

Module Go.

(** Two's complement wrap-around of a 64-bit signed integer. *)
Definition wrap64 (z : Z) : Z := (z + 2 ^ 63) mod 2 ^ 64 - 2 ^ 63.

Definition int64_range (z : Z) : Prop := - 2 ^ 63 <= z < 2 ^ 63.

(** The [%d] verb of [fmt]. *)
Definition itoa (z : Z) : string := NilZero.string_of_int (Z.to_int z).

(** [strings.Contains s substr]. *)
Fixpoint Contains (s substr : string) : bool :=
  String.prefix substr s
  || match s with
     | EmptyString => false
     | String _ s' => Contains s' substr
     end.

(** [strings.Join elems sep]. *)
Fixpoint Join (elems : list string) (sep : string) : string :=
  match elems with
  | [] => ""
  | [e] => e
  | e :: rest => e +:+ sep +:+ Join rest sep
  end.

(** The two concrete error types the client builds: [errors.errorString]
    (also what [fmt.Errorf] returns without [%w], and our stand-in for
    errors coming out of the operating system or the HTTP stack) and
    [fmt.wrapError] (what [fmt.Errorf] returns with [%w]). *)
Inductive error : Type :=
| errorString (s : string)
| wrapError (msg : string) (err : error).

Definition Error (e : error) : string :=
  match e with
  | errorString s => s
  | wrapError msg _ => msg
  end.

Definition Unwrap (e : error) : option error :=
  match e with
  | errorString _ => None
  | wrapError _ err => Some err
  end.

(** [fmt.Errorf (prefix ++ "%w") err] for a non-nil [err]. *)
Definition Errorf_w (pfx : string) (err : error) : error :=
  wrapError (pfx +:+ Error err) err.

(** [io.EOF] is a sentinel compared by identity, so a read returns one of
    three things. *)
Inductive readError : Type :=
| ReadNil
| ReadEOF
| ReadFail (err : error).

(** *** [float64]

    A finite [float64] is represented by the rational it denotes, in lowest
    terms.  Rounding is to nearest, ties to even, with a significand of 53
    bits and no bound on the exponent: this is binary64 as long as the
    result is neither subnormal nor infinite, which holds for the quotients
    and products of 64-bit integers computed in this program. *)

(** [n / d] over [2^e], as a fraction of integers. *)
Definition scale (n d e : Z) : Z * Z :=
  (n * 2 ^ Z.max 0 (- e), d * 2 ^ Z.max 0 e).

(** The positive ratio [n / d] rounded to 53 significant bits: [(m, e)]
    stands for [m * 2^e], with [2^52 <= m <= 2^53]. *)
Definition round53 (n d : Z) : Z * Z :=
  let e0 := Z.log2 n - Z.log2 d - 53 in
  let '(num0, den0) := scale n d e0 in
  let e := if num0 / den0 <? 2 ^ 53 then e0 else e0 + 1 in
  let '(num, den) := scale n d e in
  let q := num / den in
  let r := num mod den in
  (if (den <? 2 * r) || ((2 * r =? den) && Z.odd q) then q + 1 else q, e).

Definition value (me : Z * Z) : Q :=
  let '(m, e) := me in
  Qred ((m * 2 ^ Z.max 0 e) # Z.to_pos (2 ^ Z.max 0 (- e))).

(** The ratio [n / d], [d <> 0], as a [float64]. *)
Definition roundRatio (n d : Z) : Q :=
  if n =? 0 then 0%Q
  else
    let v := value (round53 (Z.abs n) (Z.abs d)) in
    if Z.sgn n * Z.sgn d <? 0 then Qopp v else v.

(** [float64(z)]. *)
Definition float64OfInt (z : Z) : Q := roundRatio z 1.

(** [x / y] on [float64], for [y] other than zero. *)
Definition fdiv (x y : Q) : Q :=
  roundRatio (Qnum x * QDen y) (Qnum y * QDen x).

(** [x * y] on [float64]. *)
Definition fmul (x y : Q) : Q :=
  roundRatio (Qnum x * Qnum y) (QDen x * QDen y).

End Go.

Import Go.

(* ===================================================================== *)
(** ** client/client.go *)
(* ===================================================================== *)

Module Client.

(** [ClientConfig]; the two durations are in nanoseconds. *)
Record ClientConfig : Type := mkConfig {
  BufferSize : Z;
  MaxConcurrency : Z;
  Timeout : Z;
  RetryAttempts : Z;
  RetryDelay : Z
}.

Definition Second : Z := 1000000000.
Definition Minute : Z := 60 * Second.

(** [DefaultConfig]; [numCPU] is [runtime.NumCPU ()]. *)
Definition DefaultConfig (numCPU : Z) : ClientConfig :=
  {| BufferSize := 64 * 1024;
     MaxConcurrency := numCPU;
     Timeout := 30 * Minute;
     RetryAttempts := 3;
     RetryDelay := Second |}.

(** [percentage := float64(bytesTransferred) / float64(fileSize) * 100];
    [fileSize] is not zero where the source computes it. *)
Definition percentage (bytesTransferred fileSize : Z) : Q :=
  fmul (fdiv (float64OfInt bytesTransferred) (float64OfInt fileSize))
       (inject_Z 100).

(** What one call does to the outside world, in the order the calling
    goroutine and its producer goroutine do it.  The producer runs
    concurrently with the HTTP round trip: the position of [EvDo] among the
    [EvProgress] events of the same attempt carries no meaning. *)
Inductive Event : Type :=
| EvAcquire                       (* c.sem <- struct{}{} *)
| EvRelease                       (* <-c.sem, deferred *)
| EvAttempt (attempt : Z)         (* a call of uploadFileOnce *)
| EvDo                            (* c.client.Do(req) *)
| EvProgress (bytesTransferred totalBytes : Z) (pct : Q).
                                  (* progressCallback(...) *)

(** The server's answer: [resp.Status], [resp.StatusCode] and the bytes
    [io.ReadAll] gets from [resp.Body]. *)
Record Response : Type := mkResponse {
  Status : string;
  StatusCode : Z;
  Body : string
}.

Definition StatusOK : Z := 200.

(** One turn of the producer's [for] loop: either [ctx.Done ()] is ready in
    the [select], or the [default] branch runs [file.Read], which returns
    [n] and [err], and, when [n > 0], [part.Write], which returns
    [writeErr]. *)
Inductive ProducerStep : Type :=
| StepCtxDone
| StepRead (n : Z) (err : readError) (writeErr : option error).

(** Everything one call of [uploadFileOnce] gets from outside. *)
Record AttemptEnv : Type := mkAttemptEnv {
  openErr : option error;            (* os.Open(filePath) *)
  statResult : error + Z;            (* file.Stat(), fileInfo.Size() *)
  createFormFileErr : option error;  (* multipartWriter.CreateFormFile *)
  steps : list ProducerStep;         (* the turns of the read loop *)
  newRequestErr : option error;      (* http.NewRequestWithContext *)
  doResult : error + Response        (* c.client.Do(req) *)
}.

(** The read loop of the producer goroutine, from [bytesTransferred] on.
    The first component is the value sent on [done] ([None]: the script
    ends with the loop still running), the second the callback
    invocations. *)
Fixpoint producerLoop (hasCallback : bool) (ctxErr : error) (fileSize : Z)
    (bytesTransferred : Z) (script : list ProducerStep)
    : option (option error) * list Event :=
  match script with
  | [] => (None, [])
  | StepCtxDone :: _ => (Some (Some ctxErr), [])
  | StepRead n err writeErr :: rest =>
      match (if 0 <? n then writeErr else None) with
      | Some we => (Some (Some (Errorf_w "ошибка записи в pipe: " we)), [])
      | None =>
          let bytesTransferred' :=
            if 0 <? n then wrap64 (bytesTransferred + n)
            else bytesTransferred in
          let evs :=
            if (0 <? n) && hasCallback
            then [EvProgress bytesTransferred' fileSize
                    (percentage bytesTransferred' fileSize)]
            else [] in
          match err with
          | ReadEOF => (Some None, evs)
          | ReadFail e =>
              (Some (Some (Errorf_w "ошибка чтения файла: " e)), evs)
          | ReadNil =>
              let '(d, evs') :=
                producerLoop hasCallback ctxErr fileSize
                  bytesTransferred' rest in
              (d, evs ++ evs')
          end
      end
  end.

(** The producer goroutine of [uploadFileOnce]. *)
Definition producer (hasCallback : bool) (ctxErr : error) (fileSize : Z)
    (env : AttemptEnv) : option (option error) * list Event :=
  match createFormFileErr env with
  | Some e => (Some (Some (Errorf_w "ошибка создания поля формы: " e)), [])
  | None => producerLoop hasCallback ctxErr fileSize 0 (steps env)
  end.

(** The error built for a status other than 200. *)
Definition statusError (resp : Response) : error :=
  errorString ("сервер вернул ошибку: " +:+ Status resp
               +:+ ", статус: " +:+ itoa (StatusCode resp)
               +:+ ", тело: " +:+ Body resp).

(** What one attempt leaves behind: the returned error ([None] is [nil]),
    the events, the value the producer sent on [done] if the goroutine was
    started and finished, and the response if one arrived. *)
Record AttemptResult : Type := mkAttemptResult {
  arErr : option error;
  arEvents : list Event;
  arDone : option (option error);
  arResp : option Response
}.

(** [uploadFileOnce].  [None]: the call blocks for ever on [<-done]. *)
Definition uploadFileOnce (hasCallback : bool) (ctxErr : error)
    (env : AttemptEnv) : option AttemptResult :=
  match openErr env with
  | Some e =>
      Some (mkAttemptResult
              (Some (Errorf_w "ошибка открытия файла: " e)) [] None None)
  | None =>
  match statResult env with
  | inl e =>
      Some (mkAttemptResult
              (Some (Errorf_w "ошибка получения информации о файле: " e))
              [] None None)
  | inr fileSize =>
  if fileSize =? 0
  then Some (mkAttemptResult (Some (errorString "файл пустой")) [] None None)
  else
  let '(done, evs) := producer hasCallback ctxErr fileSize env in
  match newRequestErr env with
  | Some e =>
      Some (mkAttemptResult
              (Some (Errorf_w "ошибка создания HTTP запроса: " e))
              evs done None)
  | None =>
  match doResult env with
  | inl e =>
      Some (mkAttemptResult
              (Some (Errorf_w "ошибка выполнения HTTP запроса: " e))
              (EvDo :: evs) done None)
  | inr resp =>
  match done with
  | None => None
  | Some (Some writeErr) =>
      Some (mkAttemptResult (Some writeErr) (EvDo :: evs) done (Some resp))
  | Some None =>
      if negb (StatusCode resp =? StatusOK)
      then Some (mkAttemptResult (Some (statusError resp)) (EvDo :: evs)
                   done (Some resp))
      else Some (mkAttemptResult None (EvDo :: evs) done (Some resp))
  end end end end end.

(** The messages [isPermanentError] looks for. *)
Definition permanentErrors : list string :=
  [ "ошибка открытия файла";
    "файл пустой";
    "ошибка создания поля формы";
    "ошибка чтения файла";
    "ошибка записи в pipe" ].

(** [isPermanentError]. *)
Definition isPermanentError (err : option error) : bool :=
  match err with
  | None => false
  | Some e => existsb (fun permanentErr => Contains (Error e) permanentErr)
                      permanentErrors
  end.

(** Which case of a two-way [select] with [<-ctx.Done ()] proceeds. *)
Inductive SelectCase : Type :=
| CaseProceed      (* the other case: the send on [sem], the timer *)
| CaseCtxDone.

(** One turn of the retry loop: the [select] of the delay (consulted only
    when [attempt > 0]) and the attempt itself. *)
Record AttemptScript : Type := mkAttemptScript {
  delaySelect : SelectCase;
  attemptEnv : AttemptEnv
}.

(** Everything one call of [UploadFile] gets from outside. *)
Record CallEnv : Type := mkCallEnv {
  semSelect : SelectCase;
  attempts : list AttemptScript
}.

(** The error after the loop:
    [fmt.Errorf ("... %d попыток, последняя ошибка: %w", RetryAttempts+1, lastErr)]. *)
Definition finalError (c : ClientConfig) (lastErr : option error) : error :=
  let pfx := "загрузка не удалась после "
             +:+ itoa (wrap64 (RetryAttempts c + 1))
             +:+ " попыток, последняя ошибка: " in
  match lastErr with
  | Some e => wrapError (pfx +:+ Error e) e
  | None => errorString (pfx +:+ "%!w(<nil>)")
  end.

(** The [for attempt := 0; attempt <= RetryAttempts; attempt++] loop of
    [UploadFile].  [None]: the script ends with the loop still running. *)
Fixpoint retryLoop (c : ClientConfig) (hasCallback : bool) (ctxErr : error)
    (attempt : Z) (lastErr : option error) (script : list AttemptScript)
    : option (option error * list Event) :=
  if attempt <=? RetryAttempts c then
    match script with
    | [] => None
    | s :: rest =>
        match (if 0 <? attempt then delaySelect s else CaseProceed) with
        | CaseCtxDone => Some (Some ctxErr, [])
        | CaseProceed =>
            match uploadFileOnce hasCallback ctxErr (attemptEnv s) with
            | None => None
            | Some r =>
                let evs := EvAttempt attempt :: arEvents r in
                match arErr r with
                | None => Some (None, evs)
                | Some err =>
                    if isPermanentError (Some err)
                    then Some (Some (finalError c (Some err)), evs)
                    else
                      match retryLoop c hasCallback ctxErr
                              (wrap64 (attempt + 1)) (Some err) rest with
                      | None => None
                      | Some (res, evs') => Some (res, evs ++ evs')
                      end
                end
            end
        end
    end
  else Some (Some (finalError c lastErr), []).

(** [UploadFile]. *)
Definition UploadFile (c : ClientConfig) (hasCallback : bool)
    (ctxErr : error) (env : CallEnv) : option (option error * list Event) :=
  match semSelect env with
  | CaseCtxDone => Some (Some ctxErr, [])
  | CaseProceed =>
      match retryLoop c hasCallback ctxErr 0 None (attempts env) with
      | None => None
      | Some (res, evs) => Some (res, EvAcquire :: evs ++ [EvRelease])
      end
  end.

Definition isAttempt (ev : Event) : bool :=
  match ev with EvAttempt _ => true | _ => false end.

Definition isProgress (ev : Event) : bool :=
  match ev with EvProgress _ _ _ => true | _ => false end.

(** The number of calls of [uploadFileOnce] in a trace. *)
Definition attemptsMade (evs : list Event) : nat :=
  length (List.filter isAttempt evs).

(** One goroutine of [UploadMultipleFiles]: the call of [UploadFile] and
    the [select] that reports a failure on the [errors] channel.  The
    channel has room for one error per file, so its send is always ready;
    the other case is [<-ctx.Done ()]. *)
Record TaskEnv : Type := mkTaskEnv {
  callEnv : CallEnv;
  reportSelect : SelectCase
}.

Record TaskResult : Type := mkTaskResult {
  trErr : option error;       (* what UploadFile returned *)
  trSent : option error;      (* what went into the errors channel *)
  trEvents : list Event       (* as seen by the caller's callback *)
}.

Definition uploadTask (c : ClientConfig) (hasCallback : bool)
    (ctxErr : error) (file : string) (env : TaskEnv) : option TaskResult :=
  (* fileProgressCallback is never nil; it forwards to progressCallback
     when that one is not nil *)
  match UploadFile c true ctxErr (callEnv env) with
  | None => None
  | Some (res, evs) =>
      let seen :=
        if hasCallback then evs
        else List.filter (fun ev => negb (isProgress ev)) evs in
      let sent :=
        match res with
        | None => None
        | Some err =>
            match reportSelect env with
            | CaseProceed =>
                Some (Errorf_w ("ошибка загрузки файла " +:+ file +:+ ": ")
                               err)
            | CaseCtxDone => None
            end
        end in
      Some (mkTaskResult res sent seen)
  end.

(** All goroutines have returned ([wg.Wait ()]). *)
Fixpoint waitAll (tasks : list (option TaskResult))
    : option (list TaskResult) :=
  match tasks with
  | [] => Some []
  | None :: _ => None
  | Some t :: rest =>
      match waitAll rest with
      | None => None
      | Some ts => Some (t :: ts)
      end
  end.

(** [for err := range errors]: the channel holds what was sent, in the
    order [order] in which the goroutines got to their send. *)
Definition drain (results : list TaskResult) (order : list nat)
    : list string :=
  List.flat_map
    (fun i => match List.nth_error results i with
              | Some t => match trSent t with
                          | Some e => [Error e]
                          | None => []
                          end
              | None => []
              end)
    order.

Fixpoint spawn (c : ClientConfig) (hasCallback : bool) (ctxErr : error)
    (envOf : nat -> TaskEnv) (i : nat) (files : list string)
    : list (option TaskResult) :=
  match files with
  | [] => []
  | filePath :: rest =>
      uploadTask c hasCallback ctxErr filePath (envOf i)
      :: spawn c hasCallback ctxErr envOf (S i) rest
  end.

(** [UploadMultipleFiles]: the returned error and what every goroutine
    did, in the order of [files].  [None]: [wg.Wait ()] never returns. *)
Definition UploadMultipleFiles (c : ClientConfig) (hasCallback : bool)
    (ctxErr : error) (files : list string) (envOf : nat -> TaskEnv)
    (order : list nat) : option (option error * list TaskResult) :=
  if (length files =? 0)%nat
  then Some (Some (errorString "список файлов пуст"), [])
  else
    match waitAll (spawn c hasCallback ctxErr envOf 0 files) with
    | None => None
    | Some results =>
        let allErrors := drain results order in
        if (0 <? length allErrors)%nat
        then Some (Some (errorString ("ошибки при загрузке файлов: "
                                      +:+ Join allErrors "; ")),
                   results)
        else Some (None, results)
    end.

End Client.

(* ===================================================================== *)
(** ** The semaphore of [HTTPClient] *)
(* ===================================================================== *)

(** [sem] is a [chan struct{}] of capacity [MaxConcurrency], made once per
    client by [NewHTTPClientWithConfig].  Every call of [UploadFile] is a
    session: it waits in its first [select]; the send on [sem] proceeds only
    while the channel holds fewer than [cap] values; the deferred receive
    takes one value out when the call returns.  Goroutines interleave
    freely: a run of the client is any sequence of these moves. *)
Module Limiter.

Inductive Phase : Type :=
| Waiting       (* in the select on sem and ctx.Done() *)
| Holding       (* after the send on sem, before the deferred receive *)
| Returned.

Record HTTPClient : Type := mkHTTPClient {
  config : Client.ClientConfig;
  semCap : Z;                 (* cap(c.sem) *)
  semLen : Z;                 (* len(c.sem) *)
  sessions : list Phase       (* the calls of UploadFile so far *)
}.

(** [NewHTTPClientWithConfig] ([None] is a nil config). *)
Definition NewHTTPClientWithConfig (numCPU : Z)
    (config : option Client.ClientConfig) : HTTPClient :=
  let config := match config with
                | None => Client.DefaultConfig numCPU
                | Some c => c
                end in
  mkHTTPClient config (Client.MaxConcurrency config) 0 [].

Inductive Move : Type :=
| Call                 (* a goroutine enters UploadFile *)
| Acquire (i : nat)    (* case c.sem <- struct{}{} *)
| Cancel (i : nat)     (* case <-ctx.Done(): return ctx.Err() *)
| Release (i : nat).   (* the deferred <-c.sem *)

Definition setPhase (i : nat) (p : Phase) (c : HTTPClient) (len : Z)
    : HTTPClient :=
  mkHTTPClient (config c) (semCap c) len (<[i := p]> (sessions c)).

(** One move; [None] when the move cannot be made in this state. *)
Definition step (c : HTTPClient) (m : Move) : option HTTPClient :=
  match m with
  | Call =>
      Some (mkHTTPClient (config c) (semCap c) (semLen c)
              (sessions c ++ [Waiting]))
  | Acquire i =>
      match sessions c !! i with
      | Some Waiting =>
          if semLen c <? semCap c
          then Some (setPhase i Holding c (semLen c + 1))
          else None
      | _ => None
      end
  | Cancel i =>
      match sessions c !! i with
      | Some Waiting => Some (setPhase i Returned c (semLen c))
      | _ => None
      end
  | Release i =>
      match sessions c !! i with
      | Some Holding =>
          if 0 <? semLen c
          then Some (setPhase i Returned c (semLen c - 1))
          else None
      | _ => None
      end
  end.

Fixpoint run (c : HTTPClient) (ms : list Move) : option HTTPClient :=
  match ms with
  | [] => Some c
  | m :: rest =>
      match step c m with
      | None => None
      | Some c' => run c' rest
      end
  end.

Definition isHolding (p : Phase) : bool :=
  match p with Holding => true | _ => false end.

(** The number of sessions that hold a slot. *)
Definition holders (c : HTTPClient) : Z :=
  Z.of_nat (length (List.filter isHolding (sessions c))).

(** A batch of [n] files: [n] goroutines enter [UploadFile]. *)
Definition batch (n : nat) : list Move := List.repeat Call n.

(** The channel holds one value per session that holds a slot, and never
    more than its capacity. *)
Definition balanced (cl : HTTPClient) : Prop :=
  semLen cl = holders cl /\ semLen cl <= semCap cl.

End Limiter.

(* ===================================================================== *)
(** ** server/server.go *)
(* ===================================================================== *)

Module Server.

(** The part of [http.Request] the handler looks at. *)
Record Request : Type := mkRequest {
  Method : string;
  ContentLength : Z
}.

(** [multipart.FileHeader]. *)
Record FileHeader : Type := mkFileHeader {
  Filename : string;
  Size : Z
}.

(** What [http.ResponseWriter] has been told. *)
Record ResponseRecorder : Type := mkRecorder {
  Code : Z;
  Body : string
}.

Definition StatusOK : Z := 200.
Definition StatusBadRequest : Z := 400.
Definition StatusMethodNotAllowed : Z := 405.
Definition StatusInternalServerError : Z := 500.

Definition newline : string := String (ascii_of_nat 10) EmptyString.

(** [http.Error w msg code]: the status line and [msg] followed by a
    newline. *)
Definition httpError (msg : string) (code : Z) : ResponseRecorder :=
  mkRecorder code (msg +:+ newline).

(** The files on disk: path to content. *)
Abbreviation FS := (gmap string (list Byte.byte)).

(** [dst.Write]: everything written, or an error after the first
    [written] bytes. *)
Inductive WriteResult : Type :=
| WriteOk
| WriteFail (written : nat) (err : error).

(** One turn of the copy loop: [file.Read] fills [chunk] (so [n] is its
    length) and returns [err]; [dst.Write], run when [n > 0], returns
    [writeRes]. *)
Record CopyStep : Type := mkCopyStep {
  chunk : list Byte.byte;
  readErr : readError;
  writeRes : WriteResult
}.

(** Everything one call of [handleUpload] gets from outside. *)
Record HandlerEnv : Type := mkHandlerEnv {
  parseErr : option error;           (* r.ParseMultipartForm(32 << 20) *)
  formFile : error + FileHeader;     (* r.FormFile("file") *)
  mkdirErr : option error;           (* os.MkdirAll(uploadDir, 0755) *)
  createErr : option error;          (* os.Create(filePath) *)
  copySteps : list CopyStep
}.

Definition uploadDir : string := "uploads".

(** [os.Create]: the file exists and is empty afterwards. *)
Definition create (path : string) (fs : FS) : FS := <[path := []]> fs.

(** Bytes appended through the open destination file. *)
Definition append (path : string) (data : list Byte.byte) (fs : FS) : FS :=
  <[path := default [] (fs !! path) ++ data]> fs.

(** The copy loop.  The result is the diagnostic of the failing branch
    ([None]: the loop left through [break]), the disk and
    [bytesReceived].  [None]: the script ends with the loop running. *)
Fixpoint copyLoop (path : string) (bytesReceived : Z)
    (script : list CopyStep) (fs : FS) : option (option string * FS * Z) :=
  match script with
  | [] => None
  | st :: rest =>
      let n := Z.of_nat (length (chunk st)) in
      match (if 0 <? n then writeRes st else WriteOk) with
      | WriteFail written writeErr =>
          Some (Some ("Ошибка записи файла: " +:+ Error writeErr),
                append path (take written (chunk st)) fs,
                bytesReceived)
      | WriteOk =>
          let fs' := if 0 <? n then append path (chunk st) fs else fs in
          let bytesReceived' :=
            if 0 <? n then wrap64 (bytesReceived + n) else bytesReceived in
          match readErr st with
          | ReadEOF => Some (None, fs', bytesReceived')
          | ReadFail err =>
              Some (Some ("Ошибка чтения файла: " +:+ Error err),
                    fs', bytesReceived')
          | ReadNil => copyLoop path bytesReceived' rest fs'
          end
      end
  end.

Section Handler.

(** [filepath.Join]. *)
Variable Join : string -> string -> string.

(** [handleUpload]: the response and the disk afterwards.  The progress
    lines printed on the server's console are left out. *)
Definition handleUpload (r : Request) (env : HandlerEnv) (fs : FS)
    : option (ResponseRecorder * FS) :=
  if negb (String.eqb (Method r) "POST")
  then Some (httpError "Метод не поддерживается" StatusMethodNotAllowed,
             fs)
  else
  match parseErr env with
  | Some err =>
      Some (httpError ("Ошибка парсинга формы: " +:+ Error err)
                      StatusBadRequest, fs)
  | None =>
  match formFile env with
  | inl err =>
      Some (httpError ("Ошибка получения файла: " +:+ Error err)
                      StatusBadRequest, fs)
  | inr header =>
  match mkdirErr env with
  | Some err =>
      Some (httpError ("Ошибка создания директории: " +:+ Error err)
                      StatusInternalServerError, fs)
  | None =>
  let filePath := Join uploadDir (Filename header) in
  match createErr env with
  | Some err =>
      Some (httpError ("Ошибка создания файла: " +:+ Error err)
                      StatusInternalServerError, fs)
  | None =>
  match copyLoop filePath 0 (copySteps env) (create filePath fs) with
  | None => None
  | Some (Some msg, fs', _) =>
      Some (httpError msg StatusInternalServerError, fs')
  | Some (None, fs', _) =>
      Some (mkRecorder StatusOK
              ("Файл " +:+ Filename header +:+ " успешно загружен"),
            fs')
  end end end end end.

End Handler.

(** The bytes the copy loop has put into the destination when it stops:
    every chunk written in full and the written part of a failing one. *)
Fixpoint persisted (script : list CopyStep) : list Byte.byte :=
  match script with
  | [] => []
  | st :: rest =>
      match chunk st, writeRes st with
      | [], _ => match readErr st with
                 | ReadNil => persisted rest
                 | _ => []
                 end
      | _ :: _, WriteFail written _ => take written (chunk st)
      | _ :: _, WriteOk =>
          chunk st ++ match readErr st with
                      | ReadNil => persisted rest
                      | _ => []
                      end
      end
  end.

End Server.

(* ===================================================================== *)
(** ** Vocabulary of the specification *)
(* ===================================================================== *)

Module Spec.

Import Client.

(** The path resolves to a file that opens and has size zero. *)
Definition zeroByteFile (env : AttemptEnv) : bool :=
  match openErr env, statResult env with
  | None, inr 0 => true
  | _, _ => false
  end.

(** The delay before the attempt (if any) runs to its end and the attempt
    returns an error that [isPermanentError] does not hold permanent. *)
Definition transientFailure (hasCallback : bool) (ctxErr : error)
    (s : AttemptScript) : bool :=
  match delaySelect s, uploadFileOnce hasCallback ctxErr (attemptEnv s) with
  | CaseProceed, Some r =>
      match arErr r with
      | Some e => negb (isPermanentError (Some e))
      | None => false
      end
  | _, _ => false
  end.


(** What the producer task of an attempt ends with: [Some None] when it
    completes without error, [Some (Some e)] when it fails with [e], [None]
    when it is never started or never finishes. *)
Definition producerOutcome (hasCallback : bool) (ctxErr : error)
    (env : AttemptEnv) : option (option error) :=
  match openErr env with
  | Some _ => None
  | None =>
      match statResult env with
      | inl _ => None
      | inr fileSize =>
          if fileSize =? 0 then None
          else fst (producer hasCallback ctxErr fileSize env)
      end
  end.

(** The HTTP response of an attempt, when the request is sent and
    answered. *)
Definition responseReceived (env : AttemptEnv) : option Response :=
  match openErr env with
  | Some _ => None
  | None =>
      match statResult env with
      | inl _ => None
      | inr fileSize =>
          if fileSize =? 0 then None
          else match newRequestErr env with
               | Some _ => None
               | None => match doResult env with
                         | inl _ => None
                         | inr resp => Some resp
                         end
               end
      end
  end.

(** The sizes of the chunks the read loop writes before it stops. *)
Fixpoint chunksWritten (script : list ProducerStep) : list Z :=
  match script with
  | StepRead n err writeErr :: rest =>
      let further := match err with
                     | ReadNil => chunksWritten rest
                     | _ => []
                     end in
      if 0 <? n
      then match writeErr with
           | Some _ => []
           | None => n :: further
           end
      else further
  | _ => []
  end.

(** Running totals: [cumulative acc [a; b; c] = [acc+a; acc+a+b; ...]]. *)
Fixpoint cumulative (acc : Z) (ns : list Z) : list Z :=
  match ns with
  | [] => []
  | n :: rest => (acc + n) :: cumulative (acc + n) rest
  end.

Definition sumZ (ns : list Z) : Z := List.fold_right Z.add 0 ns.

(** The callback invocations of a trace, as (bytesTransferred, totalBytes,
    percentage). *)
Definition reports (evs : list Event) : list (Z * Z * Q) :=
  List.flat_map
    (fun ev => match ev with
               | EvProgress b t p => [(b, t, p)]
               | _ => []
               end)
    evs.

(** The message under which a failing file appears in the composite error
    of a batch. *)
Definition failureEntry (file : string) (cause : error) : string :=
  ("ошибка загрузки файла " +:+ file +:+ ": ") +:+ Error cause.

(** What a goroutine puts on the [errors] channel. *)
Definition sentEntry (t : TaskResult) : list string :=
  match trSent t with
  | Some e => [Error e]
  | None => []
  end.

(** The entries of all failing files of a batch, in the order of the
    files. *)
Fixpoint failureEntries (files : list string) (results : list TaskResult)
    : list string :=
  match files, results with
  | file :: files', t :: results' =>
      match trErr t with
      | Some cause => failureEntry file cause :: failureEntries files' results'
      | None => failureEntries files' results'
      end
  | _, _ => []
  end.

(** How the copy loop of the handler ends: [Some true] on a read or write
    failure, [Some false] at the end of the stream, [None] when the script
    ends with the loop running. *)
Fixpoint copyEnds (script : list Server.CopyStep) : option bool :=
  match script with
  | [] => None
  | st :: rest =>
      match Server.chunk st, Server.writeRes st with
      | _ :: _, Server.WriteFail _ _ => Some true
      | _, _ =>
          match Server.readErr st with
          | ReadEOF => Some false
          | ReadFail _ => Some true
          | ReadNil => copyEnds rest
          end
      end
  end.

(** The specification's sentence on empty files, as it is written: the call
    fails with the empty-file classification, no slot is taken and no
    network call is made. *)
Definition rejects_empty_file_before_slot : Prop :=
  forall (c : ClientConfig) (hasCallback : bool) (ctxErr : error)
         (env : CallEnv) (res : option error) (evs : list Event),
    0 <= RetryAttempts c ->
    forallb (fun s => zeroByteFile (attemptEnv s)) (attempts env) = true ->
    UploadFile c hasCallback ctxErr env = Some (res, evs) ->
    isPermanentError res = true /\ ~ In EvAcquire evs /\ ~ In EvDo evs.

(** The specification's sentence on batches, as it is written: every
    per-file failure is listed, with path and cause, in the composite
    error. *)
Definition batch_lists_every_failure : Prop :=
  forall (c : ClientConfig) (hasCallback : bool) (ctxErr : error)
         (files : list string) (envOf : nat -> TaskEnv) (order : list nat)
         (res : option error) (results : list TaskResult),
    files <> [] ->
    Permutation order (seq 0 (length files)) ->
    UploadMultipleFiles c hasCallback ctxErr files envOf order
      = Some (res, results) ->
    forall (i : nat) (file : string) (t : TaskResult) (cause : error),
      files !! i = Some file ->
      results !! i = Some t ->
      trErr t = Some cause ->
      exists composite,
        res = Some composite
        /\ Contains (Error composite) (failureEntry file cause) = true.

End Spec.

(* ===================================================================== *)
(** ** Concrete runs *)
(* ===================================================================== *)

(** Scripts of particular runs, used to evaluate the functions above. *)
Module Scenario.

Import Client.

Definition canceled : error := errorString "context canceled".

(** A file of five bytes read in chunks of three and two. *)
Definition fiveBytes : list ProducerStep :=
  [ StepRead 3 ReadNil None; StepRead 2 ReadNil None; StepRead 0 ReadEOF None ].

Definition answer (status : string) (code : Z) (body : string)
    : error + Response :=
  inr (mkResponse status code body).

(** The upload goes through and the server answers 200. *)
Definition uploaded : AttemptEnv :=
  mkAttemptEnv None (inr 5) None fiveBytes None (answer "200 OK" 200 "OK").

(** The server reads the body and answers 500. *)
Definition serverFails : AttemptEnv :=
  mkAttemptEnv None (inr 5) None fiveBytes None
    (answer "500 Internal Server Error" 500 "Failed to read body").

(** The server answers 500 and its diagnostic happens to contain one of the
    client's own messages. *)
Definition serverFailsWithMarker : AttemptEnv :=
  mkAttemptEnv None (inr 5) None fiveBytes None
    (answer "500 Internal Server Error" 500 "файл пустой").

(** The path resolves to an empty file. *)
Definition emptyFile : AttemptEnv :=
  mkAttemptEnv None (inr 0) None [] None (inl (errorString "unused")).

(** The path does not exist. *)
Definition missingFile : AttemptEnv :=
  mkAttemptEnv
    (Some (errorString
             "open /nonexistent/file.txt: no such file or directory"))
    (inr 0) None [] None (inl (errorString "unused")).

(** The second read fails, yet the server has answered 200. *)
Definition readFailsServerAccepts : AttemptEnv :=
  mkAttemptEnv None (inr 5) None
    [ StepRead 3 ReadNil None;
      StepRead 0 (ReadFail (errorString "input/output error")) None ]
    None (answer "200 OK" 200 "OK").

(** The caller cancels while the body is being sent: the producer sees the
    signal after its first chunk and the round trip fails. *)
Definition canceledInFlight : AttemptEnv :=
  mkAttemptEnv None (inr 5) None
    [ StepRead 3 ReadNil None; StepCtxDone ] None
    (inl (errorString
            "Post http://localhost:8080/upload: context canceled")).

Definition attempt (env : AttemptEnv) : AttemptScript :=
  mkAttemptScript CaseProceed env.

(** A call that gets its slot and whose attempts all run in [env]. *)
Definition always (env : AttemptEnv) (n : nat) : CallEnv :=
  mkCallEnv CaseProceed (List.repeat (attempt env) n).

Definition withRetries (r : Z) : ClientConfig :=
  mkConfig (64 * 1024) 1 (30 * Minute) r Second.

(** A batch of two files, the second of which does not exist; [report] is
    the case every goroutine's reporting [select] takes. *)
Definition batchFiles : list string := [ "data.bin"; "missing.bin" ].

Definition batchEnv (report : SelectCase) (i : nat) : TaskEnv :=
  mkTaskEnv
    match i with
    | O => always uploaded 1
    | _ => always missingFile 1
    end
    report.

(** The receiving side. *)
Definition join (dir name : string) : string := dir +:+ "/" +:+ name.

Definition post : Server.Request := Server.mkRequest "POST" 1024.
Definition get : Server.Request := Server.mkRequest "GET" 0.

Definition dataHeader : Server.FileHeader := Server.mkFileHeader "data.bin" 5.

Definition firstChunk : list Byte.byte := [ Byte.x01; Byte.x02; Byte.x03 ].
Definition secondChunk : list Byte.byte := [ Byte.x04; Byte.x05 ].

(** The whole file arrives and is stored. *)
Definition stored : Server.HandlerEnv :=
  Server.mkHandlerEnv None (inr dataHeader) None None
    [ Server.mkCopyStep firstChunk ReadNil Server.WriteOk;
      Server.mkCopyStep secondChunk ReadNil Server.WriteOk;
      Server.mkCopyStep [] ReadEOF Server.WriteOk ].

(** The disk fills up one byte into the second chunk. *)
Definition diskFull : Server.HandlerEnv :=
  Server.mkHandlerEnv None (inr dataHeader) None None
    [ Server.mkCopyStep firstChunk ReadNil Server.WriteOk;
      Server.mkCopyStep secondChunk ReadNil
        (Server.WriteFail 1 (errorString "no space left on device")) ].

(** The body is not a multipart form. *)
Definition brokenForm : Server.HandlerEnv :=
  Server.mkHandlerEnv (Some (errorString "unexpected EOF"))
    (inl (errorString "unused")) None None [].

(** The form has no field named file. *)
Definition noFileField : Server.HandlerEnv :=
  Server.mkHandlerEnv None (inl (errorString "http: no such file"))
    None None [].

End Scenario.

(* ===================================================================== *)
(** ** formatBytes (client/client.go, server/server.go, the examples) *)
(* ===================================================================== *)

(** The four copies of [formatBytes] in the repository ([formatBytesBin] in
    the generator of test files) are the same function. *)
Module Format.

Definition unit : Z := 1024.

(** [for n := bytes / unit; n >= unit; n /= unit { div *= unit; exp++ }],
    entered with [n], [div] and [exp]; the result is [div] and [exp] when
    the loop is left.  [None]: out of fuel. *)
Fixpoint unitLoop (fuel : nat) (n div exp : Z) : option (Z * Z) :=
  if n >=? unit then
    match fuel with
    | O => None
    | S fuel' =>
        unitLoop fuel' (Z.quot n unit) (wrap64 (div * unit)) (wrap64 (exp + 1))
    end
  else Some (div, exp).

(** ["KMGTPE"[exp]]; [None] is the run-time panic of an index out of
    range. *)
Definition unitLetter (exp : Z) : option ascii :=
  if (0 <=? exp) && (exp <? 6)
  then String.get (Z.to_nat exp) "KMGTPE"
  else None.

(** [float64(z)] for [0 <= z < 2^63]: the nearest number with a 53-bit
    mantissa, ties to even; it is an integer again. *)
Definition toFloat64 (z : Z) : Z :=
  if z <? 2 ^ 53 then z
  else
    let e := Z.log2 z - 52 in
    let q := Z.shiftr z e in
    let r := z - Z.shiftl q e in
    let half := 2 ^ (e - 1) in
    let q' := if (half <? r) || ((r =? half) && Z.odd q) then q + 1 else q in
    Z.shiftl q' e.

(** [float64(bytes) / float64(div)] in tenths, as [%.1f] rounds it, for
    [div] a power of two: the quotient is exact, and [%.1f] rounds the exact
    value to one decimal, ties to even. *)
Definition tenths (bytes div : Z) : Z :=
  let m := toFloat64 bytes in
  let q := (10 * m) / div in
  let r := (10 * m) mod div in
  if (div <? 2 * r) || ((2 * r =? div) && Z.odd q) then q + 1 else q.

(** [fmt.Sprintf ("%.1f", float64(bytes) / float64(div))]. *)
Definition fixed1 (bytes div : Z) : string :=
  itoa (tenths bytes div / 10) +:+ "." +:+ itoa (tenths bytes div mod 10).

Section WithFixed.

(** The rendering of [float64(bytes) / float64(div)] under [%.1f]. *)
Variable render : Z -> Z -> string.

(** [formatBytes]; [None]: the function does not return a string (the index
    panics, or the loop is out of fuel). *)
Definition formatBytesWith (bytes : Z) : option string :=
  if bytes <? unit then Some (itoa bytes +:+ " B")
  else
    match unitLoop 64 (Z.quot bytes unit) unit 0 with
    | None => None
    | Some (div, exp) =>
        match unitLetter exp with
        | None => None
        | Some letter =>
            Some (render bytes div +:+ " " +:+ String letter "B")
        end
    end.

End WithFixed.

Definition formatBytes : Z -> option string := formatBytesWith fixed1.

(** The table of [TestFormatBytes]. *)
Definition testTable : list (Z * string) :=
  [ (0, "0 B"); (1023, "1023 B"); (1024, "1.0 KB");
    (1024 * 1024, "1.0 MB"); (1024 * 1024 * 1024, "1.0 GB");
    (1024 * 1024 * 1024 * 1024, "1.0 TB");
    (1500, "1.5 KB"); (1536, "1.5 KB") ].

End Format.

(* ===================================================================== *)
(** ** The generator of test files *)
(* ===================================================================== *)

Module TestFiles.

Abbreviation FS := (gmap string (list Byte.byte)).

(** What [generateBinaryFile] gets from outside: the result of [os.Create],
    the stream of [crypto/rand], and for the [i]-th turn of the loop the
    error of [rand.Read] and the result of [file.Write]. *)
Record GenEnv : Type := mkGenEnv {
  createErr : option error;
  randByte : nat -> Byte.byte;
  randErr : nat -> option error;
  writeRes : nat -> Server.WriteResult
}.

Definition bufferLen : Z := 64 * 1024.

(** The bytes [rand.Read] puts into [buffer[:blockSize]] when the stream
    stands at [pos]. *)
Definition randomBlock (env : GenEnv) (pos : nat) (blockSize : Z)
    : list Byte.byte :=
  List.map (randByte env) (seq pos (Z.to_nat blockSize)).

(** [for remaining > 0 { ... }] in its [i]-th turn, [pos] random bytes
    consumed so far.  [None]: out of fuel. *)
Fixpoint fillLoop (fuel : nat) (env : GenEnv) (filePath : string)
    (i pos : nat) (remaining : Z) (fs : FS) : option (option error * FS) :=
  if 0 <? remaining then
    match fuel with
    | O => None
    | S fuel' =>
        let blockSize :=
          if remaining <? bufferLen then remaining else bufferLen in
        match randErr env i with
        | Some err => Some (Some err, fs)
        | None =>
            let block := randomBlock env pos blockSize in
            match writeRes env i with
            | Server.WriteFail written err =>
                Some (Some err,
                      Server.append filePath (take written block) fs)
            | Server.WriteOk =>
                fillLoop fuel' env filePath (S i)
                  (pos + Z.to_nat blockSize) (wrap64 (remaining - blockSize))
                  (Server.append filePath block fs)
            end
        end
    end
  else Some (None, fs).

(** [generateBinaryFile]: the returned error and the disk afterwards. *)
Definition generateBinaryFile (env : GenEnv) (filePath : string) (size : Z)
    (fs : FS) : option (option error * FS) :=
  match createErr env with
  | Some err => Some (Some err, fs)
  | None =>
      fillLoop (S (Z.to_nat (size / bufferLen))) env filePath 0 0 size
        (Server.create filePath fs)
  end.

End TestFiles.

(* ===================================================================== *)
(** ** UploadDirectory and UploadFileWithProgress (client/client.go) *)
(* ===================================================================== *)

Module Directory.

Import Client.

(** [os.DirEntry], as far as it is looked at. *)
Record DirEntry : Type := mkDirEntry {
  Name : string;
  IsDir : bool
}.

Section WithJoin.

(** [filepath.Join]. *)
Variable Join : string -> string -> string.

(** The loop over the entries: the paths of those that are not
    directories, in the order of [os.ReadDir]. *)
Fixpoint regularFiles (dirPath : string) (entries : list DirEntry)
    : list string :=
  match entries with
  | [] => []
  | entry :: rest =>
      if negb (IsDir entry)
      then Join dirPath (Name entry) :: regularFiles dirPath rest
      else regularFiles dirPath rest
  end.

(** [UploadDirectory]; [readDir] is the result of [os.ReadDir dirPath]. *)
Definition UploadDirectory (c : ClientConfig) (hasCallback : bool)
    (ctxErr : error) (dirPath : string)
    (readDir : error + list DirEntry) (envOf : nat -> TaskEnv)
    (order : list nat) : option (option error * list TaskResult) :=
  match readDir with
  | inl err => Some (Some (Errorf_w "ошибка чтения директории: " err), [])
  | inr entries =>
      UploadMultipleFiles c hasCallback ctxErr
        (regularFiles dirPath entries) envOf order
  end.

End WithJoin.

End Directory.

Module Console.

Import Client.

Definition maxDuration : Z := 2 ^ 63 - 1.
Definition minDuration : Z := - 2 ^ 63.

(** [t.Sub u] on instants counted in nanoseconds: the difference, held
    within the range of [time.Duration]. *)
Definition Sub (t u : Z) : Z := Z.max minDuration (Z.min maxDuration (t - u)).

(** [now.Sub lastUpdate], where [None] is the zero [time.Time] a variable
    holds before it is assigned: the distance to it is out of range. *)
Definition elapsed (now : Z) (lastUpdate : option Z) : Z :=
  match lastUpdate with
  | None => maxDuration
  | Some t => Sub now t
  end.

(** The two readings of the clock in one invocation of the callback:
    inside [time.Since] and for the assignment to [lastUpdate]. *)
Record Tick : Type := mkTick {
  sinceNow : Z;
  storeNow : Z
}.

(** One call of [fmt.Printf] by the callback: its arguments, and the
    instant stored in [lastUpdate]. *)
Record Printed : Type := mkPrinted {
  printedAt : Z;
  printedPct : Q;
  printedBytes : Z;
  printedTotal : Z
}.

(** The callback of [UploadFileWithProgress] over its invocations, the
    [i]-th of which reads the clock as [clock i]. *)
Fixpoint progressCallback (clock : nat -> Tick) (i : nat)
    (lastUpdate : option Z) (calls : list (Z * Z * Q)) : list Printed :=
  match calls with
  | [] => []
  | (bytesTransferred, totalBytes, pct) :: rest =>
      if Second <=? elapsed (sinceNow (clock i)) lastUpdate
      then mkPrinted (storeNow (clock i)) pct bytesTransferred totalBytes
           :: progressCallback clock (S i) (Some (storeNow (clock i))) rest
      else progressCallback clock (S i) lastUpdate rest
  end.

Definition newline : string := String (ascii_of_nat 10) EmptyString.

(** [UploadFileWithProgress]: the returned error, the progress lines
    printed and the closing line. *)
Definition UploadFileWithProgress (c : ClientConfig) (ctxErr : error)
    (env : CallEnv) (clock : nat -> Tick)
    : option (option error * list Printed * string) :=
  match UploadFile c true ctxErr env with
  | None => None
  | Some (res, evs) =>
      Some (res,
            progressCallback clock 0 None (Spec.reports evs),
            match res with
            | Some err => newline +:+ "Ошибка: " +:+ Error err +:+ newline
            | None => newline +:+ "Загрузка завершена успешно!" +:+ newline
            end)
  end.

(** Consecutive elements of a list of instants are at least [gap] apart. *)
Fixpoint spaced (gap : Z) (ts : list Z) : Prop :=
  match ts with
  | t :: ((u :: _) as rest) => gap <= u - t /\ spaced gap rest
  | _ => True
  end.

End Console.

(* ===================================================================== *)
(** ** Progress on the receiving side (server/server.go) *)
(* ===================================================================== *)

Module Receive.

Import Server.

(** The total the handler reports against: [r.ContentLength] when it is
    positive, else [header.Size] when that is. *)
Definition expectedSize (r : Request) (header : FileHeader) : Z :=
  let contentLength := ContentLength r in
  if contentLength <=? 0
  then (if 0 <? Size header then Size header else contentLength)
  else contentLength.

(** The invocations of [progressCallback] by the copy loop, as
    (bytesReceived, totalBytes, percentage). *)
Fixpoint copyReports (contentLength bytesReceived : Z)
    (script : list CopyStep) : list (Z * Z * Q) :=
  match script with
  | [] => []
  | st :: rest =>
      let n := Z.of_nat (length (chunk st)) in
      match (if 0 <? n then writeRes st else WriteOk) with
      | WriteFail _ _ => []
      | WriteOk =>
          let bytesReceived' :=
            if 0 <? n then wrap64 (bytesReceived + n) else bytesReceived in
          let calls :=
            if (0 <? n) && (0 <? contentLength)
            then [(bytesReceived', contentLength,
                   Client.percentage bytesReceived' contentLength)]
            else [] in
          match readErr st with
          | ReadNil => calls ++ copyReports contentLength bytesReceived' rest
          | _ => calls
          end
      end
  end.

(** The variables the callback closes over. *)
Record Meter : Type := mkMeter {
  lastUpdate : option Z;
  lastBytesReceived : Z;
  lastUpdateTime : option Z
}.

Definition newMeter : Meter := mkMeter None 0 None.

(** One progress line: the instant, the arguments and the two differences
    the speed is computed from; [etaShown] tells whether a remaining time
    is printed rather than the placeholder. *)
Record Line : Type := mkLine {
  lineAt : Z;
  lineBytes : Z;
  lineTotal : Z;
  bytesDiff : Z;
  timeDiff : Z;
  etaShown : bool
}.

(** The callback of [handleUpload] over its invocations, the [i]-th of
    which reads the clock as [clock i].  [timeDiff.Seconds () > 0] is
    [timeDiff > 0], and the quotient [speed] is positive exactly when
    [bytesDiff] is. *)
Fixpoint progressCallback (clock : nat -> Z) (i : nat) (m : Meter)
    (calls : list (Z * Z * Q)) : list Line :=
  match calls with
  | [] => []
  | (bytesReceived, totalBytes, pct) :: rest =>
      let now := clock i in
      if Client.Second <=? Console.elapsed now (lastUpdate m) then
        let timeDiff := Console.elapsed now (lastUpdateTime m) in
        if 0 <? timeDiff then
          let bytesDiff := wrap64 (bytesReceived - lastBytesReceived m) in
          let eta := (0 <? bytesDiff) && (bytesReceived <? totalBytes) in
          mkLine now bytesReceived totalBytes bytesDiff timeDiff eta
          :: progressCallback clock (S i)
               (mkMeter (Some now) bytesReceived (Some now)) rest
        else progressCallback clock (S i) m rest
      else progressCallback clock (S i) m rest
  end.

(** What [handleUpload] prints while it copies. *)
Definition printed (r : Request) (header : FileHeader)
    (script : list CopyStep) (clock : nat -> Z) : list Line :=
  progressCallback clock 0 newMeter
    (copyReports (expectedSize r header) 0 script).

End Receive.

(* ===================================================================== *)
(** ** More vocabulary *)
(* ===================================================================== *)

Module Words.

Import Client.

(** The event is a move on the semaphore. *)
Definition isSlotEvent (ev : Event) : bool :=
  match ev with
  | EvAcquire | EvRelease => true
  | _ => false
  end.

(** The specification's sentence on progress, as it is written: whenever
    the upload of a file of size [S > 0] succeeds, the reports are the
    running totals of the chunks written, each against [S], and the last
    one carries [S] bytes at 100 percent. *)
Definition progress_ends_at_file_size : Prop :=
  forall (ctxErr : error) (env : AttemptEnv) (r : AttemptResult) (S : Z),
    statResult env = inr S ->
    0 < S ->
    uploadFileOnce true ctxErr env = Some r ->
    arErr r = None ->
    Spec.reports (arEvents r)
    = List.map (fun b => (b, S, percentage b S))
               (Spec.cumulative 0 (Spec.chunksWritten (steps env)))
    /\ last (Spec.reports (arEvents r)) = Some (S, S, inject_Z 100).

End Words.

(* ===================================================================== *)
(** ** More concrete runs *)
(* ===================================================================== *)

Module Cases.

(** The clock of a caller whose callback is invoked every 0.4 s (for the
    first thousand invocations; it stands still afterwards). *)
Definition everyFourTenths (i : nat) : Console.Tick :=
  Console.mkTick (Z.min (Z.of_nat i) 1000 * 400000000)
                 (Z.min (Z.of_nat i) 1000 * 400000000).

(** The clock of a handler whose callback is invoked every 0.6 s. *)
Definition serverClock (i : nat) : Z := Z.min (Z.of_nat i) 1000 * 600000000.

(** A generator whose random stream counts up and that meets no error. *)
Definition counting : TestFiles.GenEnv :=
  TestFiles.mkGenEnv None
    (fun i => match Byte.of_nat (i mod 256) with
              | Some b => b
              | None => Byte.x00
              end)
    (fun _ => None) (fun _ => Server.WriteOk).

(** A file that holds five bytes when [file.Stat] is called and to which
    three more are appended while it is read: the reads deliver three and
    five bytes, and the server answers 200. *)
Definition appended : Client.AttemptEnv :=
  Client.mkAttemptEnv None (inr 5) None
    [ Client.StepRead 3 ReadNil None; Client.StepRead 5 ReadNil None;
      Client.StepRead 0 ReadEOF None ]
    None (Scenario.answer "200 OK" 200 "OK").

(** A batch that is cancelled before any file gets a slot: every call of
    [UploadFile] leaves through [<-ctx.Done ()], and so does every
    goroutine's report. *)
Definition cancelledTask (i : nat) : Client.TaskEnv :=
  Client.mkTaskEnv (Client.mkCallEnv Client.CaseCtxDone [])
                   Client.CaseCtxDone.

(** A batch cancelled while its second file is being opened: the first file
    never gets a slot and its report is lost to the cancellation, the second
    file does not exist and its report goes through. *)
Definition cancelledFirst (i : nat) : Client.TaskEnv :=
  match i with
  | O => cancelledTask i
  | _ => Client.mkTaskEnv (Scenario.always Scenario.missingFile 1)
                          Client.CaseProceed
  end.

(** A file of eight bytes read in chunks of two; the server answers 200. *)
Definition eightBytes : Client.AttemptEnv :=
  Client.mkAttemptEnv None (inr 8) None
    [ Client.StepRead 2 ReadNil None; Client.StepRead 2 ReadNil None;
      Client.StepRead 2 ReadNil None; Client.StepRead 2 ReadNil None;
      Client.StepRead 0 ReadEOF None ]
    None (Scenario.answer "200 OK" 200 "OK").

(** The same file as the handler receives it. *)
Definition eightHeader : Server.FileHeader :=
  Server.mkFileHeader "data.bin" 8.

Definition fourChunks : Server.HandlerEnv :=
  Server.mkHandlerEnv None (inr eightHeader) None None
    [ Server.mkCopyStep [Byte.x01; Byte.x02] ReadNil Server.WriteOk;
      Server.mkCopyStep [Byte.x03; Byte.x04] ReadNil Server.WriteOk;
      Server.mkCopyStep [Byte.x05; Byte.x06] ReadNil Server.WriteOk;
      Server.mkCopyStep [Byte.x07; Byte.x08] ReadNil Server.WriteOk;
      Server.mkCopyStep [] ReadEOF Server.WriteOk ].

(** A directory with one file and one subdirectory. *)
Definition listing : list Directory.DirEntry :=
  [ Directory.mkDirEntry "data.bin" false;
    Directory.mkDirEntry "nested" true ].

End Cases.

(* ===================================================================== *)
(** * Properties *)
(* ===================================================================== *)

(** ** Strings and integers of the runtime *)

Section GoFacts.

Import Go.

Lemma prefix_nil (s : string) : String.prefix "" s = true.
Proof. destruct s; reflexivity. Qed.

Lemma prefix_app (p s : string) : String.prefix p (p +:+ s) = true.
Proof.
  induction p as [|a p IH]; simpl.
  - apply prefix_nil.
  - destruct (ascii_dec a a); [exact IH | congruence].
Qed.

Lemma prefix_app_r (p s t : string) :
  String.prefix p s = true -> String.prefix p (s +:+ t) = true.
Proof.
  revert s; induction p as [|a p IH]; intros s H.
  - apply prefix_nil.
  - destruct s as [|b s]; simpl in *; [discriminate|].
    destruct (ascii_dec a b); [auto | discriminate].
Qed.

Lemma Contains_unfold (s sub : string) :
  Contains s sub
  = String.prefix sub s
    || match s with
       | EmptyString => false
       | String _ s' => Contains s' sub
       end.
Proof. destruct s; reflexivity. Qed.

Lemma Contains_prefix (s sub : string) :
  String.prefix sub s = true -> Contains s sub = true.
Proof. intros H; rewrite Contains_unfold, H; reflexivity. Qed.

Lemma Contains_app_l (a s sub : string) :
  Contains s sub = true -> Contains (a +:+ s) sub = true.
Proof.
  intros H; induction a as [|x a IH]; simpl; [exact H|].
  rewrite IH; apply orb_true_r.
Qed.

Lemma Contains_app_r (s b sub : string) :
  Contains s sub = true -> Contains (s +:+ b) sub = true.
Proof.
  induction s as [|x s IH]; intros H.
  - rewrite Contains_unfold, orb_false_r in H.
    destruct sub; [|discriminate].
    apply Contains_prefix, prefix_nil.
  - rewrite Contains_unfold in H.
    apply orb_true_iff in H as [H|H].
    + apply Contains_prefix, (prefix_app_r _ (String x s)), H.
    + change (String x s +:+ b) with (String x (s +:+ b)).
      rewrite Contains_unfold, (IH H); apply orb_true_r.
Qed.

Lemma Contains_infix (a s b : string) : Contains (a +:+ s +:+ b) s = true.
Proof. apply Contains_app_l, Contains_prefix, prefix_app. Qed.

Lemma Contains_suffix (a s : string) : Contains (a +:+ s) s = true.
Proof.
  apply Contains_app_l, Contains_prefix.
  destruct s as [|x s]; [reflexivity|].
  simpl. destruct (ascii_dec x x); [|congruence].
  clear. induction s as [|y s IH]; [reflexivity|].
  simpl. destruct (ascii_dec y y); [exact IH | congruence].
Qed.

Lemma Contains_Join (elems : list string) (sep e : string) :
  In e elems -> Contains (Join elems sep) e = true.
Proof.
  induction elems as [|x rest IH]; intros Hin; [destruct Hin|].
  destruct rest as [|y rest].
  - destruct Hin as [->|[]]. apply (Contains_suffix "").
  - change (Join (x :: y :: rest) sep)
      with (x +:+ sep +:+ Join (y :: rest) sep).
    destruct Hin as [->|Hin].
    + apply (Contains_infix "").
    + apply Contains_app_l, Contains_app_l, IH, Hin.
Qed.

Lemma wrap64_id (z : Z) : int64_range z -> wrap64 z = z.
Proof.
  unfold int64_range, wrap64; intros H.
  rewrite Z.mod_small; lia.
Qed.

End GoFacts.

(** ** Rounding to [float64] *)

Section Float64Facts.

Lemma round53_same (n : Z) : 0 < n -> round53 n n = (2 ^ 52, -52).
Proof.
  intros Hn. unfold round53, scale. cbv zeta.
  replace (Z.log2 n - Z.log2 n - 53) with (-53) by lia.
  change (Z.max 0 (- -53)) with 53. change (Z.max 0 (-53)) with 0.
  change (2 ^ 0) with 1. rewrite Z.mul_1_r.
  replace (n * 2 ^ 53 / n) with (2 ^ 53)
    by (rewrite Z.mul_comm, Z.div_mul; lia).
  change (2 ^ 53 <? 2 ^ 53) with false. cbv iota.
  change (Z.max 0 (- (-53 + 1))) with 52. change (Z.max 0 (-53 + 1)) with 0.
  change (2 ^ 0) with 1. rewrite Z.mul_1_r.
  rewrite (Z.mul_comm n (2 ^ 52)), Z.div_mul, Z.mod_mul by lia.
  replace (n <? 2 * 0) with false by (symmetry; apply Z.ltb_ge; lia).
  replace (2 * 0 =? n) with false by (symmetry; apply Z.eqb_neq; lia).
  reflexivity.
Qed.

Lemma round53_pos (n d : Z) : 0 < n -> 0 < d -> 0 < fst (round53 n d).
Proof.
  intros Hn Hd. unfold round53, scale. cbv zeta.
  set (e0 := Z.log2 n - Z.log2 d - 53).
  set (e := if _ <? _ then e0 else e0 + 1).
  assert (He : e <= Z.log2 n - Z.log2 d - 52)
    by (subst e; destruct (_ <? _); lia).
  clearbody e. clear e0.
  cbn [fst].
  set (num := n * 2 ^ Z.max 0 (- e)). set (den := d * 2 ^ Z.max 0 e).
  assert (Hden : 0 < den) by (subst den; apply Z.mul_pos_pos; [lia|apply Z.pow_pos_nonneg; lia]).
  assert (Hle : den <= num).
  { pose proof (Z.log2_spec n Hn) as [Hn1 _].
    pose proof (Z.log2_spec d Hd) as [_ Hd2].
    pose proof (Z.log2_nonneg n). pose proof (Z.log2_nonneg d).
    subst num den.
    destruct (Z.le_gt_cases 0 e) as [He0|He0].
    - rewrite (Z.max_r 0 e), (Z.max_l 0 (- e)) by lia.
      change (2 ^ 0) with 1. rewrite Z.mul_1_r.
      assert (Ha : d * 2 ^ e <= 2 ^ Z.succ (Z.log2 d) * 2 ^ e)
        by (apply Z.mul_le_mono_nonneg_r; [apply Z.pow_nonneg|]; lia).
      rewrite <- Z.pow_add_r in Ha by lia.
      assert (2 ^ (Z.succ (Z.log2 d) + e) <= 2 ^ Z.log2 n)
        by (apply Z.pow_le_mono_r; lia).
      lia.
    - rewrite (Z.max_l 0 e), (Z.max_r 0 (- e)) by lia.
      change (2 ^ 0) with 1. rewrite Z.mul_1_r.
      assert (Ha : 2 ^ Z.log2 n * 2 ^ (- e) <= n * 2 ^ (- e))
        by (apply Z.mul_le_mono_nonneg_r; [apply Z.pow_nonneg|]; lia).
      rewrite <- Z.pow_add_r in Ha by lia.
      assert (2 ^ Z.succ (Z.log2 d) <= 2 ^ (Z.log2 n + - e))
        by (apply Z.pow_le_mono_r; lia).
      lia. }
  assert (Hq : 1 <= num / den) by (apply Z.div_le_lower_bound; lia).
  destruct (_ || _); lia.
Qed.

Lemma value_pos (m e : Z) : 0 < m -> 0 < Qnum (value (m, e)).
Proof.
  intros Hm. unfold value.
  set (q := (_ # _)%Q).
  assert (Hq : (0 < q)%Q).
  { unfold Qlt, q. cbn. rewrite Z.mul_1_r.
    apply Z.mul_pos_pos; [lia|apply Z.pow_pos_nonneg; lia]. }
  rewrite <- (Qred_correct q) in Hq.
  unfold Qlt in Hq. change (Qnum 0) with 0 in Hq.
  change (QDen 0) with 1 in Hq. lia.
Qed.

Lemma float64OfInt_pos (z : Z) : 0 < z -> 0 < Qnum (float64OfInt z).
Proof.
  intros Hz. unfold float64OfInt, roundRatio.
  replace (z =? 0) with false by (symmetry; apply Z.eqb_neq; lia).
  replace (Z.sgn z * Z.sgn 1 <? 0) with false
    by (symmetry; apply Z.ltb_ge; rewrite Z.sgn_pos by lia; cbn; lia).
  rewrite Z.abs_eq by lia. change (Z.abs 1) with 1.
  pose proof (round53_pos z 1 Hz ltac:(lia)) as H.
  destruct (round53 z 1) as [m e]. apply value_pos. exact H.
Qed.

Lemma fdiv_same (x : Q) : 0 < Qnum x -> fdiv x x = 1%Q.
Proof.
  intros Hx. unfold fdiv, roundRatio.
  assert (Hn : 0 < Qnum x * QDen x) by (apply Z.mul_pos_pos; lia).
  replace (Qnum x * QDen x =? 0) with false by (symmetry; apply Z.eqb_neq; lia).
  rewrite Z.abs_eq by lia.
  rewrite round53_same by exact Hn.
  replace (Z.sgn (Qnum x * QDen x) * Z.sgn (Qnum x * QDen x) <? 0) with false
    by (symmetry; apply Z.ltb_ge; rewrite Z.sgn_pos by lia; cbn; lia).
  vm_compute. reflexivity.
Qed.


Lemma scale_succ (n d e : Z) :
  0 < n -> 0 < d ->
  let '(num0, den0) := scale n d e in
  let '(num, den) := scale n d (e + 1) in
  num0 * den = 2 * num * den0 /\ 0 < den0 /\ 0 < den.
Proof.
  intros Hn Hd. unfold scale.
  assert (Hp : forall k, 0 < 2 ^ Z.max 0 k)
    by (intros k; apply Z.pow_pos_nonneg; lia).
  repeat split; try (apply Z.mul_pos_pos; [lia|apply Hp]).
  destruct (Z.le_gt_cases 0 e) as [He|He].
  - rewrite (Z.max_r 0 e), (Z.max_r 0 (e + 1)), (Z.max_l 0 (- e)),
      (Z.max_l 0 (- (e + 1))) by lia.
    rewrite Z.pow_add_r by lia. change (2 ^ 1) with 2. ring.
  - rewrite (Z.max_l 0 e), (Z.max_l 0 (e + 1)), (Z.max_r 0 (- e)),
      (Z.max_r 0 (- (e + 1))) by lia.
    replace (2 ^ (- e)) with (2 * 2 ^ (- (e + 1)))
      by (rewrite <- Z.pow_succ_r by lia; f_equal; lia).
    ring.
Qed.

Lemma scale_first (n d : Z) :
  0 < n -> 0 < d ->
  let '(num0, den0) := scale n d (Z.log2 n - Z.log2 d - 53) in
  0 < den0 /\ 2 ^ 52 * den0 <= num0 < 2 ^ 54 * den0.
Proof.
  intros Hn Hd. unfold scale.
  set (e0 := Z.log2 n - Z.log2 d - 53).
  pose proof (Z.log2_spec n Hn) as [Hn1 Hn2].
  pose proof (Z.log2_spec d Hd) as [Hd1 Hd2].
  pose proof (Z.log2_nonneg n) as Hln. pose proof (Z.log2_nonneg d) as Hld.
  rewrite Z.pow_succ_r in Hn2, Hd2 by lia.
  set (A := 2 ^ Z.log2 n) in *. set (B := 2 ^ Z.log2 d) in *.
  assert (HB : 0 < B) by (apply Z.pow_pos_nonneg; lia).
  destruct (Z.le_gt_cases 0 e0) as [He|He].
  - rewrite (Z.max_r 0 e0), (Z.max_l 0 (- e0)) by lia.
    change (2 ^ 0) with 1. rewrite Z.mul_1_r.
    assert (HP : 0 < 2 ^ e0) by (apply Z.pow_pos_nonneg; lia).
    assert (HA : A = 2 ^ 53 * B * 2 ^ e0).
    { subst A B. rewrite <- !Z.pow_add_r by lia. f_equal. lia. }
    set (P := 2 ^ e0) in *. clearbody A B P.
    split; [nia|]. split; nia.
  - rewrite (Z.max_l 0 e0), (Z.max_r 0 (- e0)) by lia.
    change (2 ^ 0) with 1. rewrite Z.mul_1_r.
    assert (HP : 0 < 2 ^ (- e0)) by (apply Z.pow_pos_nonneg; lia).
    assert (HA : A * 2 ^ (- e0) = 2 ^ 53 * B).
    { subst A B. rewrite <- !Z.pow_add_r by lia. f_equal. lia. }
    set (P := 2 ^ (- e0)) in *. clearbody A B P.
    split; [lia|]. split; nia.
Qed.

Lemma round53_spec (n d m e : Z) :
  0 < n -> 0 < d ->
  round53 n d = (m, e) ->
  exists num den,
    scale n d e = (num, den)
    /\ 0 < den
    /\ 2 ^ 52 * den <= num < 2 ^ 53 * den
    /\ - den <= 2 * (m * den - num) <= den.
Proof.
  intros Hn Hd. unfold round53. cbv zeta.
  set (e0 := Z.log2 n - Z.log2 d - 53).
  pose proof (scale_first n d Hn Hd) as H0. fold e0 in H0.
  pose proof (scale_succ n d e0 Hn Hd) as H1.
  destruct (scale n d e0) as [num0 den0] eqn:Hs0.
  destruct H0 as (Hden0 & Hlo0 & Hhi0).
  set (e1 := if num0 / den0 <? 2 ^ 53 then e0 else e0 + 1).
  assert (Hnorm : let '(num, den) := scale n d e1 in
                  0 < den /\ 2 ^ 52 * den <= num < 2 ^ 53 * den).
  { subst e1. destruct (num0 / den0 <? 2 ^ 53) eqn:Hq.
    - rewrite Hs0. apply Z.ltb_lt in Hq.
      split; [exact Hden0|]. split; [exact Hlo0|].
      destruct (Z.lt_ge_cases num0 (2 ^ 53 * den0)) as [Hlt|Hge];
        [exact Hlt|].
      rewrite (Z.mul_comm (2 ^ 53)) in Hge.
      apply Z.div_le_lower_bound in Hge; lia.
    - apply Z.ltb_ge in Hq.
      destruct (scale n d (e0 + 1)) as [num den].
      destruct H1 as (Heq & _ & Hden).
      assert (2 ^ 53 * den0 <= num0).
      { pose proof (Z.mul_div_le num0 den0 Hden0). nia. }
      split; [exact Hden|]. split; nia. }
  clearbody e1.
  destruct (scale n d e1) as [num den] eqn:Hs.
  destruct Hnorm as (Hden & Hlo & Hhi).
  pose proof (Z.div_mod num den ltac:(lia)) as Hdm.
  pose proof (Z.mod_pos_bound num den Hden) as Hr.
  set (q := num / den) in *. set (r := num mod den) in *.
  assert (Hrnd : - den
                 <= 2 * ((if (den <? 2 * r) || ((2 * r =? den) && Z.odd q)
                          then q + 1 else q) * den - num)
                 <= den).
  { destruct (den <? 2 * r) eqn:Hup.
    - apply Z.ltb_lt in Hup. cbv [orb]. nia.
    - apply Z.ltb_ge in Hup. cbv [orb].
      destruct (2 * r =? den) eqn:Htie; cbv [andb].
      + apply Z.eqb_eq in Htie. destruct (Z.odd q); nia.
      + apply Z.eqb_neq in Htie. nia. }
  intros [= <- <-]. exists num, den.
  split; [exact Hs|]. split; [exact Hden|]. split; [lia|]. exact Hrnd.
Qed.

Lemma pow2_ge (k c : Z) : 0 <= c <= k -> 2 ^ c <= 2 ^ k.
Proof. intros. apply Z.pow_le_mono_r; lia. Qed.

(** The shape of a rounded ratio below [2^7]: the exponent is negative. *)
Lemma round53_small (n d m e bound : Z) :
  0 < n -> 0 < d -> 0 <= bound <= 52 ->
  n < 2 ^ bound * d ->
  round53 n d = (m, e) ->
  e < 0
  /\ 52 - bound < - e
  /\ 0 < m <= 2 ^ 53
  /\ - d <= 2 * (m * d - n * 2 ^ (- e)) <= d
  /\ (value (m, e) == m # Z.to_pos (2 ^ (- e)))%Q.
Proof.
  intros Hn Hd Hb Hlt Hr.
  pose proof (round53_pos n d Hn Hd) as Hm. rewrite Hr in Hm. cbn [fst] in Hm.
  destruct (round53_spec n d m e Hn Hd Hr)
    as (num & den & Hs & Hden & [Hlo Hhi] & Hrnd).
  unfold scale in Hs. injection Hs as <- <-.
  assert (Hbp : 0 < 2 ^ bound <= 2 ^ 52)
    by (split; [apply Z.pow_pos_nonneg; lia | apply pow2_ge; lia]).
  destruct (Z.le_gt_cases 0 e) as [He|He].
  - exfalso. rewrite (Z.max_r 0 e), (Z.max_l 0 (- e)) in * by lia.
    change (2 ^ 0) with 1 in *.
    assert (0 < 2 ^ e) by (apply Z.pow_pos_nonneg; lia).
    set (P := 2 ^ e) in *. set (B := 2 ^ bound) in *. nia.
  - rewrite (Z.max_l 0 e), (Z.max_r 0 (- e)) in * by lia.
    change (2 ^ 0) with 1 in *. rewrite !Z.mul_1_r in *.
    assert (HP : 0 < 2 ^ (- e)) by (apply Z.pow_pos_nonneg; lia).
    split; [exact He|]. split.
    + destruct (Z.lt_ge_cases (52 - bound) (- e)) as [Hk|Hk]; [exact Hk|].
      exfalso.
      assert (Hpk : 2 ^ (- e) * 2 ^ bound <= 2 ^ 52).
      { rewrite <- Z.pow_add_r by lia. apply pow2_ge. lia. }
      set (P := 2 ^ (- e)) in *. set (B := 2 ^ bound) in *. nia.
    + split; [nia|]. split; [exact Hrnd|].
      unfold value. rewrite Qred_correct.
      rewrite (Z.max_l 0 e), (Z.max_r 0 (- e)) by lia.
      change (2 ^ 0) with 1. rewrite Z.mul_1_r. reflexivity.
Qed.

Lemma Zpos_pow2 (k : Z) : 0 <= k -> Z.pos (Z.to_pos (2 ^ k)) = 2 ^ k.
Proof. intros. apply Z2Pos.id. apply Z.pow_pos_nonneg; lia. Qed.

(** A ratio of at most [1 - 2^-53] rounds to at most [1 - 2^-53]. *)
Lemma round53_below_one (n d : Z) :
  0 < n -> 0 < d ->
  n * 2 ^ 53 <= (2 ^ 53 - 1) * d ->
  (value (round53 n d) <= (2 ^ 53 - 1) # Z.to_pos (2 ^ 53))%Q.
Proof.
  intros Hn Hd Hle.
  destruct (round53 n d) as [m e] eqn:Hr.
  destruct (round53_small n d m e 0 Hn Hd ltac:(lia) ltac:(lia) Hr)
    as (He & Hk & Hm & Hrnd & ->).
  unfold Qle. cbn [Qnum Qden]. rewrite !Zpos_pow2 by lia.
  destruct (Z.eq_dec e (-53)) as [->|Hne].
  - change (- -53) with 53 in *.
    assert (Hm' : m <= 2 ^ 53 - 1).
    { destruct (Z.le_gt_cases m (2 ^ 53 - 1)) as [Hok|Hbig]; [exact Hok|].
      exfalso.
      assert (2 ^ 53 * d <= m * d)
        by (apply Z.mul_le_mono_nonneg_r; lia).
      lia. }
    lia.
  - assert (HP : 2 ^ 54 <= 2 ^ (- e)) by (apply pow2_ge; lia).
    set (P := 2 ^ (- e)) in *. clearbody P.
    assert ((2 ^ 53 - 1) * 2 ^ 54 <= (2 ^ 53 - 1) * P)
      by (apply Z.mul_le_mono_nonneg_l; lia).
    lia.
Qed.

(** A ratio of at most [100 * (1 - 2^-53)] rounds below [100]. *)
Lemma round53_below_hundred (n d : Z) :
  0 < n -> 0 < d ->
  n * 2 ^ 53 <= 100 * (2 ^ 53 - 1) * d ->
  (value (round53 n d) < inject_Z 100)%Q.
Proof.
  intros Hn Hd Hle.
  destruct (round53 n d) as [m e] eqn:Hr.
  destruct (round53_small n d m e 7 Hn Hd ltac:(lia) ltac:(lia) Hr)
    as (He & Hk & Hm & Hrnd & ->).
  unfold Qlt, inject_Z. cbn [Qnum Qden]. rewrite !Zpos_pow2 by lia.
  destruct (Z.eq_dec e (-46)) as [->|Hne].
  - change (- -46) with 46 in *.
    assert (Hm' : m < 100 * 2 ^ 46).
    { destruct (Z.lt_ge_cases m (100 * 2 ^ 46)) as [Hok|Hbig]; [exact Hok|].
      exfalso.
      assert (100 * 2 ^ 46 * d <= m * d)
        by (apply Z.mul_le_mono_nonneg_r; lia).
      lia. }
    lia.
  - assert (HP : 2 ^ 47 <= 2 ^ (- e)) by (apply pow2_ge; lia).
    set (P := 2 ^ (- e)) in *. clearbody P. lia.
Qed.

Lemma roundRatio_pos (n d : Z) :
  0 < n -> 0 < d -> roundRatio n d = value (round53 n d).
Proof.
  intros Hn Hd. unfold roundRatio.
  replace (n =? 0) with false by (symmetry; apply Z.eqb_neq; lia).
  replace (Z.sgn n * Z.sgn d <? 0) with false
    by (symmetry; apply Z.ltb_ge; rewrite !Z.sgn_pos by lia; lia).
  rewrite !Z.abs_eq by lia. reflexivity.
Qed.

Lemma roundRatio_positive (n d : Z) :
  0 < n -> 0 < d -> 0 < Qnum (roundRatio n d).
Proof.
  intros Hn Hd. rewrite roundRatio_pos by assumption.
  pose proof (round53_pos n d Hn Hd) as H.
  destruct (round53 n d) as [m e]. apply value_pos. exact H.
Qed.

Lemma scale_eq (n d e num den : Z) :
  scale n d e = (num, den) ->
  num = n * 2 ^ Z.max 0 (- e) /\ den = d * 2 ^ Z.max 0 e.
Proof.
  unfold scale. intros H. split.
  - exact (eq_sym (f_equal fst H)).
  - exact (eq_sym (f_equal snd H)).
Qed.

(** Integers below [2^53] are represented exactly. *)
Lemma float64OfInt_exact (z : Z) : 0 < z < 2 ^ 53 -> (float64OfInt z == inject_Z z)%Q.
Proof.
  intros Hz. unfold float64OfInt. rewrite roundRatio_pos by lia.
  destruct (round53 z 1) as [m e] eqn:Hr.
  destruct (round53_spec z 1 m e ltac:(lia) ltac:(lia) Hr)
    as (num & den & Hs & Hden & [Hlo Hhi] & Hrnd).
  destruct (scale_eq _ _ _ _ _ Hs) as [-> ->]. clear Hs.
  rewrite Z.mul_1_l in *.
  unfold value. rewrite Qred_correct.
  destruct (Z.le_gt_cases e 0) as [He|He].
  - rewrite (Z.max_l 0 e), (Z.max_r 0 (- e)) in * by lia.
    rewrite Z.pow_0_r, ?Z.mul_1_r in *.
    unfold Qeq, inject_Z. cbn [Qnum Qden]. rewrite Zpos_pow2 by lia.
    lia.
  - exfalso. rewrite (Z.max_r 0 e), (Z.max_l 0 (- e)) in * by lia.
    rewrite Z.pow_0_r, ?Z.mul_1_r in *.
    assert (2 ^ 1 <= 2 ^ e) by (apply pow2_ge; lia).
    lia.
Qed.

(** A transfer of the whole size is reported at exactly 100 percent. *)
Lemma percentage_full (S : Z) : 0 < S -> Client.percentage S S = inject_Z 100.
Proof.
  intros HS. unfold Client.percentage.
  rewrite fdiv_same by (apply float64OfInt_pos; exact HS).
  vm_compute. reflexivity.
Qed.

(** Below [2^53] bytes, a partial transfer is reported below 100 percent. *)
Lemma percentage_below (b S : Z) :
  0 < b < S -> S < 2 ^ 53 -> (Client.percentage b S < inject_Z 100)%Q.
Proof.
  intros Hb HS. unfold Client.percentage.
  pose proof (float64OfInt_exact b ltac:(lia)) as Hx.
  pose proof (float64OfInt_exact S ltac:(lia)) as Hy.
  pose proof (float64OfInt_pos b ltac:(lia)) as Hxp.
  pose proof (float64OfInt_pos S ltac:(lia)) as Hyp.
  set (x := float64OfInt b) in *. set (y := float64OfInt S) in *.
  unfold Qeq, inject_Z in Hx, Hy. cbn [Qnum Qden] in Hx, Hy.
  assert (Hn : 0 < Qnum x * QDen y) by (apply Z.mul_pos_pos; lia).
  assert (Hd : 0 < Qnum y * QDen x) by (apply Z.mul_pos_pos; lia).
  pose proof (round53_below_one _ _ Hn Hd) as Hw.
  pose proof (roundRatio_positive _ _ Hn Hd) as Hwp.
  unfold fdiv at 1. unfold fmul. fold (fdiv x y) in *.
  rewrite <- roundRatio_pos in Hw by assumption. fold (fdiv x y) in Hw, Hwp.
  set (w := fdiv x y) in *.
  assert (Hw' : (w <= (2 ^ 53 - 1) # Z.to_pos (2 ^ 53))%Q).
  { apply Hw. clear Hw.
    assert (HD : 0 < QDen x * QDen y) by (apply Z.mul_pos_pos; lia).
    replace (Qnum x * QDen y * 2 ^ 53)
      with (b * 2 ^ 53 * (QDen x * QDen y)) by lia.
    replace ((2 ^ 53 - 1) * (Qnum y * QDen x))
      with ((2 ^ 53 - 1) * S * (QDen x * QDen y)) by lia.
    apply Z.mul_le_mono_nonneg_r; lia. }
  unfold Qle in Hw'. cbn [Qnum Qden] in Hw'. rewrite Zpos_pow2 in Hw' by lia.
  change (Qnum (inject_Z 100)) with 100.
  change (QDen (inject_Z 100)) with 1.
  rewrite roundRatio_pos by lia.
  apply round53_below_hundred; lia.
Qed.

End Float64Facts.

(** ** The upload client *)

Section ClientFacts.

Import Client Spec.

Variable c : ClientConfig.
Variable hasCallback : bool.
Variable ctxErr : error.

Lemma producerLoop_events (fileSize b : Z) (script : list ProducerStep) :
  Forall (fun ev => isProgress ev = true)
         (snd (producerLoop hasCallback ctxErr fileSize b script)).
Proof.
  revert b; induction script as [|st rest IH]; intros b; simpl.
  - constructor.
  - destruct st as [|n err writeErr]; simpl; [constructor|].
    destruct (if 0 <? n then writeErr else None); simpl; [constructor|].
    set (b' := if 0 <? n then wrap64 (b + n) else b).
    specialize (IH b').
    destruct (producerLoop hasCallback ctxErr fileSize b' rest) as [d evs'].
    destruct ((0 <? n) && hasCallback), err; simpl in *;
      repeat constructor; auto.
Qed.

Lemma producer_events (fileSize : Z) (env : AttemptEnv) :
  Forall (fun ev => isProgress ev = true)
         (snd (producer hasCallback ctxErr fileSize env)).
Proof.
  unfold producer; destruct (createFormFileErr env); simpl.
  - constructor.
  - apply producerLoop_events.
Qed.

(** An attempt neither touches the semaphore nor starts another attempt. *)
Lemma uploadFileOnce_events (env : AttemptEnv) (r : AttemptResult) :
  uploadFileOnce hasCallback ctxErr env = Some r ->
  Forall (fun ev => ev = EvDo \/ isProgress ev = true) (arEvents r).
Proof.
  unfold uploadFileOnce; intros H.
  destruct (openErr env); [injection H as <-; constructor|].
  destruct (statResult env) as [e|fileSize]; [injection H as <-; constructor|].
  destruct (fileSize =? 0); [injection H as <-; constructor|].
  pose proof (producer_events fileSize env) as Hp.
  destruct (producer hasCallback ctxErr fileSize env) as [done evs].
  simpl in Hp.
  assert (Hevs : Forall (fun ev => ev = EvDo \/ isProgress ev = true) evs)
    by (eapply Forall_impl; [exact Hp|]; simpl; auto).
  destruct (newRequestErr env); [injection H as <-; exact Hevs|].
  destruct (doResult env) as [e|resp];
    [injection H as <-; constructor; auto|].
  destruct done as [[writeErr|]|]; [| |discriminate].
  - injection H as <-; constructor; auto.
  - destruct (negb (StatusCode resp =? StatusOK));
      injection H as <-; constructor; auto.
Qed.

Lemma attemptsMade_app (evs evs' : list Event) :
  attemptsMade (evs ++ evs') = (attemptsMade evs + attemptsMade evs')%nat.
Proof.
  unfold attemptsMade. rewrite List.filter_app, length_app. reflexivity.
Qed.

Lemma uploadFileOnce_no_attempt (env : AttemptEnv) (r : AttemptResult) :
  uploadFileOnce hasCallback ctxErr env = Some r ->
  attemptsMade (arEvents r) = 0%nat.
Proof.
  intros H; apply uploadFileOnce_events in H.
  unfold attemptsMade.
  induction H as [|ev evs [->|Hev] _ IH]; simpl; auto.
  destruct ev; simpl in *; try discriminate; auto.
Qed.

Lemma retryLoop_eq (attempt : Z) (lastErr : option error)
    (script : list AttemptScript) :
  retryLoop c hasCallback ctxErr attempt lastErr script
  = if attempt <=? RetryAttempts c then
      match script with
      | [] => None
      | s :: rest =>
          match (if 0 <? attempt then delaySelect s else CaseProceed) with
          | CaseCtxDone => Some (Some ctxErr, [])
          | CaseProceed =>
              match uploadFileOnce hasCallback ctxErr (attemptEnv s) with
              | None => None
              | Some r =>
                  let evs := EvAttempt attempt :: arEvents r in
                  match arErr r with
                  | None => Some (None, evs)
                  | Some err =>
                      if isPermanentError (Some err)
                      then Some (Some (finalError c (Some err)), evs)
                      else
                        match retryLoop c hasCallback ctxErr
                                (wrap64 (attempt + 1)) (Some err) rest with
                        | None => None
                        | Some (res, evs') => Some (res, evs ++ evs')
                        end
                  end
              end
          end
      end
    else Some (Some (finalError c lastErr), []).
Proof. destruct script; reflexivity. Qed.

(** A run of transient failures costs one attempt each and hands the loop
    on to the rest of the script. *)
Lemma retryLoop_transient (pre : list AttemptScript) :
  forallb (transientFailure hasCallback ctxErr) pre = true ->
  forall (attempt : Z) (lastErr : option error) (rest : list AttemptScript),
    0 <= attempt ->
    attempt + Z.of_nat (length pre) <= RetryAttempts c + 1 ->
    RetryAttempts c < 2 ^ 63 - 1 ->
    exists (evs : list Event) (lastErr' : option error),
      attemptsMade evs = length pre
      /\ (pre = [] -> lastErr' = lastErr)
      /\ (pre <> [] -> exists e, lastErr' = Some e
                                 /\ isPermanentError (Some e) = false)
      /\ retryLoop c hasCallback ctxErr attempt lastErr (pre ++ rest)
         = match retryLoop c hasCallback ctxErr
                   (attempt + Z.of_nat (length pre)) lastErr' rest with
           | None => None
           | Some (res, evs') => Some (res, evs ++ evs')
           end.
Proof.
  induction pre as [|s pre IH]; intros Hall attempt lastErr rest Hge Hle Hmax.
  - exists [], lastErr. simpl. rewrite Z.add_0_r.
    repeat split; [congruence | ].
    destruct (retryLoop c hasCallback ctxErr attempt lastErr rest)
      as [[res evs']|]; reflexivity.
  - simpl in Hall. apply andb_true_iff in Hall as [Hs Hall].
    unfold transientFailure in Hs.
    destruct (delaySelect s) eqn:Hdelay; [|discriminate].
    destruct (uploadFileOnce hasCallback ctxErr (attemptEnv s))
      as [r|] eqn:Hrun; [|discriminate].
    destruct (arErr r) as [e|] eqn:Herr; [|discriminate].
    apply negb_true_iff in Hs.
    assert (Hlen : Z.of_nat (length (s :: pre))
                   = 1 + Z.of_nat (length pre))
      by (change (length (s :: pre)) with (S (length pre)); lia).
    rewrite Hlen in Hle.
    assert (Hwrap : wrap64 (attempt + 1) = attempt + 1)
      by (apply wrap64_id; unfold int64_range; lia).
    destruct (IH Hall (attempt + 1) (Some e) rest)
      as (evs & lastErr' & Hmade & Hnil & Hcons & Hloop); [lia..|].
    exists ((EvAttempt attempt :: arEvents r) ++ evs).
    exists lastErr'.
    split; [|split; [|split]].
    + rewrite attemptsMade_app, Hmade.
      change (EvAttempt attempt :: arEvents r)
        with ([EvAttempt attempt] ++ arEvents r).
      rewrite attemptsMade_app, (uploadFileOnce_no_attempt _ _ Hrun).
      reflexivity.
    + discriminate.
    + intros _. destruct pre as [|s' pre'].
      * rewrite (Hnil eq_refl). eauto.
      * apply Hcons. discriminate.
    + change ((s :: pre) ++ rest) with (s :: (pre ++ rest)).
      rewrite retryLoop_eq.
      replace (attempt <=? RetryAttempts c) with true
        by (symmetry; apply Z.leb_le; lia).
      rewrite Hdelay, Hrun, Herr, Hs, Hwrap, Hloop.
      replace (attempt + Z.of_nat (length (s :: pre)))
        with (attempt + 1 + Z.of_nat (length pre)) by lia.
      destruct (0 <? attempt); cbv zeta;
      destruct (retryLoop c hasCallback ctxErr
                  (attempt + 1 + Z.of_nat (length pre)) lastErr' rest)
        as [[res evs']|]; try reflexivity;
      rewrite <- app_assoc; reflexivity.
Qed.

End ClientFacts.

(** ** One attempt *)

Section Attempt.

Import Client Spec.

Variable hasCallback : bool.
Variable ctxErr : error.

Lemma uploadFileOnce_observed (env : AttemptEnv) (r : AttemptResult) :
  uploadFileOnce hasCallback ctxErr env = Some r ->
  arResp r = responseReceived env
  /\ (arResp r <> None -> arDone r = producerOutcome hasCallback ctxErr env).
Proof.
  unfold uploadFileOnce, responseReceived, producerOutcome; intros H.
  destruct (openErr env); [injection H as <-; split; [reflexivity|easy]|].
  destruct (statResult env) as [e|fileSize];
    [injection H as <-; split; [reflexivity|easy]|].
  destruct (fileSize =? 0); [injection H as <-; split; [reflexivity|easy]|].
  destruct (producer hasCallback ctxErr fileSize env) as [done evs].
  destruct (newRequestErr env);
    [injection H as <-; split; [reflexivity|easy]|].
  destruct (doResult env) as [e|resp];
    [injection H as <-; split; [reflexivity|easy]|].
  destruct done as [[writeErr|]|]; [| |discriminate].
  - injection H as <-; split; reflexivity.
  - destruct (negb (StatusCode resp =? StatusOK));
      injection H as <-; split; reflexivity.
Qed.

(** The attempt returns as soon as its producer finishes. *)
Lemma uploadFileOnce_returns (env : AttemptEnv) :
  (forall fileSize, fst (producer hasCallback ctxErr fileSize env) <> None) ->
  exists r, uploadFileOnce hasCallback ctxErr env = Some r.
Proof.
  unfold uploadFileOnce; intros Hfin.
  destruct (openErr env); [eauto|].
  destruct (statResult env) as [e|fileSize]; [eauto|].
  destruct (fileSize =? 0); [eauto|].
  specialize (Hfin fileSize).
  destruct (producer hasCallback ctxErr fileSize env) as [done evs].
  destruct (newRequestErr env); [eauto|].
  destruct (doResult env) as [e|resp]; [eauto|].
  destruct done as [[writeErr|]|]; [eauto| |easy].
  destruct (negb (StatusCode resp =? StatusOK)); eauto.
Qed.

(** What an attempt returns once a response has arrived. *)
Lemma uploadFileOnce_answered (env : AttemptEnv) (resp : Response) :
  responseReceived env = Some resp ->
  exists evs,
    uploadFileOnce hasCallback ctxErr env
    = match producerOutcome hasCallback ctxErr env with
      | None => None
      | Some (Some writeErr) =>
          Some (mkAttemptResult (Some writeErr) evs
                  (Some (Some writeErr)) (Some resp))
      | Some None =>
          Some (mkAttemptResult
                  (if StatusCode resp =? StatusOK then None
                   else Some (statusError resp))
                  evs (Some None) (Some resp))
      end.
Proof.
  unfold uploadFileOnce, responseReceived, producerOutcome.
  destruct (openErr env); [discriminate|].
  destruct (statResult env) as [e|fileSize]; [discriminate|].
  destruct (fileSize =? 0); [discriminate|].
  destruct (newRequestErr env); [discriminate|].
  destruct (doResult env) as [e|resp']; [discriminate|].
  intros [= ->].
  destruct (producer hasCallback ctxErr fileSize env) as [done evs]; simpl.
  exists (EvDo :: evs).
  destruct done as [[writeErr|]|]; try reflexivity.
  destruct (StatusCode resp =? StatusOK); reflexivity.
Qed.

End Attempt.

(** ** Claims about one attempt *)

Section AttemptClaims.

Import Client Spec.

(** C4.  A single attempt ([uploadFileOnce]) returns success if and only if
    the producer task completed without error and the HTTP response has
    status 200.  In particular, whenever the producer fails the attempt
    returns an error, and once a response has arrived (whatever its status,
    200 included) that error is the producer's. *)
Theorem attempt_succeeds_iff (hasCallback : bool) (ctxErr : error)
    (env : AttemptEnv) :
  ((exists r, uploadFileOnce hasCallback ctxErr env = Some r
              /\ arErr r = None)
   <-> (producerOutcome hasCallback ctxErr env = Some None
        /\ exists resp, responseReceived env = Some resp
                        /\ StatusCode resp = 200))
  /\ (forall e,
        producerOutcome hasCallback ctxErr env = Some (Some e) ->
        (exists r err, uploadFileOnce hasCallback ctxErr env = Some r
                       /\ arErr r = Some err)
        /\ (forall resp,
              responseReceived env = Some resp ->
              exists r, uploadFileOnce hasCallback ctxErr env = Some r
                        /\ arErr r = Some e)).
Proof.
  split; [split|].
  - intros (r & Hrun & Hnil).
    revert Hrun.
    unfold uploadFileOnce, producerOutcome, responseReceived.
    destruct (openErr env); [intros [= <-]; discriminate|].
    destruct (statResult env) as [e|fileSize]; [intros [= <-]; discriminate|].
    destruct (fileSize =? 0); [intros [= <-]; discriminate|].
    destruct (producer hasCallback ctxErr fileSize env) as [done evs]; simpl.
    destruct (newRequestErr env); [intros [= <-]; discriminate|].
    destruct (doResult env) as [e|resp]; [intros [= <-]; discriminate|].
    destruct done as [[writeErr|]|];
      [intros [= <-]; discriminate| |discriminate].
    destruct (StatusCode resp =? StatusOK) eqn:Hcode; simpl;
      intros [= <-]; [|discriminate].
    split; [reflexivity|].
    exists resp. split; [reflexivity|]. apply Z.eqb_eq, Hcode.
  - intros (Hdone & resp & Hresp & Hcode).
    destruct (uploadFileOnce_answered hasCallback ctxErr env resp Hresp)
      as (evs & Hrun).
    rewrite Hdone in Hrun.
    eexists; split; [exact Hrun|]. simpl.
    replace (StatusCode resp =? StatusOK) with true; [reflexivity|].
    symmetry; apply Z.eqb_eq, Hcode.
  - intros e Hdone. split.
    + revert Hdone.
      unfold uploadFileOnce, producerOutcome.
      destruct (openErr env); [discriminate|].
      destruct (statResult env) as [e'|fileSize]; [discriminate|].
      destruct (fileSize =? 0); [discriminate|].
      destruct (producer hasCallback ctxErr fileSize env) as [done evs].
      simpl. intros ->.
      destruct (newRequestErr env); [eauto|].
      destruct (doResult env) as [e'|resp]; eauto.
    + intros resp Hresp.
      destruct (uploadFileOnce_answered hasCallback ctxErr env resp Hresp)
        as (evs & Hrun).
      rewrite Hdone in Hrun. eauto.
Qed.

End AttemptClaims.

Lemma attempt_succeeds_iff_witness :
  (exists r, Client.uploadFileOnce true Scenario.canceled Scenario.uploaded
             = Some r /\ Client.arErr r = None)
  /\ (exists r,
        Client.uploadFileOnce true Scenario.canceled
          Scenario.readFailsServerAccepts = Some r
        /\ Client.arErr r
           = Some (Errorf_w "ошибка чтения файла: "
                     (errorString "input/output error"))).
Proof.
  split.
  - apply (proj1 (attempt_succeeds_iff true Scenario.canceled
                    Scenario.uploaded)).
    split; [reflexivity|].
    eexists; split; reflexivity.
  - apply (proj2 (attempt_succeeds_iff true Scenario.canceled
                    Scenario.readFailsServerAccepts)
             _ eq_refl) with
      (resp := Client.mkResponse "200 OK" 200 "OK").
    reflexivity.
Defined.

(** ** Claims about the retry loop *)

Section RetryClaims.

Import Client Spec.

Lemma attemptsMade_call (evs : list Event) :
  attemptsMade (EvAcquire :: evs ++ [EvRelease]) = attemptsMade evs.
Proof.
  change (EvAcquire :: evs ++ [EvRelease])
    with ([EvAcquire] ++ evs ++ [EvRelease]).
  rewrite !attemptsMade_app. simpl.
  unfold attemptsMade at 2. simpl. lia.
Qed.

Lemma finalError_names_count (c : ClientConfig) (cause : error) :
  int64_range (RetryAttempts c + 1) ->
  Contains (Error (finalError c (Some cause))) (itoa (RetryAttempts c + 1))
  = true.
Proof.
  intros Hrange. unfold finalError. cbv zeta. simpl Error.
  rewrite (wrap64_id _ Hrange).
  apply Contains_app_r.
  apply (Contains_infix "загрузка не удалась после ").
Qed.

Lemma finalError_keeps_marker (c : ClientConfig) (cause : error) :
  isPermanentError (Some cause) = true ->
  isPermanentError (Some (finalError c (Some cause))) = true.
Proof.
  unfold isPermanentError. rewrite !existsb_exists.
  intros (m & Hin & Hm). exists m. split; [exact Hin|].
  unfold finalError. cbv zeta. simpl Error.
  apply Contains_app_l, Hm.
Qed.


End RetryClaims.


(** C2.  A server that always answers 500 is a transient failure and is to
    be asked [r + 1] times.  With [RetryAttempts = 2] the client does ask
    three times when the body of the answer is [Failed to read body]; when
    the body happens to contain one of the client's own messages (here
    [файл пустой]) it asks once and stops, and the error it returns still
    names 3 attempts. *)
Example server_error_with_marker_body_is_not_retried :
  exists err evs err' evs',
    Client.UploadFile (Scenario.withRetries 2) true Scenario.canceled
      (Scenario.always Scenario.serverFailsWithMarker 3)
    = Some (Some err, evs)
    /\ Spec.responseReceived Scenario.serverFailsWithMarker
       = Some (Client.mkResponse "500 Internal Server Error" 500
                 "файл пустой")
    /\ Client.attemptsMade evs = 1%nat
    /\ Contains (Error err) "после 3 попыток" = true
    /\ Client.UploadFile (Scenario.withRetries 2) true Scenario.canceled
         (Scenario.always Scenario.serverFails 3)
       = Some (Some err', evs')
    /\ Spec.responseReceived Scenario.serverFails
       = Some (Client.mkResponse "500 Internal Server Error" 500
                 "Failed to read body")
    /\ Client.attemptsMade evs' = 3%nat.
Proof.
  do 4 eexists.
  split; [reflexivity|]. split; [reflexivity|]. split; [reflexivity|].
  split; [reflexivity|]. split; [reflexivity|]. split; reflexivity.
Qed.

(** ** Claims about empty files, error reports and cancellation *)

Section CallClaims.

Import Client Spec.

(** C1, as the specification words it, fails: the slot is taken before the
    file is looked at. *)
Lemma rejects_empty_file_before_slot_fails : ~ rejects_empty_file_before_slot.
Proof.
  intros H.
  destruct (H (Scenario.withRetries 0) false Scenario.canceled
              (Scenario.always Scenario.emptyFile 1) _ _
              ltac:(simpl; lia) eq_refl eq_refl) as (_ & Hslot & _).
  apply Hslot. left. reflexivity.
Qed.

(** C1, amended.  When the call obtains its concurrency slot and the path
    resolves to a zero-byte file, [UploadFile] fails after a single attempt
    with an error that wraps the empty-file error and is classified
    permanent; the slot is acquired before the rejection and released after
    it, and no network call is made. *)
Theorem empty_file_rejected_in_first_attempt (c : ClientConfig)
    (hasCallback : bool) (ctxErr : error) (env : CallEnv)
    (s : AttemptScript) (rest : list AttemptScript) :
  0 <= RetryAttempts c ->
  semSelect env = CaseProceed ->
  attempts env = s :: rest ->
  zeroByteFile (attemptEnv s) = true ->
  exists err,
    UploadFile c hasCallback ctxErr env
    = Some (Some err, [EvAcquire; EvAttempt 0; EvRelease])
    /\ Unwrap err = Some (errorString "файл пустой")
    /\ isPermanentError (Unwrap err) = true
    /\ isPermanentError (Some err) = true.
Proof.
  intros Hr Hsem Hscript Hzero.
  assert (Hrun : uploadFileOnce hasCallback ctxErr (attemptEnv s)
                 = Some (mkAttemptResult (Some (errorString "файл пустой"))
                           [] None None)).
  { unfold zeroByteFile in Hzero. unfold uploadFileOnce.
    destruct (openErr (attemptEnv s)); [discriminate|].
    destruct (statResult (attemptEnv s)) as [e|fileSize]; [discriminate|].
    destruct fileSize; try discriminate. reflexivity. }
  exists (finalError c (Some (errorString "файл пустой"))).
  unfold UploadFile. rewrite Hsem, Hscript, retryLoop_eq.
  replace (0 <=? RetryAttempts c) with true
    by (symmetry; apply Z.leb_le; exact Hr).
  rewrite Hrun. cbv zeta. simpl arErr. simpl arEvents.
  assert (Hperm : isPermanentError (Some (errorString "файл пустой")) = true)
    by reflexivity.
  change (0 <? 0) with false. cbv iota beta. rewrite Hperm.
  split; [reflexivity|]. split; [reflexivity|]. split; [exact Hperm|].
  apply finalError_keeps_marker, Hperm.
Qed.

(** A permanent error in the first attempt ends the call after that one
    attempt; the error wraps its cause and names [RetryAttempts + 1]
    attempts all the same. *)
Lemma permanent_stop_in_first_attempt (c : ClientConfig) (hasCallback : bool)
    (ctxErr : error) (env : CallEnv) (s : AttemptScript)
    (rest : list AttemptScript) (r : AttemptResult) (cause : error) :
  0 <= RetryAttempts c < 2 ^ 63 - 1 ->
  semSelect env = CaseProceed ->
  attempts env = s :: rest ->
  uploadFileOnce hasCallback ctxErr (attemptEnv s) = Some r ->
  arErr r = Some cause ->
  isPermanentError (Some cause) = true ->
  exists err evs,
    UploadFile c hasCallback ctxErr env = Some (Some err, evs)
    /\ attemptsMade evs = 1%nat
    /\ Unwrap err = Some cause
    /\ Contains (Error err) (itoa (RetryAttempts c + 1)) = true.
Proof.
  intros Hr Hsem Hscript Hrun Hcause Hperm.
  pose proof (uploadFileOnce_no_attempt _ _ _ _ Hrun) as Hnone.
  exists (finalError c (Some cause)). eexists.
  unfold UploadFile. rewrite Hsem, Hscript, retryLoop_eq.
  replace (0 <=? RetryAttempts c) with true
    by (symmetry; apply Z.leb_le; lia).
  rewrite Hrun. cbv beta iota zeta. rewrite Hcause.
  change (0 <? 0) with false. cbv beta iota. rewrite Hperm.
  split; [reflexivity|].
  split; [|split; [reflexivity|]].
  - rewrite attemptsMade_call.
    change (EvAttempt 0 :: arEvents r) with ([EvAttempt 0] ++ arEvents r).
    rewrite attemptsMade_app, Hnone. reflexivity.
  - apply finalError_names_count. unfold int64_range. lia.
Qed.

(** C3, evaluated where the code departs from it: with three retries
    configured and a path that does not exist, one attempt is made and the
    error says four. *)
Example permanent_stop_names_configured_attempts :
  exists err evs,
    UploadFile (DefaultConfig 8) false Scenario.canceled
      (Scenario.always Scenario.missingFile 4) = Some (Some err, evs)
    /\ attemptsMade evs = 1%nat
    /\ Error err
       = "загрузка не удалась после 4 попыток, последняя ошибка: ошибка открытия файла: open /nonexistent/file.txt: no such file or directory"
    /\ Unwrap err
       = Some (Errorf_w "ошибка открытия файла: "
                 (errorString
                    "open /nonexistent/file.txt: no such file or directory")).
Proof. do 2 eexists. repeat split; reflexivity. Qed.

(** Cancellation seen by one of the two [select]s of [UploadFile] is
    returned as it is: at the semaphore no slot is taken and no attempt
    made; at a delay no further attempt is started. *)
Lemma cancellation_at_select (c : ClientConfig) (hasCallback : bool)
    (ctxErr : error) (env : CallEnv) :
  (semSelect env = CaseCtxDone ->
   UploadFile c hasCallback ctxErr env = Some (Some ctxErr, []))
  /\ (forall pre s rest,
        semSelect env = CaseProceed ->
        attempts env = pre ++ s :: rest ->
        pre <> [] ->
        Z.of_nat (length pre) <= RetryAttempts c < 2 ^ 63 - 1 ->
        forallb (transientFailure hasCallback ctxErr) pre = true ->
        delaySelect s = CaseCtxDone ->
        exists evs,
          UploadFile c hasCallback ctxErr env = Some (Some ctxErr, evs)
          /\ attemptsMade evs = length pre).
Proof.
  split.
  - intros Hsem. unfold UploadFile. rewrite Hsem. reflexivity.
  - intros pre s rest Hsem Hscript Hne Hlen Hall Hdelay.
    destruct (retryLoop_transient c hasCallback ctxErr pre Hall 0 None
                (s :: rest))
      as (evs & lastErr' & Hmade & _ & _ & Hloop); [lia..|].
    rewrite (retryLoop_eq c _ _ (0 + Z.of_nat (length pre))) in Hloop.
    replace (0 + Z.of_nat (length pre) <=? RetryAttempts c) with true
      in Hloop by (symmetry; apply Z.leb_le; lia).
    replace (0 <? 0 + Z.of_nat (length pre)) with true in Hloop
      by (symmetry; apply Z.ltb_lt; destruct pre; [congruence|simpl; lia]).
    rewrite Hdelay in Hloop.
    eexists. unfold UploadFile. rewrite Hsem, Hscript, Hloop.
    split; [reflexivity|].
    rewrite attemptsMade_call, app_nil_r. exact Hmade.
Qed.

(** C5, evaluated where the code departs from it: with no retries
    configured, a cancellation that strikes during the attempt comes back
    as the retry-exhaustion error, not as the context's error. *)
Example cancellation_in_last_attempt_reported_as_exhaustion :
  exists err evs,
    UploadFile (Scenario.withRetries 0) true Scenario.canceled
      (Scenario.always Scenario.canceledInFlight 1) = Some (Some err, evs)
    /\ err <> Scenario.canceled
    /\ Error err
       = "загрузка не удалась после 1 попыток, последняя ошибка: ошибка выполнения HTTP запроса: Post http://localhost:8080/upload: context canceled"
    /\ isPermanentError (Some err) = false.
Proof. do 2 eexists. repeat split; try reflexivity. discriminate. Qed.

(** C9.  A response with a status other than 200 whose body contains one of
    the messages [isPermanentError] looks for (for instance the empty-file
    message) makes the attempt's error permanent: the call stops after that
    one attempt, whatever the number of retries configured. *)
Theorem marker_in_body_stops_retries (c : ClientConfig) (hasCallback : bool)
    (ctxErr : error) (env : CallEnv) (s : AttemptScript)
    (rest : list AttemptScript) (resp : Response) (marker : string) :
  0 <= RetryAttempts c ->
  semSelect env = CaseProceed ->
  attempts env = s :: rest ->
  producerOutcome hasCallback ctxErr (attemptEnv s) = Some None ->
  responseReceived (attemptEnv s) = Some resp ->
  StatusCode resp <> 200 ->
  In marker permanentErrors ->
  Contains (Body resp) marker = true ->
  isPermanentError (Some (statusError resp)) = true
  /\ exists err evs,
       UploadFile c hasCallback ctxErr env = Some (Some err, evs)
       /\ Unwrap err = Some (statusError resp)
       /\ attemptsMade evs = 1%nat.
Proof.
  intros Hr Hsem Hscript Hdone Hresp Hcode Hin Hbody.
  assert (Hperm : isPermanentError (Some (statusError resp)) = true).
  { unfold isPermanentError. apply existsb_exists.
    exists marker. split; [exact Hin|].
    unfold statusError. simpl Error.
    do 5 apply Contains_app_l. exact Hbody. }
  split; [exact Hperm|].
  destruct (uploadFileOnce_answered hasCallback ctxErr _ _ Hresp)
    as (evs & Hrun).
  rewrite Hdone in Hrun.
  replace (StatusCode resp =? StatusOK) with false in Hrun
    by (symmetry; apply Z.eqb_neq; exact Hcode).
  pose proof (uploadFileOnce_no_attempt _ _ _ _ Hrun) as Hnone.
  simpl in Hnone.
  exists (finalError c (Some (statusError resp))).
  eexists. unfold UploadFile.
  rewrite Hsem, Hscript, retryLoop_eq.
  replace (0 <=? RetryAttempts c) with true
    by (symmetry; apply Z.leb_le; exact Hr).
  rewrite Hrun. cbv beta iota zeta. cbn [arErr arEvents].
  change (0 <? 0) with false. cbv beta iota. rewrite Hperm.
  split; [reflexivity|]. split; [reflexivity|].
  rewrite attemptsMade_call.
  change (EvAttempt 0 :: evs) with ([EvAttempt 0] ++ evs).
  rewrite attemptsMade_app, Hnone. reflexivity.
Qed.

End CallClaims.

Lemma empty_file_rejected_in_first_attempt_witness :
  exists err,
    Client.UploadFile (Client.DefaultConfig 8) false Scenario.canceled
      (Scenario.always Scenario.emptyFile 4)
    = Some (Some err, [Client.EvAcquire; Client.EvAttempt 0;
                       Client.EvRelease])
    /\ Unwrap err = Some (errorString "файл пустой")
    /\ Client.isPermanentError (Unwrap err) = true
    /\ Client.isPermanentError (Some err) = true.
Proof.
  apply (empty_file_rejected_in_first_attempt (Client.DefaultConfig 8) false
           Scenario.canceled (Scenario.always Scenario.emptyFile 4)
           (Scenario.attempt Scenario.emptyFile)
           (List.repeat (Scenario.attempt Scenario.emptyFile) 3));
    [simpl; lia | reflexivity | reflexivity | reflexivity].
Defined.

Lemma marker_in_body_stops_retries_witness :
  Client.isPermanentError
    (Some (Client.statusError
             (Client.mkResponse "500 Internal Server Error" 500
                "файл пустой"))) = true
  /\ exists err evs,
       Client.UploadFile (Scenario.withRetries 2) true Scenario.canceled
         (Scenario.always Scenario.serverFailsWithMarker 3)
       = Some (Some err, evs)
       /\ Unwrap err
          = Some (Client.statusError
                    (Client.mkResponse "500 Internal Server Error" 500
                       "файл пустой"))
       /\ Client.attemptsMade evs = 1%nat.
Proof.
  apply (marker_in_body_stops_retries (Scenario.withRetries 2) true
           Scenario.canceled
           (Scenario.always Scenario.serverFailsWithMarker 3)
           (Scenario.attempt Scenario.serverFailsWithMarker)
           (List.repeat (Scenario.attempt Scenario.serverFailsWithMarker) 2)
           (Client.mkResponse "500 Internal Server Error" 500 "файл пустой")
           "файл пустой");
    [ simpl; lia | reflexivity | reflexivity | reflexivity | reflexivity
    | simpl; lia | simpl; tauto | reflexivity ].
Defined.

(** ** Progress reports *)

Section Progress.

Import Client Spec.

Variable ctxErr : error.

Lemma chunksWritten_positive (script : list ProducerStep) :
  Forall (fun n => 0 < n) (chunksWritten script).
Proof.
  induction script as [|st rest IH]; simpl; [constructor|].
  destruct st as [|n err writeErr]; [constructor|].
  destruct (0 <? n) eqn:Hn, writeErr, err;
    repeat constructor; auto; apply Z.ltb_lt, Hn.
Qed.

Lemma sumZ_nonneg (ns : list Z) : Forall (fun n => 0 < n) ns -> 0 <= sumZ ns.
Proof.
  induction 1 as [|n ns Hn _ IH]; simpl; [reflexivity|].
  unfold sumZ in *; simpl; lia.
Qed.

Lemma sumZ_cons (n : Z) (ns : list Z) : sumZ (n :: ns) = n + sumZ ns.
Proof. reflexivity. Qed.

Lemma last_cumulative (acc : Z) (ns : list Z) :
  ns <> [] -> last (cumulative acc ns) = Some (acc + sumZ ns).
Proof.
  revert acc; induction ns as [|n ns IH]; intros acc Hne; [congruence|].
  destruct ns as [|m ns].
  - simpl. unfold sumZ; simpl. f_equal; lia.
  - change (cumulative acc (n :: m :: ns))
      with ((acc + n) :: cumulative (acc + n) (m :: ns)).
    rewrite sumZ_cons.
    change (last ((acc + n) :: cumulative (acc + n) (m :: ns)))
      with (last (cumulative (acc + n) (m :: ns))).
    rewrite IH by discriminate. f_equal; lia.
Qed.

Lemma cumulative_bounds (acc : Z) (ns : list Z) :
  Forall (fun n => 0 < n) ns ->
  Forall (fun b => acc < b <= acc + sumZ ns) (cumulative acc ns).
Proof.
  intros Hpos; revert acc.
  induction Hpos as [|n ns Hn Hpos IH]; intros acc; cbn [cumulative];
    [constructor|].
  rewrite sumZ_cons. pose proof (sumZ_nonneg ns Hpos).
  constructor; [lia|].
  eapply Forall_impl; [apply IH|]. simpl; intros; lia.
Qed.

Lemma last_map {A B : Type} (f : A -> B) (l : list A) :
  last (List.map f l) = option_map f (last l).
Proof.
  induction l as [|a l IH]; [reflexivity|].
  destruct l as [|b l]; [reflexivity|]. exact IH.
Qed.

(** What the read loop reports when it ends well: the running totals of the
    chunks it wrote. *)
Lemma producerLoop_reports (fileSize : Z) (script : list ProducerStep) :
  forall (acc : Z) (evs : list Event),
    0 <= acc ->
    acc + sumZ (chunksWritten script) < 2 ^ 63 ->
    producerLoop true ctxErr fileSize acc script = (Some None, evs) ->
    reports evs
    = List.map (fun b => (b, fileSize, percentage b fileSize))
               (cumulative acc (chunksWritten script)).
Proof.
  induction script as [|st rest IH]; intros acc evs Hacc Hsum Hrun.
  - discriminate.
  - destruct st as [|n err writeErr]; [discriminate|].
    pose proof (chunksWritten_positive rest) as Hpos.
    apply sumZ_nonneg in Hpos.
    simpl in Hrun, Hsum |- *.
    destruct (0 <? n) eqn:Hn.
    + apply Z.ltb_lt in Hn.
      destruct writeErr as [we|]; [discriminate|].
      rewrite sumZ_cons in Hsum.
      destruct err as [| |e]; simpl in Hrun.
      * assert (Hw : wrap64 (acc + n) = acc + n)
          by (apply wrap64_id; unfold int64_range; lia).
        rewrite Hw in Hrun.
        destruct (producerLoop true ctxErr fileSize (acc + n) rest)
          as [d evs'] eqn:Hrest.
        injection Hrun as -> <-.
        simpl. f_equal. apply IH; [lia | lia | exact Hrest].
      * injection Hrun as <-.
        rewrite wrap64_id by (unfold int64_range, sumZ in *; simpl in *; lia).
        reflexivity.
      * discriminate.
    + destruct err as [| |e]; simpl in Hrun.
      * destruct (producerLoop true ctxErr fileSize acc rest)
          as [d evs'] eqn:Hrest.
        injection Hrun as -> <-.
        apply IH; [lia | lia | exact Hrest].
      * injection Hrun as <-. reflexivity.
      * discriminate.
Qed.

(** An attempt that returns nil has run its producer to the end. *)
Lemma uploadFileOnce_success (hasCallback : bool) (env : AttemptEnv)
    (r : AttemptResult) (fileSize : Z) :
  statResult env = inr fileSize ->
  uploadFileOnce hasCallback ctxErr env = Some r ->
  arErr r = None ->
  exists evs,
    producerLoop hasCallback ctxErr fileSize 0 (steps env) = (Some None, evs)
    /\ arEvents r = EvDo :: evs.
Proof.
  unfold uploadFileOnce, producer. intros -> Hrun Hnil. revert Hrun.
  destruct (openErr env); [intros [= <-]; discriminate|].
  destruct (fileSize =? 0); [intros [= <-]; discriminate|].
  destruct (createFormFileErr env).
  - destruct (newRequestErr env); [intros [= <-]; discriminate|].
    destruct (doResult env); intros [= <-]; discriminate.
  - destruct (producerLoop hasCallback ctxErr fileSize 0 (steps env))
      as [done evs].
    destruct (newRequestErr env); [intros [= <-]; discriminate|].
    destruct (doResult env) as [e|resp]; [intros [= <-]; discriminate|].
    destruct done as [[writeErr|]|];
      [intros [= <-]; discriminate| |discriminate].
    destruct (negb (StatusCode resp =? StatusOK));
      intros [= <-]; [discriminate|].
    exists evs. split; reflexivity.
Qed.

End Progress.

(** The sentence of C6 as the specification words it fails: the size is
    taken once, before the file is read, and the file may grow meanwhile;
    the upload succeeds and its last report is 8 bytes of 5. *)
Lemma progress_ends_at_file_size_fails : ~ Words.progress_ends_at_file_size.
Proof.
  intros H.
  destruct (H Scenario.canceled Cases.appended
              (Client.mkAttemptResult None
                 [ Client.EvDo;
                   Client.EvProgress 3 5 (Client.percentage 3 5);
                   Client.EvProgress 8 5 (Client.percentage 8 5) ]
                 (Some None)
                 (Some (Client.mkResponse "200 OK" 200 "OK")))
              5 eq_refl ltac:(lia) eq_refl eq_refl) as (_ & Hlast).
  vm_compute in Hlast. discriminate Hlast.
Qed.

(** C6.  For a file whose size [file.Stat] gives as [S > 0] and whose
    upload succeeds with a callback, the callback is invoked once after each
    chunk written, with the running total of the bytes written so far; every
    invocation carries [totalBytes = S] and
    [percentage = float64(bytesTransferred) / float64(totalBytes) * 100].
    When the reads delivered exactly [S] bytes (the file did not change
    while it was read), the last invocation reports [S] bytes at exactly 100
    percent, no invocation reports more than [S] bytes and, for
    [S < 2^53], an invocation reports [S] bytes exactly when its percentage
    is 100. *)
Theorem progress_reports_cumulative (ctxErr : error) (env : Client.AttemptEnv)
    (r : Client.AttemptResult) (S : Z) :
  Client.statResult env = inr S ->
  0 < S ->
  Spec.sumZ (Spec.chunksWritten (Client.steps env)) < 2 ^ 63 ->
  Client.uploadFileOnce true ctxErr env = Some r ->
  Client.arErr r = None ->
  Spec.reports (Client.arEvents r)
  = List.map (fun b => (b, S, Client.percentage b S))
             (Spec.cumulative 0 (Spec.chunksWritten (Client.steps env)))
  /\ Forall (fun '(b, t, p) =>
               t = S
               /\ 0 < b
               /\ p = fmul (fdiv (float64OfInt b) (float64OfInt t))
                           (inject_Z 100))
            (Spec.reports (Client.arEvents r))
  /\ (Spec.sumZ (Spec.chunksWritten (Client.steps env)) = S ->
      last (Spec.reports (Client.arEvents r)) = Some (S, S, inject_Z 100)
      /\ Forall (fun '(b, t, p) =>
                   b <= S
                   /\ (S < 2 ^ 53 -> (b = S <-> p = inject_Z 100)))
                (Spec.reports (Client.arEvents r))).
Proof.
  intros Hstat HS Hrange Hrun Hnil.
  destruct (uploadFileOnce_success ctxErr true env r S Hstat Hrun Hnil)
    as (evs & Hloop & ->).
  change (Spec.reports (Client.EvDo :: evs)) with (Spec.reports evs).
  rewrite (producerLoop_reports ctxErr S (Client.steps env) 0 evs);
    [|lia|lia|exact Hloop].
  pose proof (cumulative_bounds 0 _
                (chunksWritten_positive (Client.steps env))) as Hb.
  split; [reflexivity|]. split; [|intros Hsum; split].
  - apply List.Forall_map.
    eapply Forall_impl; [exact Hb|]. simpl. intros b Hb'.
    split; [reflexivity|]. split; [lia | reflexivity].
  - rewrite last_map, last_cumulative.
    + simpl. rewrite Hsum, percentage_full by exact HS. reflexivity.
    + intros Hnone. rewrite Hnone in Hsum. unfold Spec.sumZ in Hsum.
      simpl in Hsum. lia.
  - apply List.Forall_map. rewrite Hsum in Hb.
    eapply Forall_impl; [exact Hb|]. simpl. intros b Hb'.
    split; [lia|]. intros Hsmall. split.
    + intros ->. apply percentage_full, HS.
    + intros Hfull.
      destruct (Z.eq_dec b S) as [Heq|Hne]; [exact Heq|]. exfalso.
      pose proof (percentage_below b S ltac:(lia) Hsmall) as Hlt.
      rewrite Hfull in Hlt. exact (Qlt_irrefl _ Hlt).
Qed.

Lemma progress_reports_cumulative_witness :
  Spec.reports
    (Client.EvDo
     :: [Client.EvProgress 3 5 (Client.percentage 3 5);
         Client.EvProgress 5 5 (Client.percentage 5 5)])
  = [(3, 5, Client.percentage 3 5); (5, 5, Client.percentage 5 5)]
  /\ last (Spec.reports
             (Client.EvDo
              :: [Client.EvProgress 3 5 (Client.percentage 3 5);
                  Client.EvProgress 5 5 (Client.percentage 5 5)]))
     = Some (5, 5, inject_Z 100)
  /\ Forall (fun '(b, t, p) =>
               b <= 5 /\ (5 < 2 ^ 53 -> (b = 5 <-> p = inject_Z 100)))
            (Spec.reports
               (Client.EvDo
                :: [Client.EvProgress 3 5 (Client.percentage 3 5);
                    Client.EvProgress 5 5 (Client.percentage 5 5)])).
Proof.
  destruct (progress_reports_cumulative Scenario.canceled Scenario.uploaded
              (Client.mkAttemptResult None
                 (Client.EvDo
                  :: [Client.EvProgress 3 5 (Client.percentage 3 5);
                      Client.EvProgress 5 5 (Client.percentage 5 5)])
                 (Some None)
                 (Some (Client.mkResponse "200 OK" 200 "OK")))
              5 eq_refl ltac:(lia) eq_refl eq_refl eq_refl)
    as (Hreports & _ & Hfinal).
  destruct (Hfinal eq_refl) as (Hlast & Hall).
  exact (conj Hreports (conj Hlast Hall)).
Defined.

(** Beyond [2^53] bytes the percentage reaches 100 before the last byte:
    [2^53] bytes of [2^53 + 1] are reported as 100 percent. *)
Example percentage_rounds_to_full :
  Client.percentage (2 ^ 53) (2 ^ 53 + 1) = inject_Z 100.
Proof. vm_compute. reflexivity. Qed.

(** ** Batches *)

Section Batch.

Import Client Spec.

Variable c : ClientConfig.
Variable hasCallback : bool.
Variable ctxErr : error.
Variable envOf : nat -> TaskEnv.

Lemma drain_eq (results : list TaskResult) (order : list nat) :
  drain results order
  = List.flat_map
      (fun i => match List.nth_error results i with
                | Some t => sentEntry t
                | None => []
                end)
      order.
Proof. reflexivity. Qed.

Lemma flat_map_seq {A B : Type} (G : A -> list B) (l : list A) :
  forall (k : nat) (F : nat -> list B),
    (forall i t, List.nth_error l i = Some t -> F (k + i)%nat = G t) ->
    List.flat_map F (seq k (length l)) = List.flat_map G l.
Proof.
  induction l as [|a l IH]; intros k F HF; [reflexivity|].
  simpl. f_equal.
  - rewrite <- (HF 0%nat a eq_refl). f_equal. lia.
  - apply IH. intros i t Hi.
    rewrite <- (HF (S i) t Hi). f_equal. lia.
Qed.

Lemma drain_in_order (results : list TaskResult) :
  drain results (seq 0 (length results))
  = List.flat_map sentEntry results.
Proof.
  rewrite drain_eq. apply flat_map_seq.
  intros i t Hi. simpl. rewrite Hi. reflexivity.
Qed.

(** [wg.Wait ()] returns once every goroutine has: each file has its own
    result, the one its goroutine computes from its own environment. *)
Lemma spawn_results (files : list string) :
  forall (k : nat) (results : list TaskResult),
    waitAll (spawn c hasCallback ctxErr envOf k files) = Some results ->
    length results = length files
    /\ forall i file,
         files !! i = Some file ->
         exists t, results !! i = Some t
                   /\ uploadTask c hasCallback ctxErr file (envOf (k + i)%nat)
                      = Some t.
Proof.
  induction files as [|file0 files IH]; intros k results Hwait.
  - injection Hwait as <-. split; [reflexivity|]. intros i file Hi.
    destruct i; discriminate.
  - simpl in Hwait.
    destruct (uploadTask c hasCallback ctxErr file0 (envOf k))
      as [t0|] eqn:Htask; [|discriminate].
    destruct (waitAll (spawn c hasCallback ctxErr envOf (S k) files))
      as [ts|] eqn:Hrest; [|discriminate].
    injection Hwait as <-.
    destruct (IH (S k) ts Hrest) as (Hlen & Hall).
    split; [simpl; f_equal; exact Hlen|].
    intros [|i] file Hi.
    + injection Hi as <-. exists t0. rewrite Nat.add_0_r. auto.
    + destruct (Hall i file Hi) as (t & Ht & Hrun).
      exists t. split; [exact Ht|].
      replace (k + S i)%nat with (S k + i)%nat by lia. exact Hrun.
Qed.

Lemma nth_error_lookup {A : Type} (l : list A) (i : nat) :
  List.nth_error l i = l !! i.
Proof.
  revert i; induction l as [|a l IH]; intros [|i]; try reflexivity.
  apply IH.
Qed.

Lemma uploadTask_sent (file : string) (env : TaskEnv) (t : TaskResult) :
  reportSelect env = CaseProceed ->
  uploadTask c hasCallback ctxErr file env = Some t ->
  sentEntry t = match trErr t with
                | Some cause => [failureEntry file cause]
                | None => []
                end.
Proof.
  unfold uploadTask, sentEntry. intros Hreport Hrun.
  destruct (UploadFile c true ctxErr (callEnv env)) as [[res evs]|];
    [|discriminate].
  injection Hrun as <-. simpl. rewrite Hreport.
  destruct res; reflexivity.
Qed.

Lemma spawn_entries (files : list string) :
  forall (k : nat) (results : list TaskResult),
    (forall i, (i < length files)%nat ->
               reportSelect (envOf (k + i)%nat) = CaseProceed) ->
    waitAll (spawn c hasCallback ctxErr envOf k files) = Some results ->
    List.flat_map sentEntry results = failureEntries files results.
Proof.
  induction files as [|file0 files IH]; intros k results Hreport Hwait.
  - injection Hwait as <-. reflexivity.
  - simpl in Hwait.
    destruct (uploadTask c hasCallback ctxErr file0 (envOf k))
      as [t0|] eqn:Htask; [|discriminate].
    destruct (waitAll (spawn c hasCallback ctxErr envOf (S k) files))
      as [ts|] eqn:Hrest; [|discriminate].
    injection Hwait as <-.
    assert (Hrec : List.flat_map sentEntry ts = failureEntries files ts).
    { apply (IH (S k)); [|exact Hrest].
      intros i Hi. replace (S k + i)%nat with (k + S i)%nat by lia.
      apply Hreport. simpl. lia. }
    simpl. rewrite Hrec.
    rewrite (uploadTask_sent file0 (envOf k) t0); [|
      rewrite <- (Nat.add_0_r k); apply Hreport; simpl; lia | exact Htask].
    destruct (trErr t0); reflexivity.
Qed.

Lemma failureEntries_In (files : list string) :
  forall (results : list TaskResult) (i : nat) (file : string)
         (t : TaskResult) (cause : error),
    files !! i = Some file ->
    results !! i = Some t ->
    trErr t = Some cause ->
    In (failureEntry file cause) (failureEntries files results).
Proof.
  induction files as [|file0 files IH];
    intros results i file t cause Hfile Ht Hcause; [destruct i; discriminate|].
  destruct results as [|t0 results]; [destruct i; discriminate|].
  destruct i as [|i].
  - injection Hfile as ->. injection Ht as ->.
    simpl. rewrite Hcause. left. reflexivity.
  - simpl. pose proof (IH results i file t cause Hfile Ht Hcause) as Hin.
    destruct (trErr t0); [right|]; exact Hin.
Qed.

End Batch.

(** The sentence on batches as the specification words it fails on the
    code: a failure whose report races with the cancellation of the batch is
    dropped. *)
Lemma batch_lists_every_failure_fails : ~ Spec.batch_lists_every_failure.
Proof.
  intros H.
  destruct (H (Scenario.withRetries 0) false Scenario.canceled
              Scenario.batchFiles (Scenario.batchEnv Client.CaseCtxDone)
              [0%nat; 1%nat] _ _ ltac:(discriminate)
              (Permutation_refl _) eq_refl
              1%nat "missing.bin" _ _ eq_refl eq_refl eq_refl)
    as (composite & Hres & _).
  discriminate Hres.
Qed.

(** C7.  The failures of a batch are to be collected into one composite
    error.  In a batch that is cancelled before any file gets a slot, every
    upload fails with the cancellation error; each goroutine then reports
    through a [select] whose other case, [<-ctx.Done ()], is ready as well,
    and when that case is taken the failure is dropped: the batch returns
    nil although no file was uploaded. *)
Example cancelled_batch_returns_nil :
  Client.UploadMultipleFiles (Scenario.withRetries 0) false Scenario.canceled
    Scenario.batchFiles Cases.cancelledTask [0%nat; 1%nat]
  = Some (None,
          [ Client.mkTaskResult (Some Scenario.canceled) None [];
            Client.mkTaskResult (Some Scenario.canceled) None [] ]).
Proof. reflexivity. Qed.

(** A failure whose own report is not lost to the cancellation of the batch
    is listed in the composite error, with its path and its cause, whatever
    becomes of the other files and of their reports. *)
Theorem reported_failure_is_listed (c : Client.ClientConfig)
    (hasCallback : bool) (ctxErr : error) (files : list string)
    (envOf : nat -> Client.TaskEnv) (order : list nat)
    (res : option error) (results : list Client.TaskResult)
    (i : nat) (file : string) (t : Client.TaskResult) (cause : error) :
  Permutation order (seq 0 (length files)) ->
  Client.UploadMultipleFiles c hasCallback ctxErr files envOf order
    = Some (res, results) ->
  files !! i = Some file ->
  results !! i = Some t ->
  Client.trErr t = Some cause ->
  Client.reportSelect (envOf i) = Client.CaseProceed ->
  exists composite,
    res = Some composite
    /\ Contains (Error composite) (Spec.failureEntry file cause) = true.
Proof.
  intros Hperm Hrun Hfile Ht Hcause Hreport.
  unfold Client.UploadMultipleFiles in Hrun.
  pose proof (lookup_lt_Some _ _ _ Hfile) as Hi.
  replace (length files =? 0)%nat with false in Hrun
    by (symmetry; apply Nat.eqb_neq; lia).
  destruct (Client.waitAll
              (Client.spawn c hasCallback ctxErr envOf 0 files))
    as [rs|] eqn:Hwait; [|discriminate].
  destruct (spawn_results c hasCallback ctxErr envOf files 0 rs Hwait)
    as (_ & Hown).
  destruct (Hown i file Hfile) as (t' & Ht' & Htask).
  assert (Hres : res = match Client.drain rs order with
                       | [] => None
                       | _ :: _ =>
                           Some (errorString
                                   ("ошибки при загрузке файлов: "
                                    +:+ Join (Client.drain rs order) "; "))
                       end /\ results = rs).
  { destruct (Client.drain rs order); simpl in Hrun;
      injection Hrun as <- <-; split; reflexivity. }
  destruct Hres as (Hres & ->). clear Hrun.
  rewrite Ht in Ht'. injection Ht' as <-.
  pose proof (uploadTask_sent c hasCallback ctxErr file (envOf i) t
                Hreport Htask) as Hsent.
  rewrite Hcause in Hsent.
  assert (Hin : In (Spec.failureEntry file cause) (Client.drain rs order)).
  { rewrite drain_eq. apply in_flat_map. exists i. split.
    - apply (Permutation_in _ (Permutation_sym Hperm)), in_seq. lia.
    - rewrite nth_error_lookup, Ht, Hsent. left. reflexivity. }
  destruct (Client.drain rs order) as [|e es] eqn:Hdrain; [destruct Hin|].
  eexists. split; [exact Hres|].
  cbn [Error]. apply Contains_app_l, Contains_Join, Hin.
Qed.

Lemma reported_failure_is_listed_witness :
  exists composite cause,
    Client.UploadMultipleFiles (Scenario.withRetries 0) false
      Scenario.canceled Scenario.batchFiles Cases.cancelledFirst
      [1%nat; 0%nat]
    = Some (Some composite,
            [ Client.mkTaskResult (Some Scenario.canceled) None [];
              Client.mkTaskResult (Some cause)
                (Some (Errorf_w "ошибка загрузки файла missing.bin: "
                         cause))
                [Client.EvAcquire; Client.EvAttempt 0; Client.EvRelease] ])
    /\ Contains (Error composite) (Spec.failureEntry "missing.bin" cause)
       = true.
Proof.
  destruct (reported_failure_is_listed (Scenario.withRetries 0) false
              Scenario.canceled Scenario.batchFiles Cases.cancelledFirst
              [1%nat; 0%nat] _ _ 1%nat "missing.bin" _ _
              (perm_swap 0%nat 1%nat []) eq_refl eq_refl eq_refl eq_refl
              eq_refl)
    as (composite & Hres & Hin).
  injection Hres as <-.
  do 2 eexists. split; [reflexivity | exact Hin].
Defined.

(** ** The semaphore *)

Section LimiterFacts.

Import Limiter.

Lemma holders_insert (l : list Phase) :
  forall (i : nat) (p q : Phase),
    l !! i = Some p ->
    Z.of_nat (length (List.filter isHolding (<[i := q]> l)))
    = Z.of_nat (length (List.filter isHolding l))
      - (if isHolding p then 1 else 0) + (if isHolding q then 1 else 0).
Proof.
  induction l as [|x l IH]; intros i p q Hi; [destruct i; discriminate|].
  destruct i as [|i].
  - injection Hi as ->. simpl.
    destruct (isHolding p), (isHolding q); simpl; lia.
  - simpl in Hi |- *. specialize (IH i p q Hi).
    destruct (isHolding x); simpl; lia.
Qed.

Lemma holders_call (l : list Phase) :
  List.filter isHolding (l ++ [Waiting]) = List.filter isHolding l.
Proof. rewrite List.filter_app. simpl. apply app_nil_r. Qed.

Lemma step_balanced (cl cl' : HTTPClient) (m : Move) :
  balanced cl -> step cl m = Some cl' ->
  balanced cl' /\ semCap cl' = semCap cl.
Proof.
  unfold balanced, holders. intros (Hlen & Hcap) Hstep.
  destruct m as [|i|i|i]; simpl in Hstep.
  - injection Hstep as <-. simpl. rewrite holders_call. auto.
  - destruct (sessions cl !! i) as [[| |]|] eqn:Hi; try discriminate.
    destruct (semLen cl <? semCap cl) eqn:Hroom; [|discriminate].
    apply Z.ltb_lt in Hroom. injection Hstep as <-. simpl.
    rewrite (holders_insert _ _ _ _ Hi). simpl. split; [split|]; lia.
  - destruct (sessions cl !! i) as [[| |]|] eqn:Hi; try discriminate.
    injection Hstep as <-. simpl.
    rewrite (holders_insert _ _ _ _ Hi). simpl. split; [split|]; lia.
  - destruct (sessions cl !! i) as [[| |]|] eqn:Hi; try discriminate.
    destruct (0 <? semLen cl) eqn:Hpos; [|discriminate].
    injection Hstep as <-. simpl.
    rewrite (holders_insert _ _ _ _ Hi). simpl. split; [split|]; lia.
Qed.

Lemma run_balanced (ms : list Move) :
  forall cl cl', balanced cl -> run cl ms = Some cl' ->
                 balanced cl' /\ semCap cl' = semCap cl.
Proof.
  induction ms as [|m ms IH]; intros cl cl' Hbal Hrun; simpl in Hrun.
  - injection Hrun as <-. auto.
  - destruct (step cl m) as [cl1|] eqn:Hstep; [|discriminate].
    destruct (step_balanced _ _ _ Hbal Hstep) as (Hbal1 & Hcap1).
    destruct (IH _ _ Hbal1 Hrun) as (Hbal' & Hcap').
    split; [exact Hbal' | congruence].
Qed.

End LimiterFacts.

(** C10.  Through one client made with [MaxConcurrency = k], at no point of
    any run (a batch of [N] files, followed by whatever the goroutines and
    later calls do, in any interleaving) do more than [k] sessions hold a
    slot.  Every point of a run is the end of a shorter run, so the bound is
    stated for the state a run ends in. *)
Theorem slots_never_exceed_capacity (numCPU : Z) (cfg : Client.ClientConfig)
    (N : nat) (ms : list Limiter.Move) (cl : Limiter.HTTPClient) :
  0 <= Client.MaxConcurrency cfg ->
  Limiter.run (Limiter.NewHTTPClientWithConfig numCPU (Some cfg))
              (Limiter.batch N ++ ms) = Some cl ->
  Limiter.holders cl <= Client.MaxConcurrency cfg.
Proof.
  intros Hk Hrun.
  assert (Hinit : Limiter.balanced
                    (Limiter.NewHTTPClientWithConfig numCPU (Some cfg)))
    by (split; [reflexivity | exact Hk]).
  destruct (run_balanced _ _ _ Hinit Hrun) as ((Hlen & Hcap) & Hsame).
  rewrite <- Hlen. simpl in Hsame. lia.
Qed.

Lemma slots_never_exceed_capacity_witness :
  exists cl,
    Limiter.run
      (Limiter.NewHTTPClientWithConfig 8 (Some (Scenario.withRetries 0)))
      (Limiter.batch 3
       ++ [Limiter.Acquire 0; Limiter.Release 0; Limiter.Acquire 2])
    = Some cl
    /\ Limiter.holders cl <= 1.
Proof.
  eexists. split; [reflexivity|].
  apply (slots_never_exceed_capacity 8 (Scenario.withRetries 0) 3
           [Limiter.Acquire 0; Limiter.Release 0; Limiter.Acquire 2]);
    [simpl; lia | reflexivity].
Defined.

(** A send on a full channel does not proceed: with every slot taken, a
    waiting session cannot acquire. *)
Lemma acquire_refused_when_full (cl : Limiter.HTTPClient) (i : nat) :
  Limiter.balanced cl ->
  Limiter.holders cl = Limiter.semCap cl ->
  Limiter.step cl (Limiter.Acquire i) = None.
Proof.
  intros (Hlen & _) Hfull. simpl.
  destruct (Limiter.sessions cl !! i) as [[| |]|]; try reflexivity.
  replace (Limiter.semLen cl <? Limiter.semCap cl) with false;
    [reflexivity|].
  symmetry. apply Z.ltb_ge. lia.
Qed.

(** ** The receiving handler *)

Section HandlerFacts.

Import Server Spec.

Variable path : string.

Lemma append_known (data content : list Byte.byte) (fs : FS) :
  fs !! path = Some content ->
  append path data fs = <[path := content ++ data]> fs.
Proof. unfold append; intros ->; reflexivity. Qed.

(** The copy loop ends as the script says, and leaves in the destination
    what was there followed by every byte it wrote. *)
Lemma copyLoop_persists (script : list CopyStep) :
  forall (bytesReceived : Z) (fs : FS) (content : list Byte.byte),
    fs !! path = Some content ->
    match copyEnds script with
    | None => copyLoop path bytesReceived script fs = None
    | Some failed =>
        exists res n,
          copyLoop path bytesReceived script fs
          = Some (res, <[path := content ++ persisted script]> fs, n)
          /\ (if failed then res <> None else res = None)
    end.
Proof.
  induction script as [|st rest IH]; intros b fs content Hfile;
    [reflexivity|].
  destruct st as [data rerr wres]. simpl.
  destruct data as [|d data].
  - (* nothing read: nothing written *)
    change (0 <? Z.of_nat (length (@nil Byte.byte))) with false. cbv iota.
    assert (Hsame : <[path := content ++ []]> fs = fs)
      by (rewrite app_nil_r; apply insert_id, Hfile).
    assert (Hstep :
      match (match rerr with
             | ReadEOF => Some false
             | ReadFail _ => Some true
             | ReadNil => copyEnds rest
             end) with
      | None =>
          match rerr with
          | ReadEOF => Some (None, fs, b)
          | ReadFail err =>
              Some (Some ("Ошибка чтения файла: " +:+ Error err), fs, b)
          | ReadNil => copyLoop path b rest fs
          end = None
      | Some failed =>
          exists res n,
            match rerr with
            | ReadEOF => Some (None, fs, b)
            | ReadFail err =>
                Some (Some ("Ошибка чтения файла: " +:+ Error err), fs, b)
            | ReadNil => copyLoop path b rest fs
            end
            = Some (res,
                    <[path := content
                               ++ match rerr with
                                  | ReadNil => persisted rest
                                  | _ => []
                                  end]> fs, n)
            /\ (if failed then res <> None else res = None)
      end).
    { destruct rerr as [| |err].
      - apply IH, Hfile.
      - rewrite Hsame. eauto.
      - rewrite Hsame. eexists _, _. split; [reflexivity|discriminate]. }
    destruct wres; exact Hstep.
  - (* a chunk was read: it is written first *)
    change (0 <? Z.of_nat (length (d :: data))) with true. cbv iota.
    destruct wres as [|written werr].
    + rewrite (append_known _ content fs Hfile).
      set (fs1 := <[path := content ++ d :: data]> fs).
      assert (Hfile1 : fs1 !! path = Some (content ++ d :: data))
        by apply lookup_insert_eq.
      destruct rerr as [| |err].
      * specialize (IH (wrap64 (b + Z.of_nat (length (d :: data)))) fs1
                       _ Hfile1).
        destruct (copyEnds rest) as [failed|]; [|exact IH].
        destruct IH as (res & n & Hloop & Hres).
        exists res, n. split; [|exact Hres].
        rewrite Hloop. unfold fs1.
        rewrite insert_insert_eq, <- app_assoc. reflexivity.
      * eexists _, _.
        split; [rewrite app_nil_r; reflexivity | reflexivity].
      * eexists _, _.
        split; [rewrite app_nil_r; reflexivity | discriminate].
    + rewrite (append_known _ content fs Hfile).
      eexists _, _. split; [reflexivity|discriminate].
Qed.

End HandlerFacts.

(** C8.  The receiving handler answers 405 to every request that is not a
    POST; 400 to a POST whose multipart form cannot be parsed or has no
    [file] field; on a read or write failure in the middle of the stream it
    answers 500 and the destination file stays on disk with the bytes
    written up to the failure; when the stream ends it answers 200 with a
    confirmation naming the file, which is on disk in full. *)
Theorem handler_status_codes (Join : string -> string -> string)
    (r : Server.Request) (env : Server.HandlerEnv)
    (fs : gmap string (list Byte.byte)) :
  (Server.Method r <> "POST" ->
   Server.handleUpload Join r env fs
   = Some (Server.httpError "Метод не поддерживается" 405, fs))
  /\ (forall err,
        Server.Method r = "POST" ->
        Server.parseErr env = Some err ->
        Server.handleUpload Join r env fs
        = Some (Server.httpError ("Ошибка парсинга формы: " +:+ Error err)
                  400, fs))
  /\ (forall err,
        Server.Method r = "POST" ->
        Server.parseErr env = None ->
        Server.formFile env = inl err ->
        Server.handleUpload Join r env fs
        = Some (Server.httpError ("Ошибка получения файла: " +:+ Error err)
                  400, fs))
  /\ (forall header,
        Server.Method r = "POST" ->
        Server.parseErr env = None ->
        Server.formFile env = inr header ->
        Server.mkdirErr env = None ->
        Server.createErr env = None ->
        let filePath := Join Server.uploadDir (Server.Filename header) in
        (Spec.copyEnds (Server.copySteps env) = Some true ->
         exists msg fs',
           Server.handleUpload Join r env fs
           = Some (Server.httpError msg 500, fs')
           /\ fs' !! filePath
              = Some (Server.persisted (Server.copySteps env)))
        /\ (Spec.copyEnds (Server.copySteps env) = Some false ->
            exists fs',
              Server.handleUpload Join r env fs
              = Some (Server.mkRecorder 200
                        ("Файл " +:+ Server.Filename header
                         +:+ " успешно загружен"),
                      fs')
              /\ fs' !! filePath
                 = Some (Server.persisted (Server.copySteps env)))).
Proof.
  unfold Server.handleUpload.
  split; [|split; [|split]].
  - intros Hmethod. apply String.eqb_neq in Hmethod.
    rewrite Hmethod. reflexivity.
  - intros err Hmethod Hparse. apply String.eqb_eq in Hmethod.
    rewrite Hmethod, Hparse. reflexivity.
  - intros err Hmethod Hparse Hform. apply String.eqb_eq in Hmethod.
    rewrite Hmethod, Hparse, Hform. reflexivity.
  - intros header Hmethod Hparse Hform Hmkdir Hcreate.
    set (filePath := Join Server.uploadDir (Server.Filename header)).
    apply String.eqb_eq in Hmethod.
    rewrite Hmethod, Hparse, Hform, Hmkdir, Hcreate. simpl negb. cbv iota.
    pose proof (copyLoop_persists filePath (Server.copySteps env) 0
                  (Server.create filePath fs) []
                  (lookup_insert_eq fs filePath [])) as Hloop.
    assert (Hdisk : forall data : list Byte.byte,
               <[filePath := data]> (Server.create filePath fs) !! filePath
               = Some data)
      by (intros data; apply lookup_insert_eq).
    subst filePath.
    split; intros Hends; rewrite Hends in Hloop;
      destruct Hloop as (res & n & Hloop & Hres); rewrite Hloop.
    + destruct res as [msg|]; [|congruence].
      exists msg. eexists. split; [reflexivity | apply Hdisk].
    + subst res. eexists. split; [reflexivity | apply Hdisk].
Qed.

Lemma handler_status_codes_witness :
  Server.handleUpload Scenario.join Scenario.get Scenario.stored ∅
  = Some (Server.httpError "Метод не поддерживается" 405, ∅)
  /\ Server.handleUpload Scenario.join Scenario.post Scenario.brokenForm ∅
     = Some (Server.httpError "Ошибка парсинга формы: unexpected EOF" 400, ∅)
  /\ Server.handleUpload Scenario.join Scenario.post Scenario.noFileField ∅
     = Some (Server.httpError "Ошибка получения файла: http: no such file"
               400, ∅)
  /\ (exists msg fs',
         Server.handleUpload Scenario.join Scenario.post Scenario.diskFull ∅
         = Some (Server.httpError msg 500, fs')
         /\ fs' !! "uploads/data.bin"
            = Some [Byte.x01; Byte.x02; Byte.x03; Byte.x04])
  /\ (exists fs',
         Server.handleUpload Scenario.join Scenario.post Scenario.stored ∅
         = Some (Server.mkRecorder 200 "Файл data.bin успешно загружен", fs')
         /\ fs' !! "uploads/data.bin"
            = Some [Byte.x01; Byte.x02; Byte.x03; Byte.x04; Byte.x05]).
Proof.
  split; [|split; [|split; [|split]]].
  - apply (proj1 (handler_status_codes Scenario.join Scenario.get
                    Scenario.stored ∅)).
    discriminate.
  - apply (proj1 (proj2 (handler_status_codes Scenario.join Scenario.post
                           Scenario.brokenForm ∅))
             (errorString "unexpected EOF")); reflexivity.
  - apply (proj1 (proj2 (proj2 (handler_status_codes Scenario.join
                                  Scenario.post Scenario.noFileField ∅)))
             (errorString "http: no such file")); reflexivity.
  - apply (proj1 (proj2 (proj2 (proj2 (handler_status_codes Scenario.join
                                         Scenario.post Scenario.diskFull ∅)))
                    Scenario.dataHeader eq_refl eq_refl eq_refl eq_refl
                    eq_refl)).
    reflexivity.
  - apply (proj2 (proj2 (proj2 (proj2 (handler_status_codes Scenario.join
                                         Scenario.post Scenario.stored ∅)))
                    Scenario.dataHeader eq_refl eq_refl eq_refl eq_refl
                    eq_refl)).
    reflexivity.
Defined.

(* ===================================================================== *)
(** * Further properties of the code *)
(* ===================================================================== *)

(** ** The retry loop and the slot *)

Section CallFacts.

Import Client Spec Words.

Variable c : ClientConfig.
Variable hasCallback : bool.
Variable ctxErr : error.

Lemma attemptsMade_attempt (attempt : Z) (r : AttemptResult)
    (env : AttemptEnv) (evs : list Event) :
  uploadFileOnce hasCallback ctxErr env = Some r ->
  attemptsMade (EvAttempt attempt :: arEvents r ++ evs)
  = S (attemptsMade evs).
Proof.
  intros Hrun.
  change (EvAttempt attempt :: arEvents r ++ evs)
    with ([EvAttempt attempt] ++ arEvents r ++ evs).
  rewrite !attemptsMade_app, (uploadFileOnce_no_attempt _ _ _ _ Hrun).
  reflexivity.
Qed.

Lemma retryLoop_bound (script : list AttemptScript) :
  forall (attempt : Z) (lastErr res : option error) (evs : list Event),
    0 <= attempt ->
    RetryAttempts c < 2 ^ 63 - 1 ->
    retryLoop c hasCallback ctxErr attempt lastErr script = Some (res, evs) ->
    Z.of_nat (attemptsMade evs) <= Z.max 0 (RetryAttempts c + 1 - attempt).
Proof.
  induction script as [|s rest IH];
    intros attempt lastErr res evs Hge Hmax Hrun;
    rewrite retryLoop_eq in Hrun;
    destruct (attempt <=? RetryAttempts c) eqn:Hle;
    try (injection Hrun as <- <-; apply Z.le_max_l); try discriminate.
  apply Z.leb_le in Hle.
  destruct (if 0 <? attempt then delaySelect s else CaseProceed);
    [|injection Hrun as <- <-; apply Z.le_max_l].
  destruct (uploadFileOnce hasCallback ctxErr (attemptEnv s))
    as [r|] eqn:Hattempt; [|discriminate].
  cbv zeta in Hrun.
  pose proof (attemptsMade_attempt attempt r _ [] Hattempt) as Hone.
  rewrite app_nil_r in Hone.
  destruct (arErr r) as [err|].
  - destruct (isPermanentError (Some err)).
    + injection Hrun as <- <-. rewrite Hone. change (attemptsMade []) with 0%nat. lia.
    + rewrite (wrap64_id (attempt + 1)) in Hrun
        by (unfold int64_range; lia).
      destruct (retryLoop c hasCallback ctxErr (attempt + 1) (Some err) rest)
        as [[res' evs']|] eqn:Hrest; [|discriminate].
      injection Hrun as <- <-.
      rewrite (attemptsMade_attempt attempt r _ evs' Hattempt).
      assert (Hnext : 0 <= attempt + 1) by lia.
      specialize (IH _ _ _ _ Hnext Hmax Hrest). lia.
  - injection Hrun as <- <-. rewrite Hone. change (attemptsMade []) with 0%nat. lia.
Qed.

Lemma retryLoop_no_slot_event (script : list AttemptScript) :
  forall (attempt : Z) (lastErr res : option error) (evs : list Event),
    retryLoop c hasCallback ctxErr attempt lastErr script = Some (res, evs) ->
    Forall (fun ev => isSlotEvent ev = false) evs.
Proof.
  induction script as [|s rest IH]; intros attempt lastErr res evs Hrun;
    rewrite retryLoop_eq in Hrun;
    destruct (attempt <=? RetryAttempts c);
    try (injection Hrun as <- <-; constructor); try discriminate.
  destruct (if 0 <? attempt then delaySelect s else CaseProceed);
    [|injection Hrun as <- <-; constructor].
  destruct (uploadFileOnce hasCallback ctxErr (attemptEnv s))
    as [r|] eqn:Hattempt; [|discriminate].
  cbv zeta in Hrun.
  assert (Hevs : Forall (fun ev => isSlotEvent ev = false)
                        (EvAttempt attempt :: arEvents r)).
  { constructor; [reflexivity|].
    eapply Forall_impl; [exact (uploadFileOnce_events _ _ _ _ Hattempt)|].
    intros ev [->|Hev]; [reflexivity|]. destruct ev; try discriminate;
      reflexivity. }
  destruct (arErr r) as [err|].
  - destruct (isPermanentError (Some err)).
    + injection Hrun as <- <-. exact Hevs.
    + destruct (retryLoop c hasCallback ctxErr (wrap64 (attempt + 1))
                  (Some err) rest) as [[res' evs']|] eqn:Hrest;
        [|discriminate].
      injection Hrun as <- <-.
      change (EvAttempt attempt :: arEvents r ++ evs')
        with ((EvAttempt attempt :: arEvents r) ++ evs').
      apply Forall_app. split; [exact Hevs | exact (IH _ _ _ _ Hrest)].
  - injection Hrun as <- <-. exact Hevs.
Qed.

End CallFacts.

(** Whatever happens, a call makes at most [RetryAttempts + 1] attempts
    (none when [RetryAttempts] is negative). *)
Theorem attempts_never_exceed_limit (c : Client.ClientConfig)
    (hasCallback : bool) (ctxErr : error) (env : Client.CallEnv)
    (res : option error) (evs : list Client.Event) :
  Client.RetryAttempts c < 2 ^ 63 - 1 ->
  Client.UploadFile c hasCallback ctxErr env = Some (res, evs) ->
  Z.of_nat (Client.attemptsMade evs) <= Z.max 0 (Client.RetryAttempts c + 1).
Proof.
  unfold Client.UploadFile. intros Hmax Hrun.
  destruct (Client.semSelect env);
    [|injection Hrun as <- <-; apply Z.le_max_l].
  destruct (Client.retryLoop c hasCallback ctxErr 0 None (Client.attempts env))
    as [[res' evs']|] eqn:Hloop; [|discriminate].
  injection Hrun as <- <-.
  rewrite attemptsMade_call.
  pose proof (retryLoop_bound c hasCallback ctxErr _ _ _ _ _
                (Z.le_refl 0) Hmax Hloop).
  lia.
Qed.

Lemma attempts_never_exceed_limit_witness :
  Z.of_nat (Client.attemptsMade
              [Client.EvAcquire; Client.EvAttempt 0; Client.EvRelease])
  <= Z.max 0 (Client.RetryAttempts (Client.DefaultConfig 8) + 1).
Proof.
  apply (attempts_never_exceed_limit (Client.DefaultConfig 8) false
           Scenario.canceled (Scenario.always Scenario.missingFile 4)
           (Some (Client.finalError (Client.DefaultConfig 8)
                    (Some (Errorf_w "ошибка открытия файла: "
                             (errorString
                                "open /nonexistent/file.txt: no such file or directory"))))));
    [simpl; lia | reflexivity].
Defined.

(** The slot is given back on every return: a call that returns either
    never took the slot (cancelled while waiting: it returns the context's
    error and has done nothing), or took it first, released it last, and
    touched the semaphore at no other moment. *)
Theorem slot_released_on_every_return (c : Client.ClientConfig)
    (hasCallback : bool) (ctxErr : error) (env : Client.CallEnv)
    (res : option error) (evs : list Client.Event) :
  Client.UploadFile c hasCallback ctxErr env = Some (res, evs) ->
  (Client.semSelect env = Client.CaseCtxDone
   /\ res = Some ctxErr /\ evs = [])
  \/ (Client.semSelect env = Client.CaseProceed
      /\ exists inner,
           evs = Client.EvAcquire :: inner ++ [Client.EvRelease]
           /\ Forall (fun ev => Words.isSlotEvent ev = false) inner).
Proof.
  unfold Client.UploadFile. intros Hrun.
  destruct (Client.semSelect env).
  - right. split; [reflexivity|].
    destruct (Client.retryLoop c hasCallback ctxErr 0 None
                (Client.attempts env)) as [[res' evs']|] eqn:Hloop;
      [|discriminate].
    injection Hrun as <- <-. exists evs'. split; [reflexivity|].
    exact (retryLoop_no_slot_event c hasCallback ctxErr _ _ _ _ _ Hloop).
  - left. injection Hrun as <- <-. auto.
Qed.

Lemma slot_released_on_every_return_witness :
  (Client.CaseProceed = Client.CaseCtxDone
   /\ Some (Client.finalError (Scenario.withRetries 0)
              (Some (errorString "файл пустой"))) = Some Scenario.canceled
   /\ [Client.EvAcquire; Client.EvAttempt 0; Client.EvRelease] = [])
  \/ (Client.CaseProceed = Client.CaseProceed
      /\ exists inner,
           [Client.EvAcquire; Client.EvAttempt 0; Client.EvRelease]
           = Client.EvAcquire :: inner ++ [Client.EvRelease]
           /\ Forall (fun ev => Words.isSlotEvent ev = false) inner).
Proof.
  apply (slot_released_on_every_return (Scenario.withRetries 0) false
           Scenario.canceled (Scenario.always Scenario.emptyFile 1)).
  reflexivity.
Defined.

(** With a negative [RetryAttempts] the loop body never runs: the call
    takes and releases the slot, never opens the file, and returns an error
    that wraps nothing. *)
Theorem negative_retries_make_no_attempt (c : Client.ClientConfig)
    (hasCallback : bool) (ctxErr : error) (env : Client.CallEnv) :
  Client.RetryAttempts c < 0 ->
  Client.semSelect env = Client.CaseProceed ->
  exists err,
    Client.UploadFile c hasCallback ctxErr env
    = Some (Some err, [Client.EvAcquire; Client.EvRelease])
    /\ Unwrap err = None
    /\ Error err
       = ("загрузка не удалась после "
          +:+ itoa (wrap64 (Client.RetryAttempts c + 1))
          +:+ " попыток, последняя ошибка: ")
         +:+ "%!w(<nil>)".
Proof.
  intros Hneg Hsem. eexists.
  unfold Client.UploadFile. rewrite Hsem, retryLoop_eq.
  replace (0 <=? Client.RetryAttempts c) with false
    by (symmetry; apply Z.leb_gt; exact Hneg).
  split; [reflexivity|]. split; reflexivity.
Qed.

Lemma negative_retries_make_no_attempt_witness :
  exists err,
    Client.UploadFile (Scenario.withRetries (-1)) false Scenario.canceled
      (Scenario.always Scenario.uploaded 1)
    = Some (Some err, [Client.EvAcquire; Client.EvRelease])
    /\ Unwrap err = None
    /\ Error err
       = "загрузка не удалась после 0 попыток, последняя ошибка: %!w(<nil>)".
Proof.
  apply (negative_retries_make_no_attempt (Scenario.withRetries (-1)) false
           Scenario.canceled (Scenario.always Scenario.uploaded 1));
    [simpl; lia | reflexivity].
Defined.

(** ** Classification of the errors of an attempt *)

Section Classification.

Import Client Spec.

Variable hasCallback : bool.
Variable ctxErr : error.

Lemma marked_is_permanent (pfx marker : string) (cause : error) :
  In marker permanentErrors ->
  Contains pfx marker = true ->
  isPermanentError (Some (Errorf_w pfx cause)) = true.
Proof.
  intros Hin Hpfx. unfold isPermanentError. apply existsb_exists.
  exists marker. split; [exact Hin|].
  unfold Errorf_w. cbn [Error]. apply Contains_app_r, Hpfx.
Qed.

Lemma producerLoop_failure (fileSize : Z) (script : list ProducerStep) :
  forall (b : Z) (e : error),
    fst (producerLoop hasCallback ctxErr fileSize b script) = Some (Some e) ->
    e = ctxErr \/ isPermanentError (Some e) = true.
Proof.
  induction script as [|st rest IH]; intros b e Hfail; [discriminate|].
  destruct st as [|n err writeErr]; simpl in Hfail.
  - injection Hfail as <-. left. reflexivity.
  - destruct (if 0 <? n then writeErr else None) as [we|].
    + injection Hfail as <-. right.
      apply (marked_is_permanent _ "ошибка записи в pipe");
        [simpl; tauto | reflexivity].
    + destruct err as [| |cause].
      * set (b' := if 0 <? n then wrap64 (b + n) else b) in Hfail.
        specialize (IH b' e).
        destruct (producerLoop hasCallback ctxErr fileSize b' rest)
          as [d evs']. exact (IH Hfail).
      * discriminate.
      * injection Hfail as <-. right.
        apply (marked_is_permanent _ "ошибка чтения файла");
          [simpl; tauto | reflexivity].
Qed.

Lemma producerLoop_silent (fileSize : Z) (script : list ProducerStep) :
  forall b : Z, snd (producerLoop false ctxErr fileSize b script) = [].
Proof.
  induction script as [|st rest IH]; intros b; [reflexivity|].
  destruct st as [|n err writeErr]; [reflexivity|]. simpl.
  destruct (if 0 <? n then writeErr else None); [reflexivity|].
  rewrite andb_false_r.
  destruct err; try reflexivity.
  set (b' := if 0 <? n then wrap64 (b + n) else b).
  specialize (IH b').
  destruct (producerLoop false ctxErr fileSize b' rest) as [d evs'].
  exact IH.
Qed.

End Classification.

(** Five failures of an attempt are classified permanent whatever the text
    of the underlying error: [os.Open] fails; the size read is zero; and,
    when the round trip itself is answered and the attempt returns its
    producer's error, that error unless it is the context's own, that is
    [CreateFormFile] failed, a read failed, or a write into the pipe failed.
    (A failure of [file.Stat] is not one of them: its message carries no
    marker, so its classification depends on the text of the cause.) *)
Theorem local_failures_are_permanent (hasCallback : bool) (ctxErr : error)
    (env : Client.AttemptEnv) (r : Client.AttemptResult) (e : error) :
  Client.uploadFileOnce hasCallback ctxErr env = Some r ->
  Client.arErr r = Some e ->
  Client.openErr env <> None
  \/ (Client.openErr env = None /\ Client.statResult env = inr 0)
  \/ (Client.arResp r <> None /\ Client.arDone r = Some (Some e)
      /\ e <> ctxErr) ->
  Client.isPermanentError (Some e) = true.
Proof.
  unfold Client.uploadFileOnce. intros Hrun Herr Hkind. revert Hrun.
  destruct (Client.openErr env) as [cause|].
  { intros [= <-]. injection Herr as <-.
    apply (marked_is_permanent _ "ошибка открытия файла");
      [simpl; tauto | reflexivity]. }
  destruct Hkind as [Hopen|[(_ & Hstat)|(Hresp & Hdone & Hctx)]];
    [congruence| |].
  { rewrite Hstat. simpl. intros [= <-]. injection Herr as <-.
    reflexivity. }
  destruct (Client.statResult env) as [cause|fileSize];
    [intros [= <-]; simpl in Hresp; congruence|].
  destruct (fileSize =? 0);
    [intros [= <-]; simpl in Hresp; congruence|].
  unfold Client.producer.
  destruct (Client.createFormFileErr env) as [cause|].
  - destruct (Client.newRequestErr env);
      [intros [= <-]; simpl in Hresp; congruence|].
    destruct (Client.doResult env);
      [intros [= <-]; simpl in Hresp; congruence|].
    intros [= <-]. simpl in Hdone. injection Hdone as <-.
    apply (marked_is_permanent _ "ошибка создания поля формы");
      [simpl; tauto | reflexivity].
  - pose proof (producerLoop_failure hasCallback ctxErr fileSize
                  (Client.steps env) 0 e) as Hloop.
    destruct (Client.producerLoop hasCallback ctxErr fileSize 0
                (Client.steps env)) as [done evs].
    destruct (Client.newRequestErr env);
      [intros [= <-]; simpl in Hresp; congruence|].
    destruct (Client.doResult env);
      [intros [= <-]; simpl in Hresp; congruence|].
    destruct done as [[writeErr|]|]; [| |discriminate].
    + intros [= <-]. simpl in Hdone.
      destruct (Hloop Hdone) as [->|Hperm]; [congruence | exact Hperm].
    + destruct (negb (Client.StatusCode r0 =? Client.StatusOK));
        intros [= <-]; discriminate.
Qed.

Lemma local_failures_are_permanent_witness :
  Client.isPermanentError
    (Some (Errorf_w "ошибка чтения файла: "
             (errorString "input/output error"))) = true.
Proof.
  apply (local_failures_are_permanent true Scenario.canceled
           Scenario.readFailsServerAccepts
           (Client.mkAttemptResult
              (Some (Errorf_w "ошибка чтения файла: "
                       (errorString "input/output error")))
              [Client.EvDo;
               Client.EvProgress 3 5 (Client.percentage 3 5)]
              (Some (Some (Errorf_w "ошибка чтения файла: "
                             (errorString "input/output error"))))
              (Some (Client.mkResponse "200 OK" 200 "OK"))));
    [reflexivity | reflexivity |].
  right. right. split; [discriminate|]. split; [reflexivity|discriminate].
Defined.

(** Without a callback nothing is reported: a call made with a nil
    callback never invokes one, in any attempt. *)
Theorem nil_callback_never_invoked (c : Client.ClientConfig)
    (ctxErr : error) (env : Client.CallEnv) (res : option error)
    (evs : list Client.Event) :
  Client.UploadFile c false ctxErr env = Some (res, evs) ->
  Spec.reports evs = [].
Proof.
  assert (Hattempt : forall aenv r,
             Client.uploadFileOnce false ctxErr aenv = Some r ->
             Spec.reports (Client.arEvents r) = []).
  { unfold Client.uploadFileOnce, Client.producer. intros aenv r.
    destruct (Client.openErr aenv); [intros [= <-]; reflexivity|].
    destruct (Client.statResult aenv) as [cause|fileSize];
      [intros [= <-]; reflexivity|].
    destruct (fileSize =? 0); [intros [= <-]; reflexivity|].
    pose proof (producerLoop_silent ctxErr fileSize (Client.steps aenv) 0)
      as Hsilent.
    destruct (Client.createFormFileErr aenv).
    - destruct (Client.newRequestErr aenv); [intros [= <-]; reflexivity|].
      destruct (Client.doResult aenv); intros [= <-]; reflexivity.
    - destruct (Client.producerLoop false ctxErr fileSize 0
                  (Client.steps aenv)) as [done evs0].
      simpl in Hsilent. subst evs0.
      destruct (Client.newRequestErr aenv); [intros [= <-]; reflexivity|].
      destruct (Client.doResult aenv); [intros [= <-]; reflexivity|].
      destruct done as [[writeErr|]|]; [| |discriminate].
      + intros [= <-]. reflexivity.
      + destruct (negb (Client.StatusCode r0 =? Client.StatusOK));
          intros [= <-]; reflexivity. }
  assert (Hloop : forall script attempt lastErr res' evs',
             Client.retryLoop c false ctxErr attempt lastErr script
             = Some (res', evs') ->
             Spec.reports evs' = []).
  { induction script as [|s rest IH]; intros attempt lastErr res' evs' Hrun;
      rewrite retryLoop_eq in Hrun;
      destruct (attempt <=? Client.RetryAttempts c);
      try (injection Hrun as <- <-; reflexivity); try discriminate.
    destruct (if 0 <? attempt then Client.delaySelect s
              else Client.CaseProceed);
      [|injection Hrun as <- <-; reflexivity].
    destruct (Client.uploadFileOnce false ctxErr (Client.attemptEnv s))
      as [r|] eqn:Hrun1; [|discriminate].
    pose proof (Hattempt _ _ Hrun1) as Hnone. cbv zeta in Hrun.
    destruct (Client.arErr r) as [err|].
    - destruct (Client.isPermanentError (Some err)).
      + injection Hrun as <- <-. exact Hnone.
      + destruct (Client.retryLoop c false ctxErr (wrap64 (attempt + 1))
                    (Some err) rest) as [[res2 evs2]|] eqn:Hrest;
          [|discriminate].
        injection Hrun as <- <-.
        change (Spec.reports (Client.EvAttempt attempt
                              :: Client.arEvents r ++ evs2))
          with (Spec.reports (Client.arEvents r ++ evs2)).
        unfold Spec.reports in *. rewrite List.flat_map_app, Hnone.
        exact (IH _ _ _ _ Hrest).
    - injection Hrun as <- <-. exact Hnone. }
  unfold Client.UploadFile. intros Hrun.
  destruct (Client.semSelect env); [|injection Hrun as <- <-; reflexivity].
  destruct (Client.retryLoop c false ctxErr 0 None (Client.attempts env))
    as [[res' evs']|] eqn:Hrun'; [|discriminate].
  injection Hrun as <- <-.
  change (Spec.reports (Client.EvAcquire :: evs' ++ [Client.EvRelease]))
    with (Spec.reports (evs' ++ [Client.EvRelease])).
  unfold Spec.reports in *. rewrite List.flat_map_app, (Hloop _ _ _ _ _ Hrun').
  reflexivity.
Qed.

Lemma nil_callback_never_invoked_witness :
  Spec.reports
    [Client.EvAcquire; Client.EvAttempt 0; Client.EvDo; Client.EvRelease]
  = [].
Proof.
  apply (nil_callback_never_invoked (Scenario.withRetries 0)
           Scenario.canceled (Scenario.always Scenario.uploaded 1) None).
  reflexivity.
Defined.

(** ** Directories *)

Section DirectoryFacts.

Import Client Directory.

Variable Join : string -> string -> string.

Lemma regularFiles_length (dirPath : string) (entries : list DirEntry) :
  length (regularFiles Join dirPath entries)
  = length (List.filter (fun entry => negb (IsDir entry)) entries).
Proof.
  induction entries as [|entry rest IH]; [reflexivity|].
  simpl. destruct (negb (IsDir entry)); simpl; congruence.
Qed.

Lemma regularFiles_none (dirPath : string) (entries : list DirEntry) :
  Forall (fun entry => IsDir entry = true) entries ->
  regularFiles Join dirPath entries = [].
Proof.
  induction 1 as [|entry rest Hdir _ IH]; [reflexivity|].
  simpl. rewrite Hdir. exact IH.
Qed.

End DirectoryFacts.

(** A directory that holds no regular file (it is empty, or holds only
    subdirectories) is refused with the empty-list error before anything is
    uploaded: subdirectories are not descended into. *)
Theorem directory_without_files_refused (Join : string -> string -> string)
    (c : Client.ClientConfig) (hasCallback : bool) (ctxErr : error)
    (dirPath : string) (entries : list Directory.DirEntry)
    (envOf : nat -> Client.TaskEnv) (order : list nat) :
  Forall (fun entry => Directory.IsDir entry = true) entries ->
  Directory.UploadDirectory Join c hasCallback ctxErr dirPath (inr entries)
    envOf order
  = Some (Some (errorString "список файлов пуст"), []).
Proof.
  intros Hdirs. unfold Directory.UploadDirectory.
  rewrite (regularFiles_none Join dirPath entries Hdirs). reflexivity.
Qed.

Lemma directory_without_files_refused_witness :
  Directory.UploadDirectory Scenario.join (Scenario.withRetries 0) false
    Scenario.canceled "test_files"
    (inr [Directory.mkDirEntry "nested" true])
    (Scenario.batchEnv Client.CaseProceed) [0%nat]
  = Some (Some (errorString "список файлов пуст"), []).
Proof.
  apply (directory_without_files_refused Scenario.join
           (Scenario.withRetries 0) false Scenario.canceled "test_files"
           [Directory.mkDirEntry "nested" true]).
  repeat constructor.
Defined.

(** A directory upload that returns has run exactly one upload per entry
    that is not a directory. *)
Theorem directory_uploads_one_task_per_file
    (Join : string -> string -> string) (c : Client.ClientConfig)
    (hasCallback : bool) (ctxErr : error) (dirPath : string)
    (entries : list Directory.DirEntry) (envOf : nat -> Client.TaskEnv)
    (order : list nat) (res : option error)
    (results : list Client.TaskResult) :
  Directory.UploadDirectory Join c hasCallback ctxErr dirPath (inr entries)
    envOf order = Some (res, results) ->
  length results
  = length (List.filter (fun entry => negb (Directory.IsDir entry)) entries).
Proof.
  unfold Directory.UploadDirectory, Client.UploadMultipleFiles.
  rewrite <- (regularFiles_length Join dirPath entries).
  destruct (Directory.regularFiles Join dirPath entries) as [|file files]
    eqn:Hfiles.
  - intros [= <- <-]. reflexivity.
  - rewrite <- Hfiles.
    replace (length (Directory.regularFiles Join dirPath entries) =? 0)%nat
      with false by (rewrite Hfiles; reflexivity).
    destruct (Client.waitAll
                (Client.spawn c hasCallback ctxErr envOf 0
                   (Directory.regularFiles Join dirPath entries)))
      as [rs|] eqn:Hwait; [|discriminate].
    destruct (spawn_results c hasCallback ctxErr envOf _ 0 rs Hwait)
      as (Hlen & _).
    destruct (0 <? length (Client.drain rs order))%nat;
      intros [= <- <-]; exact Hlen.
Qed.

Lemma directory_uploads_one_task_per_file_witness :
  length
    [ Client.mkTaskResult None None
        [Client.EvAcquire; Client.EvAttempt 0; Client.EvDo;
         Client.EvRelease] ]
  = length (List.filter (fun entry => negb (Directory.IsDir entry))
              Cases.listing).
Proof.
  apply (directory_uploads_one_task_per_file Scenario.join
           (Scenario.withRetries 0) false Scenario.canceled "test_files"
           Cases.listing (Scenario.batchEnv Client.CaseProceed) [0%nat]
           None).
  reflexivity.
Defined.

(** ** Progress lines on the console *)

Section ConsoleFacts.

Import Console.

Variable clock : nat -> Tick.

Hypothesis clock_reads_in_order :
  forall i, sinceNow (clock i) <= storeNow (clock i).
Hypothesis clock_monotone :
  forall i j, (i < j)%nat -> storeNow (clock i) <= sinceNow (clock j).
Hypothesis clock_in_range :
  forall i, 0 <= sinceNow (clock i) /\ storeNow (clock i) < 2 ^ 62.

Lemma Sub_exact (t u : Z) :
  0 <= u -> u <= t -> t < 2 ^ 62 -> Sub t u = t - u.
Proof. unfold Sub, minDuration, maxDuration. lia. Qed.

Lemma progressCallback_spaced (calls : list (Z * Z * Q)) :
  forall (i : nat) (lastUpdate : option Z),
    (forall t j, lastUpdate = Some t -> (i <= j)%nat ->
                 0 <= t <= sinceNow (clock j)) ->
    spaced Client.Second
      (List.map printedAt (progressCallback clock i lastUpdate calls))
    /\ forall t p rest,
         lastUpdate = Some t ->
         progressCallback clock i lastUpdate calls = p :: rest ->
         Client.Second <= printedAt p - t.
Proof.
  induction calls as [|[[b total] pct] calls IH]; intros i lastUpdate Hlast.
  - split; [exact I|]. intros t p rest _ Hnil. discriminate.
  - simpl.
    destruct (clock_in_range i) as (Hlo & Hhi).
    pose proof (clock_reads_in_order i) as Hread.
    destruct (Client.Second <=? elapsed (sinceNow (clock i)) lastUpdate)
      eqn:Hgap.
    + apply Z.leb_le in Hgap.
      destruct (IH (S i) (Some (storeNow (clock i)))) as (Hsp & Hfirst).
      { intros t j [= <-] Hj. split; [lia|]. apply clock_monotone. lia. }
      split.
      * simpl.
        destruct (progressCallback clock (S i) (Some (storeNow (clock i)))
                    calls) as [|p rest] eqn:Hrest; [exact I|].
        split; [|exact Hsp].
        exact (Hfirst _ p rest eq_refl eq_refl).
      * intros t p rest -> [= <- _]. simpl.
        destruct (Hlast t i eq_refl (le_n i)) as (Ht0 & Ht).
        unfold elapsed in Hgap.
        rewrite Sub_exact in Hgap by lia. lia.
    + destruct (IH (S i) lastUpdate) as (Hsp & Hfirst).
      { intros t j Ht Hj. apply (Hlast t j Ht). lia. }
      split; [exact Hsp|]. exact Hfirst.
Qed.

End ConsoleFacts.

(** [UploadFileWithProgress] prints at most one progress line per second:
    on a clock that does not run backwards, any two consecutive lines are
    at least one second apart (reports that come sooner, the last one
    included, are not shown). *)
Theorem progress_lines_one_second_apart (c : Client.ClientConfig)
    (ctxErr : error) (env : Client.CallEnv) (clock : nat -> Console.Tick)
    (res : option error) (lines : list Console.Printed) (closing : string) :
  (forall i, Console.sinceNow (clock i) <= Console.storeNow (clock i)) ->
  (forall i j, (i < j)%nat ->
               Console.storeNow (clock i) <= Console.sinceNow (clock j)) ->
  (forall i, 0 <= Console.sinceNow (clock i)
             /\ Console.storeNow (clock i) < 2 ^ 62) ->
  Console.UploadFileWithProgress c ctxErr env clock
    = Some (res, lines, closing) ->
  Console.spaced Client.Second (List.map Console.printedAt lines).
Proof.
  intros Horder Hmono Hrange. unfold Console.UploadFileWithProgress.
  destruct (Client.UploadFile c true ctxErr env) as [[res' evs]|];
    [|discriminate].
  intros [= <- <- <-].
  apply (progressCallback_spaced clock Horder Hmono Hrange).
  intros t j Hnone. discriminate.
Qed.

Lemma progress_lines_one_second_apart_witness :
  Console.spaced Client.Second
    (List.map Console.printedAt
       [ Console.mkPrinted 0 (Client.percentage 2 8) 2 8;
         Console.mkPrinted 1200000000 (Client.percentage 8 8) 8 8 ]).
Proof.
  apply (progress_lines_one_second_apart (Scenario.withRetries 0)
           Scenario.canceled (Scenario.always Cases.eightBytes 1)
           Cases.everyFourTenths None
           [ Console.mkPrinted 0 (Client.percentage 2 8) 2 8;
             Console.mkPrinted 1200000000 (Client.percentage 8 8) 8 8 ]
           (Console.newline +:+ "Загрузка завершена успешно!"
            +:+ Console.newline)).
  - intros i. unfold Cases.everyFourTenths. simpl. lia.
  - intros i j Hij. unfold Cases.everyFourTenths. simpl. lia.
  - intros i. unfold Cases.everyFourTenths. simpl. lia.
  - reflexivity.
Defined.

(** ** Progress lines of the receiving handler *)

Section ReceiveFacts.

Import Server Receive.

Lemma copyReports_total (contentLength : Z) (script : list CopyStep) :
  forall bytesReceived : Z,
    Forall (fun call => snd (fst call) = contentLength /\ 0 < contentLength)
           (copyReports contentLength bytesReceived script).
Proof.
  induction script as [|st rest IH]; intros b; simpl; [constructor|].
  destruct (if 0 <? Z.of_nat (length (chunk st)) then writeRes st
            else WriteOk); [|constructor].
  set (b' := if 0 <? Z.of_nat (length (chunk st))
             then wrap64 (b + Z.of_nat (length (chunk st))) else b).
  assert (Hcalls :
    Forall (fun call => snd (fst call) = contentLength /\ 0 < contentLength)
      (if (0 <? Z.of_nat (length (chunk st))) && (0 <? contentLength)
       then [(b', contentLength, Client.percentage b' contentLength)]
       else [])).
  { destruct (0 <? Z.of_nat (length (chunk st))); simpl; [|constructor].
    destruct (0 <? contentLength) eqn:Hpos; constructor; [|constructor].
    simpl. split; [reflexivity|]. apply Z.ltb_lt, Hpos. }
  destruct (readErr st); try exact Hcalls.
  apply Forall_app. split; [exact Hcalls | apply IH].
Qed.

Variable clock : nat -> Z.

Hypothesis clock_monotone : forall i j, (i <= j)%nat -> clock i <= clock j.
Hypothesis clock_in_range : forall i, 0 <= clock i < 2 ^ 62.

(** The bytes the last line shows, or those of the meter when there is no
    line. *)
Lemma progressCallback_lines (calls : list (Z * Z * Q)) :
  Forall (fun call => 0 <= fst (fst call) < 2 ^ 63) calls ->
  forall (i : nat) (m : Meter),
    lastUpdate m = lastUpdateTime m ->
    0 <= lastBytesReceived m < 2 ^ 63 ->
    (forall t, lastUpdate m = Some t -> 0 <= t <= clock i) ->
    let lines := progressCallback clock i m calls in
    Console.spaced Client.Second (List.map lineAt lines)
    /\ (forall t l rest, lastUpdate m = Some t -> lines = l :: rest ->
                         Client.Second <= lineAt l - t)
    /\ Forall (fun l => Client.Second <= timeDiff l) lines
    /\ Spec.sumZ (List.map bytesDiff lines)
       = match last lines with
         | Some l => lineBytes l
         | None => lastBytesReceived m
         end - lastBytesReceived m.
Proof.
  induction 1 as [|[[b total] pct] calls Hb _ IH];
    intros i m Hsame Hlast Hpast.
  - simpl. repeat split; try constructor.
    + intros t l rest _ Hnil. discriminate.
    + unfold Spec.sumZ. simpl. lia.
  - simpl in Hb. cbn [progressCallback]. cbv zeta.
    pose proof (clock_in_range i) as Hi.
    assert (Hnext : forall t, Some (clock i) = Some t ->
                              0 <= t <= clock (S i)).
    { intros t [= <-]. split; [lia|]. apply clock_monotone. lia. }
    destruct (Client.Second <=? Console.elapsed (clock i) (lastUpdate m))
      eqn:Hgap.
    + apply Z.leb_le in Hgap. rewrite <- Hsame.
      replace (0 <? Console.elapsed (clock i) (lastUpdate m)) with true
        by (symmetry; apply Z.ltb_lt; unfold Client.Second in Hgap; lia).
      assert (Hdiff : wrap64 (b - lastBytesReceived m)
                      = b - lastBytesReceived m)
        by (apply wrap64_id; unfold int64_range; lia).
      rewrite Hdiff.
      destruct (IH (S i) (mkMeter (Some (clock i)) b (Some (clock i)))
                  eq_refl Hb Hnext) as (Hsp & Hfirst & Hdiffs & Hsum).
      simpl in Hsp, Hfirst, Hdiffs, Hsum.
      set (rest := progressCallback clock (S i)
                     (mkMeter (Some (clock i)) b (Some (clock i))) calls)
        in *.
      split; [|split; [|split]].
      * simpl. destruct rest as [|l rest'] eqn:Hrest; [exact I|].
        split; [|exact Hsp].
        exact (Hfirst _ l rest' eq_refl eq_refl).
      * intros t l rest' Ht [= <- _]. simpl.
        destruct (Hpast t Ht) as (Ht0 & Ht1).
        rewrite Ht in Hgap. unfold Console.elapsed in Hgap.
        rewrite Sub_exact in Hgap by lia. lia.
      * constructor; [exact Hgap | exact Hdiffs].
      * cbn [List.map bytesDiff]. rewrite sumZ_cons, Hsum.
        destruct rest as [|l rest']; simpl; [lia|].
        destruct (last (l :: rest')) as [l0|] eqn:Hl0; [lia|].
        apply last_None in Hl0. discriminate.
    + destruct (IH (S i) m Hsame Hlast) as (Hsp & Hfirst & Hdiffs & Hsum).
      { intros t Ht. destruct (Hpast t Ht) as (Ht0 & Ht1).
        split; [lia|].
        pose proof (clock_monotone i (S i) (Nat.le_succ_diag_r i)). lia. }
      repeat split; assumption.
Qed.

End ReceiveFacts.

(** The receiving handler reports against [Content-Length] when the request
    declares a positive one, else against the size in the multipart header
    when that is positive; every report carries that total; and when
    neither is positive no progress line is printed at all, whatever is
    received. *)
Theorem handler_reports_against_declared_size (r : Server.Request)
    (header : Server.FileHeader) (script : list Server.CopyStep) :
  Forall (fun call => snd (fst call) = Receive.expectedSize r header
                      /\ 0 < Receive.expectedSize r header)
         (Receive.copyReports (Receive.expectedSize r header) 0 script)
  /\ (0 < Server.ContentLength r ->
      Receive.expectedSize r header = Server.ContentLength r)
  /\ (Server.ContentLength r <= 0 -> 0 < Server.Size header ->
      Receive.expectedSize r header = Server.Size header)
  /\ (Server.ContentLength r <= 0 -> Server.Size header <= 0 ->
      forall clock, Receive.printed r header script clock = []).
Proof.
  split; [apply copyReports_total|].
  unfold Receive.expectedSize. cbv zeta.
  split; [|split].
  - intros Hpos.
    replace (Server.ContentLength r <=? 0) with false
      by (symmetry; apply Z.leb_gt; exact Hpos). reflexivity.
  - intros Hnone Hsize.
    replace (Server.ContentLength r <=? 0) with true
      by (symmetry; apply Z.leb_le; exact Hnone).
    replace (0 <? Server.Size header) with true
      by (symmetry; apply Z.ltb_lt; exact Hsize). reflexivity.
  - intros Hnone Hsize clock. unfold Receive.printed.
    pose proof (copyReports_total (Receive.expectedSize r header) script 0)
      as Htotal.
    destruct (Receive.copyReports (Receive.expectedSize r header) 0 script)
      as [|call calls]; [reflexivity|].
    apply Forall_cons in Htotal as ((_ & Hpos) & _).
    unfold Receive.expectedSize in Hpos. cbv zeta in Hpos.
    replace (Server.ContentLength r <=? 0) with true in Hpos
      by (symmetry; apply Z.leb_le; exact Hnone).
    replace (0 <? Server.Size header) with false in Hpos
      by (symmetry; apply Z.ltb_ge; exact Hsize).
    lia.
Qed.

Lemma handler_reports_against_declared_size_witness :
  Receive.expectedSize Scenario.post Scenario.dataHeader = 1024
  /\ Receive.printed (Server.mkRequest "POST" (-1))
       (Server.mkFileHeader "data.bin" 0)
       (Server.copySteps Scenario.stored) Cases.serverClock = [].
Proof.
  pose proof (handler_reports_against_declared_size Scenario.post
                Scenario.dataHeader (Server.copySteps Scenario.stored))
    as (_ & Hdeclared & _).
  pose proof (handler_reports_against_declared_size
                (Server.mkRequest "POST" (-1))
                (Server.mkFileHeader "data.bin" 0)
                (Server.copySteps Scenario.stored))
    as (_ & _ & _ & Hnone).
  split.
  - apply Hdeclared. simpl. lia.
  - apply Hnone; simpl; lia.
Defined.

(** The progress lines of the handler: on a clock that does not run
    backwards consecutive lines are at least one second apart, every line
    is computed over an interval of at least one second (the inner test on
    the interval never suppresses a line), and the byte differences of the
    lines add up to the bytes the last line shows. *)
Theorem handler_lines_spaced_and_adding_up (r : Server.Request)
    (header : Server.FileHeader) (script : list Server.CopyStep)
    (clock : nat -> Z) :
  (forall i j, (i <= j)%nat -> clock i <= clock j) ->
  (forall i, 0 <= clock i < 2 ^ 62) ->
  Forall (fun call => 0 <= fst (fst call) < 2 ^ 63)
         (Receive.copyReports (Receive.expectedSize r header) 0 script) ->
  let lines := Receive.printed r header script clock in
  Console.spaced Client.Second (List.map Receive.lineAt lines)
  /\ Forall (fun l => Client.Second <= Receive.timeDiff l) lines
  /\ Spec.sumZ (List.map Receive.bytesDiff lines)
     = match last lines with
       | Some l => Receive.lineBytes l
       | None => 0
       end.
Proof.
  intros Hmono Hrange Hbytes lines.
  destruct (progressCallback_lines clock Hmono Hrange _ Hbytes 0
              Receive.newMeter eq_refl ltac:(simpl; lia))
    as (Hsp & _ & Hdiffs & Hsum).
  { intros t Ht. discriminate. }
  subst lines. unfold Receive.printed.
  split; [exact Hsp|]. split; [exact Hdiffs|].
  rewrite Hsum. simpl.
  destruct (last _); lia.
Qed.

Lemma handler_lines_spaced_and_adding_up_witness :
  List.map (fun l => (Receive.lineAt l, Receive.lineBytes l,
                      Receive.bytesDiff l))
    (Receive.printed Scenario.post Cases.eightHeader
       (Server.copySteps Cases.fourChunks) Cases.serverClock)
  = [ (0, 2, 2); (1200000000, 6, 4) ]
  /\ Console.spaced Client.Second
       (List.map Receive.lineAt
          (Receive.printed Scenario.post Cases.eightHeader
             (Server.copySteps Cases.fourChunks) Cases.serverClock))
  /\ Forall (fun l => Client.Second <= Receive.timeDiff l)
       (Receive.printed Scenario.post Cases.eightHeader
          (Server.copySteps Cases.fourChunks) Cases.serverClock)
  /\ Spec.sumZ
       (List.map Receive.bytesDiff
          (Receive.printed Scenario.post Cases.eightHeader
             (Server.copySteps Cases.fourChunks) Cases.serverClock))
     = 6.
Proof.
  split; [reflexivity|].
  apply (handler_lines_spaced_and_adding_up Scenario.post
           Cases.eightHeader (Server.copySteps Cases.fourChunks)
           Cases.serverClock).
  - intros i j Hij. unfold Cases.serverClock. lia.
  - intros i. unfold Cases.serverClock. lia.
  - apply List.Forall_forall. intros call Hin.
    assert (Hall :
      forallb (fun call => (0 <=? fst (fst call))
                           && (fst (fst call) <? 2 ^ 63))
        (Receive.copyReports
           (Receive.expectedSize Scenario.post Cases.eightHeader) 0
           (Server.copySteps Cases.fourChunks)) = true) by reflexivity.
    rewrite List.forallb_forall in Hall. specialize (Hall call Hin).
    apply andb_true_iff in Hall as (Hlo & Hhi).
    apply Z.leb_le in Hlo. apply Z.ltb_lt in Hhi. lia.
Defined.

(** ** formatBytes *)

Section FormatFacts.

Import Format.

Lemma pow1024_succ (k : Z) : 0 <= k -> 1024 ^ (k + 1) = 1024 ^ k * 1024.
Proof. intros Hk. rewrite Z.pow_add_r by lia. reflexivity. Qed.

Lemma pow1024_pos (k : Z) : 0 <= k -> 0 < 1024 ^ k.
Proof. intros Hk. apply Z.pow_pos_nonneg; lia. Qed.

(** A power of 1024 below [2^63] has exponent at most 6. *)
Lemma pow1024_int64 (k : Z) : 0 <= k -> 1024 ^ k < 2 ^ 63 -> k <= 6.
Proof.
  intros Hk Hlt.
  destruct (Z.le_gt_cases k 6) as [Hle|Hgt]; [exact Hle|].
  assert (H7 : 1024 ^ 7 <= 1024 ^ k) by (apply Z.pow_le_mono_r; lia).
  assert (Hval : 1024 ^ 7 = 1180591620717411303424) by reflexivity.
  lia.
Qed.

Lemma unitLoop_selects (bytes : Z) (fuel : nat) :
  forall n div exp,
    0 <= exp ->
    div = 1024 ^ (exp + 1) ->
    n = bytes / div ->
    div <= bytes < 2 ^ 63 ->
    6 - exp <= Z.of_nat fuel ->
    exists k,
      unitLoop fuel n div exp = Some (1024 ^ (k + 1), k)
      /\ exp <= k <= 5
      /\ 1024 ^ (k + 1) <= bytes < 1024 ^ (k + 2).
Proof.
  induction fuel as [|fuel IH]; intros n div exp Hexp Hdiv Hn Hbytes Hfuel.
  - assert (exp + 1 <= 6)
      by (apply pow1024_int64; [lia | subst div; lia]).
    lia.
  - pose proof (pow1024_pos (exp + 1) ltac:(lia)) as Hpos.
    assert (Hexp5 : exp + 1 <= 6)
      by (apply pow1024_int64; [lia | subst div; lia]).
    assert (Hnext : 1024 ^ (exp + 2) = div * 1024).
    { replace (exp + 2) with (exp + 1 + 1) by lia.
      rewrite pow1024_succ by lia. subst div. reflexivity. }
    simpl. unfold unit at 1.
    destruct (n >=? 1024) eqn:Hbig.
    + assert (Hge : 1024 <= n) by (apply Z.geb_le in Hbig; lia).
      assert (Hmul : div * 1024 <= bytes).
      { subst n.
        pose proof (Z.mul_div_le bytes div ltac:(lia)) as Hle.
        nia. }
      assert (Hexp4 : exp + 2 <= 6)
        by (apply pow1024_int64; [lia | rewrite Hnext; lia]).
      unfold unit.
      rewrite Z.quot_div_nonneg by lia.
      rewrite (wrap64_id (div * 1024)) by (unfold int64_range; lia).
      rewrite (wrap64_id (exp + 1)) by (unfold int64_range; lia).
      destruct (IH (n / 1024) (div * 1024) (exp + 1)) as (k & Hrun & Hk & Hb).
      * lia.
      * replace (exp + 1 + 1) with (exp + 2) by lia. congruence.
      * subst n. rewrite Z.div_div by lia. reflexivity.
      * lia.
      * lia.
      * exists k. split; [exact Hrun|]. split; [lia | exact Hb].
    + exists exp. rewrite <- Hdiv. split; [reflexivity|].
      split; [lia|]. split; [lia|].
      rewrite Hnext.
      assert (Hlt : n < 1024).
      { destruct (Z.geb_spec n 1024); [discriminate | lia]. }
      subst n.
      pose proof (Z.mul_succ_div_gt bytes div ltac:(lia)) as Hgt.
      nia.
Qed.

Lemma unitLetter_defined (k : Z) :
  0 <= k <= 5 -> exists letter, unitLetter k = Some letter.
Proof.
  intros Hk.
  assert (Hcases : k = 0 \/ k = 1 \/ k = 2 \/ k = 3 \/ k = 4 \/ k = 5)
    by lia.
  destruct Hcases as [->|[->|[->|[->|[->| ->]]]]]; eexists; reflexivity.
Qed.

End FormatFacts.

(** For every size of at least 1024 bytes that an [int64] can hold,
    [formatBytes] picks the unit [1024^(k+1)] with
    [1024^(k+1) <= bytes < 1024^(k+2)], finds its letter in the table of six
    (the index is never out of range, up to exabytes), and prints the size
    divided by that unit. *)
Theorem formatBytes_picks_unit (render : Z -> Z -> string) (bytes : Z) :
  1024 <= bytes < 2 ^ 63 ->
  exists k letter,
    0 <= k <= 5
    /\ Format.unitLetter k = Some letter
    /\ 1024 ^ (k + 1) <= bytes < 1024 ^ (k + 2)
    /\ Format.formatBytesWith render bytes
       = Some (render bytes (1024 ^ (k + 1)) +:+ " " +:+ String letter "B").
Proof.
  intros Hbytes. unfold Format.formatBytesWith.
  replace (bytes <? Format.unit) with false
    by (symmetry; apply Z.ltb_ge; unfold Format.unit; lia).
  destruct (unitLoop_selects bytes 64 (Z.quot bytes Format.unit)
              Format.unit 0) as (k & Hrun & Hk & Hb).
  - lia.
  - reflexivity.
  - unfold Format.unit. rewrite Z.quot_div_nonneg by lia. reflexivity.
  - unfold Format.unit. lia.
  - simpl. lia.
  - destruct (unitLetter_defined k ltac:(lia)) as (letter & Hletter).
    exists k, letter. rewrite Hrun, Hletter.
    split; [lia|]. split; [reflexivity|]. split; [exact Hb | reflexivity].
Qed.

Lemma formatBytes_picks_unit_witness :
  exists k letter,
    0 <= k <= 5
    /\ Format.unitLetter k = Some letter
    /\ 1024 ^ (k + 1) <= 1500 < 1024 ^ (k + 2)
    /\ Format.formatBytesWith Format.fixed1 1500
       = Some (Format.fixed1 1500 (1024 ^ (k + 1))
               +:+ " " +:+ String letter "B").
Proof.
  apply (formatBytes_picks_unit Format.fixed1 1500). lia.
Defined.

(** The repository's own table for [formatBytes] ([TestFormatBytes]) holds
    of the function as modelled, rounding included. *)
Theorem formatBytes_passes_its_test_table :
  Forall (fun row => Format.formatBytes (fst row) = Some (snd row))
         Format.testTable.
Proof. repeat constructor. Qed.

(** [Format.tenths] is the quotient in tenths, rounded to nearest. *)
Lemma tenths_nearest (bytes div : Z) :
  0 < div ->
  0 <= bytes < 2 ^ 53 ->
  2 * Z.abs (10 * bytes - Format.tenths bytes div * div) <= div
  /\ (div <= bytes < 1024 * div -> 10 <= Format.tenths bytes div <= 10240).
Proof.
  intros Hdiv Hbytes. unfold Format.tenths, Format.toFloat64.
  replace (bytes <? 2 ^ 53) with true by (symmetry; apply Z.ltb_lt; lia).
  cbv zeta.
  pose proof (Z.div_mod (10 * bytes) div ltac:(lia)) as Hdm.
  pose proof (Z.mod_pos_bound (10 * bytes) div Hdiv) as Hmod.
  set (q := 10 * bytes / div) in *. set (r := (10 * bytes) mod div) in *.
  assert (Hround :
    (if (div <? 2 * r) || ((2 * r =? div) && Z.odd q) then q + 1 else q) = q
    /\ 2 * r <= div
    \/ (if (div <? 2 * r) || ((2 * r =? div) && Z.odd q) then q + 1 else q)
       = q + 1 /\ div <= 2 * r).
  { destruct (div <? 2 * r) eqn:Hup; cbn [orb];
      [apply Z.ltb_lt in Hup; right; lia|].
    apply Z.ltb_ge in Hup.
    destruct (2 * r =? div) eqn:Htie; cbn [andb]; [|left; lia].
    apply Z.eqb_eq in Htie.
    destruct (Z.odd q); [right | left]; lia. }
  destruct Hround as [(-> & Hr)|(-> & Hr)]; split; nia.
Qed.

(** For a size from 1024 bytes up to [2^53] (which [float64] holds
    exactly), the string [formatBytes] returns is [t/10], a point, [t mod
    10], a space, the letter of the unit and [B], where [t] is the size
    divided by the unit [1024^(k+1) <= bytes < 1024^(k+2)], in tenths,
    rounded to nearest; [t] lies between 10 and 10240, so a size just below
    the next unit is printed as 1024.0 of the smaller one. *)
Theorem printed_figure_is_nearest_tenth (bytes : Z) :
  1024 <= bytes < 2 ^ 53 ->
  exists k letter t,
    Format.formatBytes bytes
    = Some ((itoa (t / 10) +:+ "." +:+ itoa (t mod 10))
            +:+ " " +:+ String letter "B")
    /\ Format.unitLetter k = Some letter
    /\ 1024 ^ (k + 1) <= bytes < 1024 ^ (k + 2)
    /\ 2 * Z.abs (10 * bytes - t * 1024 ^ (k + 1)) <= 1024 ^ (k + 1)
    /\ 10 <= t <= 10240.
Proof.
  intros Hbytes. unfold Format.formatBytes, Format.formatBytesWith.
  replace (bytes <? Format.unit) with false
    by (symmetry; apply Z.ltb_ge; unfold Format.unit; lia).
  destruct (unitLoop_selects bytes 64 (Z.quot bytes Format.unit)
              Format.unit 0) as (k & Hrun & Hk & Hb).
  - lia.
  - reflexivity.
  - unfold Format.unit. rewrite Z.quot_div_nonneg by lia. reflexivity.
  - unfold Format.unit. lia.
  - simpl. lia.
  - destruct (unitLetter_defined k ltac:(lia)) as (letter & Hletter).
    pose proof (pow1024_pos (k + 1) ltac:(lia)) as Hpos.
    destruct (tenths_nearest bytes (1024 ^ (k + 1)) Hpos ltac:(lia))
      as (Hnear & Hrange).
    assert (Hnext : 1024 ^ (k + 2) = 1024 ^ (k + 1) * 1024).
    { replace (k + 2) with (k + 1 + 1) by lia.
      apply (pow1024_succ (k + 1)). lia. }
    exists k, letter, (Format.tenths bytes (1024 ^ (k + 1))).
    rewrite Hrun, Hletter.
    split; [reflexivity|]. split; [reflexivity|].
    split; [exact Hb|]. split; [exact Hnear|].
    apply Hrange. lia.
Qed.

Lemma printed_figure_is_nearest_tenth_witness :
  exists k letter t,
    Format.formatBytes 1048575
    = Some ((itoa (t / 10) +:+ "." +:+ itoa (t mod 10))
            +:+ " " +:+ String letter "B")
    /\ Format.unitLetter k = Some letter
    /\ 1024 ^ (k + 1) <= 1048575 < 1024 ^ (k + 2)
    /\ 2 * Z.abs (10 * 1048575 - t * 1024 ^ (k + 1)) <= 1024 ^ (k + 1)
    /\ 10 <= t <= 10240.
Proof.
  apply (printed_figure_is_nearest_tenth 1048575). lia.
Defined.

(** The size just below one megabyte is printed as 1024.0 KB. *)
Example formatBytes_below_next_unit :
  Format.formatBytes 1048575 = Some "1024.0 KB".
Proof. reflexivity. Qed.

(** ** The generator of test files *)

Section GeneratorFacts.

Import TestFiles.

Variable env : GenEnv.
Variable filePath : string.

Lemma take_seq (k start len : nat) :
  take k (seq start len) = seq start (Nat.min k len).
Proof.
  revert start len; induction k as [|k IH]; intros start len;
    [reflexivity|].
  destruct len as [|len]; [reflexivity|].
  simpl. f_equal. apply IH.
Qed.

Lemma stream_extend (pos k : nat) :
  List.map (randByte env) (seq 0 pos)
  ++ List.map (randByte env) (seq pos k)
  = List.map (randByte env) (seq 0 (pos + k)).
Proof. rewrite seq_app, List.map_app. reflexivity. Qed.

(** The loop ends, and the file then holds the random stream up to some
    point; when the loop ends well, up to its full length. *)
Lemma fillLoop_prefix (fuel : nat) :
  forall (i pos : nat) (remaining : Z) (fs : FS),
    fs !! filePath = Some (List.map (randByte env) (seq 0 pos)) ->
    remaining < 2 ^ 63 ->
    remaining <= Z.of_nat fuel * bufferLen ->
    exists res n,
      fillLoop fuel env filePath i pos remaining fs
      = Some (res, <[filePath := List.map (randByte env) (seq 0 n)]> fs)
      /\ (pos <= n <= pos + Z.to_nat remaining)%nat
      /\ (res = None -> n = (pos + Z.to_nat remaining)%nat)
      /\ ((forall j, randErr env j = None
                     /\ writeRes env j = Server.WriteOk) ->
          res = None).
Proof.
  assert (Hstop : forall fuel' i pos remaining (fs : FS),
            fs !! filePath = Some (List.map (randByte env) (seq 0 pos)) ->
            remaining <= 0 ->
            exists res n,
              fillLoop fuel' env filePath i pos remaining fs
              = Some (res,
                      <[filePath := List.map (randByte env) (seq 0 n)]> fs)
              /\ (pos <= n <= pos + Z.to_nat remaining)%nat
              /\ (res = None -> n = (pos + Z.to_nat remaining)%nat)
              /\ ((forall j, randErr env j = None
                             /\ writeRes env j = Server.WriteOk) ->
                  res = None)).
  { intros fuel' i pos remaining fs Hfile Hdone.
    exists None, pos.
    replace (fillLoop fuel' env filePath i pos remaining fs)
      with (Some (@None error, fs)).
    - rewrite (insert_id fs filePath _ Hfile).
      repeat split; try reflexivity; lia.
    - destruct fuel'; simpl;
        (replace (0 <? remaining) with false
           by (symmetry; apply Z.ltb_ge; exact Hdone)); reflexivity. }
  induction fuel as [|fuel IH]; intros i pos remaining fs Hfile Hmax Hfuel.
  - apply Hstop; [exact Hfile | unfold bufferLen in Hfuel; lia].
  - destruct (Z.le_gt_cases remaining 0) as [Hdone|Hmore];
      [apply Hstop; assumption|].
    simpl. replace (0 <? remaining) with true
      by (symmetry; apply Z.ltb_lt; lia).
    set (blockSize := if remaining <? bufferLen then remaining
                      else bufferLen).
    assert (Hblock : 0 < blockSize <= remaining
                     /\ remaining - blockSize
                        <= Z.of_nat fuel * bufferLen).
    { unfold blockSize, bufferLen in *.
      destruct (remaining <? 64 * 1024) eqn:Hsmall;
        [apply Z.ltb_lt in Hsmall | apply Z.ltb_ge in Hsmall]; lia. }
    destruct Hblock as ((Hb0 & Hb1) & Hleft).
    destruct (randErr env i) as [err|] eqn:Hrand.
    + exists (Some err), pos.
      rewrite (insert_id fs filePath _ Hfile).
      split; [reflexivity|]. split; [lia|].
      split; [discriminate|].
      intros Hclean. destruct (Hclean i) as (Hnone & _). congruence.
    + destruct (writeRes env i) as [|written err] eqn:Hwrite.
      * rewrite (wrap64_id (remaining - blockSize))
          by (unfold int64_range; lia).
        unfold Server.append. rewrite Hfile. simpl default.
        unfold randomBlock. rewrite stream_extend.
        set (fs1 := <[filePath := List.map (randByte env)
                                    (seq 0 (pos + Z.to_nat blockSize))]> fs).
        destruct (IH (S i) (pos + Z.to_nat blockSize)%nat
                    (remaining - blockSize) fs1)
          as (res & n & Hrun & Hn & Hok & Hclean).
        { apply lookup_insert_eq. }
        { lia. }
        { exact Hleft. }
        exists res, n. rewrite Hrun. unfold fs1.
        rewrite insert_insert_eq.
        split; [reflexivity|]. split; [lia|].
        split; [intros Hres; rewrite (Hok Hres); lia | exact Hclean].
      * exists (Some err), (pos + Nat.min written (Z.to_nat blockSize))%nat.
        unfold Server.append. rewrite Hfile. simpl default.
        unfold randomBlock.
        rewrite firstn_map, take_seq, stream_extend.
        split; [reflexivity|]. split; [lia|].
        split; [discriminate|].
        intros Hclean. destruct (Hclean i) as (_ & Hnone). congruence.
Qed.

End GeneratorFacts.



(** When neither [rand.Read] nor [file.Write] fails, [generateBinaryFile]
    returns nil and the file holds exactly [size] bytes (none for a size
    that is zero or negative), the first [size] bytes of the random
    stream; an existing file of that name is replaced. *)
Theorem generated_file_has_requested_size (env : TestFiles.GenEnv)
    (filePath : string) (size : Z) (fs : gmap string (list Byte.byte)) :
  size < 2 ^ 63 ->
  TestFiles.createErr env = None ->
  (forall j, TestFiles.randErr env j = None
             /\ TestFiles.writeRes env j = Server.WriteOk) ->
  TestFiles.generateBinaryFile env filePath size fs
  = Some (None,
          <[filePath := List.map (TestFiles.randByte env)
                          (seq 0 (Z.to_nat size))]> fs)
  /\ length (List.map (TestFiles.randByte env) (seq 0 (Z.to_nat size)))
     = Z.to_nat size.
Proof.
  intros Hsize Hcreate Hclean. unfold TestFiles.generateBinaryFile.
  rewrite Hcreate.
  destruct (fillLoop_prefix env filePath
              (S (Z.to_nat (size / TestFiles.bufferLen))) 0 0 size
              (Server.create filePath fs))
    as (res & n & Hrun & Hn & Hok & Hnone).
  - apply lookup_insert_eq.
  - exact Hsize.
  - unfold TestFiles.bufferLen.
    destruct (Z.le_gt_cases size 0) as [Hneg|Hpos]; [lia|].
    pose proof (Z.mul_succ_div_gt size (64 * 1024) ltac:(lia)) as Hgt.
    assert (0 <= size / (64 * 1024)) by (apply Z.div_pos; lia).
    rewrite Nat2Z.inj_succ, Z2Nat.id by lia. lia.
  - specialize (Hnone Hclean). subst res.
    rewrite (Hok eq_refl) in Hrun.
    split.
    + rewrite Hrun. unfold Server.create. rewrite insert_insert_eq.
      reflexivity.
    + rewrite length_map, length_seq. reflexivity.
Qed.

Lemma generated_file_has_requested_size_witness :
  TestFiles.generateBinaryFile Cases.counting "test_files/binary_5B.bin" 5 ∅
  = Some (None,
          <["test_files/binary_5B.bin" :=
             List.map (TestFiles.randByte Cases.counting)
               (seq 0 (Z.to_nat 5))]> ∅)
  /\ length (List.map (TestFiles.randByte Cases.counting)
               (seq 0 (Z.to_nat 5)))
     = Z.to_nat 5.
Proof.
  apply (generated_file_has_requested_size Cases.counting
           "test_files/binary_5B.bin" 5 ∅);
    [lia | reflexivity | intros j; split; reflexivity].
Defined.

(** ** More on the semaphore *)

(** With [MaxConcurrency = 0] the channel is unbuffered and nobody ever
    receives from it before sending: in every run no session holds a slot
    and no waiting session can take one, so every upload waits until its
    context is cancelled. *)
Theorem zero_capacity_admits_nobody (numCPU : Z) (cfg : Client.ClientConfig)
    (ms : list Limiter.Move) (cl : Limiter.HTTPClient) :
  Client.MaxConcurrency cfg = 0 ->
  Limiter.run (Limiter.NewHTTPClientWithConfig numCPU (Some cfg)) ms
    = Some cl ->
  Limiter.holders cl = 0
  /\ forall i, Limiter.step cl (Limiter.Acquire i) = None.
Proof.
  intros Hzero Hrun.
  assert (Hinit : Limiter.balanced
                    (Limiter.NewHTTPClientWithConfig numCPU (Some cfg)))
    by (split; [reflexivity | simpl; lia]).
  destruct (run_balanced _ _ _ Hinit Hrun) as (Hbal & Hcap).
  simpl in Hcap.
  assert (Hnone : Limiter.holders cl = 0).
  { destruct Hbal as (Hlen & Hle). unfold Limiter.holders in *. lia. }
  split; [exact Hnone|].
  intros i. apply acquire_refused_when_full; [exact Hbal|lia].
Qed.

Lemma zero_capacity_admits_nobody_witness :
  exists cl,
    Limiter.run
      (Limiter.NewHTTPClientWithConfig 8
         (Some (Client.mkConfig 65536 0 0 0 0)))
      (Limiter.batch 2 ++ [Limiter.Cancel 1])
    = Some cl
    /\ Limiter.holders cl = 0
    /\ forall i, Limiter.step cl (Limiter.Acquire i) = None.
Proof.
  eexists. split; [reflexivity|].
  apply (zero_capacity_admits_nobody 8 (Client.mkConfig 65536 0 0 0 0)
           (Limiter.batch 2 ++ [Limiter.Cancel 1]));
    reflexivity.
Defined.

(** A free slot is never withheld: at any point of any run, a waiting
    session can take a slot as long as fewer than [MaxConcurrency] are
    held, and then holds one more. *)
Theorem free_slot_is_granted (numCPU : Z) (cfg : Client.ClientConfig)
    (ms : list Limiter.Move) (cl : Limiter.HTTPClient) (i : nat) :
  0 <= Client.MaxConcurrency cfg ->
  Limiter.run (Limiter.NewHTTPClientWithConfig numCPU (Some cfg)) ms
    = Some cl ->
  Limiter.sessions cl !! i = Some Limiter.Waiting ->
  Limiter.holders cl < Client.MaxConcurrency cfg ->
  exists cl',
    Limiter.step cl (Limiter.Acquire i) = Some cl'
    /\ Limiter.sessions cl' !! i = Some Limiter.Holding
    /\ Limiter.holders cl' = Limiter.holders cl + 1.
Proof.
  intros Hk Hrun Hwait Hfree.
  assert (Hinit : Limiter.balanced
                    (Limiter.NewHTTPClientWithConfig numCPU (Some cfg)))
    by (split; [reflexivity | exact Hk]).
  destruct (run_balanced _ _ _ Hinit Hrun) as ((Hlen & Hle) & Hcap).
  simpl in Hcap.
  eexists. simpl. rewrite Hwait.
  replace (Limiter.semLen cl <? Limiter.semCap cl) with true
    by (symmetry; apply Z.ltb_lt; lia).
  split; [reflexivity|]. split.
  - simpl. apply list_lookup_insert_eq.
    apply (lookup_lt_Some _ _ _ Hwait).
  - unfold Limiter.holders. simpl.
    rewrite (holders_insert _ _ _ _ Hwait). simpl. lia.
Qed.

Lemma free_slot_is_granted_witness :
  exists cl',
    Limiter.step
      (Limiter.mkHTTPClient (Scenario.withRetries 0) 1 0
         [Limiter.Returned; Limiter.Waiting])
      (Limiter.Acquire 1) = Some cl'
    /\ Limiter.sessions cl' !! 1%nat = Some Limiter.Holding
    /\ Limiter.holders cl'
       = Limiter.holders
           (Limiter.mkHTTPClient (Scenario.withRetries 0) 1 0
              [Limiter.Returned; Limiter.Waiting]) + 1.
Proof.
  apply (free_slot_is_granted 8 (Scenario.withRetries 0)
           (Limiter.batch 2 ++ [Limiter.Acquire 0; Limiter.Release 0]));
    [simpl; lia | reflexivity | reflexivity | reflexivity].
Defined.

(** ** More on one attempt *)

Section AttemptFacts.

Import Client Spec.

Variable ctxErr : error.





End AttemptFacts.



(** No request is sent for a file that cannot be used: when an attempt
    calls [client.Do], the file has been opened, its size has been read and
    is not zero, and the request has been built. *)
Theorem request_sent_only_for_usable_file (hasCallback : bool)
    (ctxErr : error) (env : Client.AttemptEnv) (r : Client.AttemptResult) :
  Client.uploadFileOnce hasCallback ctxErr env = Some r ->
  In Client.EvDo (Client.arEvents r) ->
  Client.openErr env = None
  /\ (exists fileSize,
         Client.statResult env = inr fileSize /\ fileSize <> 0)
  /\ Client.newRequestErr env = None.
Proof.
  unfold Client.uploadFileOnce. intros Hrun Hsent. revert Hrun.
  destruct (Client.openErr env); [intros [= <-]; destruct Hsent|].
  destruct (Client.statResult env) as [cause|fileSize];
    [intros [= <-]; destruct Hsent|].
  destruct (fileSize =? 0) eqn:Hzero; [intros [= <-]; destruct Hsent|].
  apply Z.eqb_neq in Hzero.
  pose proof (producer_events hasCallback ctxErr fileSize env) as Hquiet.
  destruct (Client.producer hasCallback ctxErr fileSize env) as [done evs].
  simpl in Hquiet.
  destruct (Client.newRequestErr env).
  - intros [= <-]. simpl in Hsent. exfalso.
    rewrite List.Forall_forall in Hquiet.
    specialize (Hquiet _ Hsent). discriminate.
  - intros _. split; [reflexivity|]. split; [|reflexivity].
    exists fileSize. split; [reflexivity | exact Hzero].
Qed.

Lemma request_sent_only_for_usable_file_witness :
  Client.openErr Scenario.serverFails = None
  /\ (exists fileSize,
         Client.statResult Scenario.serverFails = inr fileSize
         /\ fileSize <> 0)
  /\ Client.newRequestErr Scenario.serverFails = None.
Proof.
  apply (request_sent_only_for_usable_file true Scenario.canceled
           Scenario.serverFails
           (Client.mkAttemptResult
              (Some (Client.statusError
                       (Client.mkResponse "500 Internal Server Error" 500
                          "Failed to read body")))
              [Client.EvDo; Client.EvProgress 3 5 (Client.percentage 3 5);
               Client.EvProgress 5 5 (Client.percentage 5 5)]
              (Some None)
              (Some (Client.mkResponse "500 Internal Server Error" 500
                       "Failed to read body"))));
    [reflexivity | left; reflexivity].
Defined.

Lemma cancellation_at_select_witness :
  Client.UploadFile (Scenario.withRetries 2) true Scenario.canceled
    (Client.mkCallEnv Client.CaseCtxDone [])
  = Some (Some Scenario.canceled, [])
  /\ exists evs,
       Client.UploadFile (Scenario.withRetries 2) true Scenario.canceled
         (Client.mkCallEnv Client.CaseProceed
            [ Scenario.attempt Scenario.serverFails;
              Client.mkAttemptScript Client.CaseCtxDone Scenario.uploaded ])
       = Some (Some Scenario.canceled, evs)
       /\ Client.attemptsMade evs = 1%nat.
Proof.
  split.
  - apply (proj1 (cancellation_at_select (Scenario.withRetries 2) true
                    Scenario.canceled
                    (Client.mkCallEnv Client.CaseCtxDone []))).
    reflexivity.
  - apply (proj2 (cancellation_at_select (Scenario.withRetries 2) true
                    Scenario.canceled
                    (Client.mkCallEnv Client.CaseProceed
                       [ Scenario.attempt Scenario.serverFails;
                         Client.mkAttemptScript Client.CaseCtxDone
                           Scenario.uploaded ]))
             [Scenario.attempt Scenario.serverFails]
             (Client.mkAttemptScript Client.CaseCtxDone Scenario.uploaded)
             []);
      [ reflexivity | reflexivity | discriminate | simpl; lia
      | reflexivity | reflexivity ].
Defined.
